(** * Course filtering service (app/utils/course_service.py, settings.py)

    A shallow embedding of [CourseService] and of the lookup tables of
    [settings.py], and the properties of its filter translator, local
    evaluator and public operations.

    Conventions of the embedding.
    - A Python [str] is a Rocq [string] holding its UTF-8 encoding, as
      the source file itself does; [Unicode.utf8_decode] recovers the code
      points where the code looks at characters ([str.isdigit], [int]).
    - The members of the user's sets and the elements of a record's
      lists are strings and integers ([scalar]); booleans, floats and
      other values are not part of the data model.
    - A Python [set] is the list of its members in the order in which
      iteration yields them.
    - A Python [dict] is a [gmap]; a dict whose order is observed
      (a literal iterated with [.items()]) is the list of its items.
    - A call that may raise returns a [res]: [Ok v] or [Raise e].
    - The API client and the fallback dataset are not part of these
      sources: a client is any pair of answers to the two requests, the
      dataset any list of records or none.
    - The environment that [os.getenv] reads once [load_dotenv] has run
      is a [gmap] from names to values; the body of the class [Settings]
      and the constructors are functions of it. *)

From Stdlib Require Import ZArith NArith List String Ascii Bool Lia.
From Stdlib Require Import DecimalString DecimalN DecimalPos ZifyBool ZifyN.
From stdpp Require Import base option list gmap strings.

Local Open Scope string_scope.
Local Open Scope list_scope.

(** ** Characters: the part of the Unicode database that [str.isdigit]
    and [int] consult (Unicode 14.0, the database of CPython 3.11). *)

Module Unicode.

Local Open Scope N_scope.

(** Value of a UTF-8 continuation byte, [None] for any other byte. *)
Definition continuation (b : N) : option N :=
  if (128 <=? b) && (b <? 192) then Some (b - 128) else None.

(** Code points of a UTF-8 string; [None] when the bytes are not the
    encoding of a sequence of code points (a stray or missing
    continuation byte, an overlong form, a value above U+10FFFF). *)
Fixpoint utf8_decode (s : string) : option (list N) :=
  match s with
  | EmptyString => Some []
  | String a0 s1 =>
    let b0 := N_of_ascii a0 in
    if b0 <? 128 then cons b0 <$> utf8_decode s1
    else if b0 <? 192 then None
    else if b0 <? 224 then
      match s1 with
      | String a1 s2 =>
        c1 ← continuation (N_of_ascii a1);
        let cp := (b0 - 192) * 64 + c1 in
        if cp <? 128 then None else cons cp <$> utf8_decode s2
      | _ => None
      end
    else if b0 <? 240 then
      match s1 with
      | String a1 (String a2 s3) =>
        c1 ← continuation (N_of_ascii a1);
        c2 ← continuation (N_of_ascii a2);
        let cp := ((b0 - 224) * 64 + c1) * 64 + c2 in
        if cp <? 2048 then None else cons cp <$> utf8_decode s3
      | _ => None
      end
    else if b0 <? 248 then
      match s1 with
      | String a1 (String a2 (String a3 s4)) =>
        c1 ← continuation (N_of_ascii a1);
        c2 ← continuation (N_of_ascii a2);
        c3 ← continuation (N_of_ascii a3);
        let cp := (((b0 - 240) * 64 + c1) * 64 + c2) * 64 + c3 in
        if (cp <? 65536) || (1114111 <? cp) then None
        else cons cp <$> utf8_decode s4
      | _ => None
      end
    else None
  end.

(** The code points of digit zero of every run of ten decimal digits
    (Numeric_Type=Decimal): ASCII, Arabic-Indic, Devanagari, ...,
    fullwidth, mathematical, ... *)
Definition decimal_zeros : list N :=
[ 48; 1632; 1776; 1984; 2406; 2534; 2662; 2790;
  2918; 3046; 3174; 3302; 3430; 3558; 3664; 3792;
  3872; 4160; 4240; 6112; 6160; 6470; 6608; 6784;
  6800; 6992; 7088; 7232; 7248; 42528; 43216; 43264;
  43472; 43504; 43600; 44016; 65296; 66720; 68912; 69734;
  69872; 69942; 70096; 70384; 70736; 70864; 71248; 71360;
  71472; 71904; 72016; 72784; 73040; 73120; 92768; 92864;
  93008; 120782; 120792; 120802; 120812; 120822; 123200; 123632;
  125264; 130032 ].

(** Ranges of the characters that are digits without being decimal
    (Numeric_Type=Digit): superscripts and subscripts, circled and
    parenthesized digits, Ethiopic and Kharoshthi digits, ... *)
Definition digit_only_ranges : list (N * N) :=
[ (178, 179); (185, 185); (4969, 4977); (6618, 6618); (8304, 8304);
  (8308, 8313); (8320, 8329); (9312, 9320); (9332, 9340); (9352, 9360);
  (9450, 9450); (9461, 9469); (9471, 9471); (10102, 10110); (10112, 10120);
  (10122, 10130); (68160, 68163); (69216, 69224); (69714, 69722);
  (127232, 127242) ].

(** [Py_UNICODE_TODECIMAL]: the value of a decimal digit. *)
Definition decimal_value (c : N) : option N :=
  (λ z, c - z) <$>
    List.find (λ z, (z <=? c) && (c <? z + 10)) decimal_zeros.

(** [Py_UNICODE_ISDIGIT]: decimal digits and the other digits. *)
Definition is_digit (c : N) : bool :=
  match decimal_value c with
  | Some _ => true
  | None =>
    existsb (λ r : N * N, (fst r <=? c) && (c <=? snd r)) digit_only_ranges
  end.

(** The number written by a sequence of decimal digits, most
    significant first; [None] if a character is not a decimal digit. *)
Fixpoint decimal_number (acc : N) (cs : list N) : option N :=
  match cs with
  | [] => Some acc
  | c :: cs' =>
    d ← decimal_value c;
    decimal_number (10 * acc + d) cs'
  end.

End Unicode.

(** ** Python values and exceptions *)

(** The hashable values that occur as members of the user's sets, as
    elements of a record's lists and as keys and values of the tables. *)
Inductive scalar : Type :=
  | PInt (n : Z)
  | PStr (s : string).

(** The value of a field of a course record. *)
Inductive pyval : Type :=
  | PNone
  | PAtom (a : scalar)
  | PList (l : list scalar).

Global Instance scalar_eq_dec : EqDecision scalar.
Proof. solve_decision. Defined.

Global Instance scalar_countable : Countable scalar.
Proof.
  refine (inj_countable'
    (λ a, match a with PInt n => inl n | PStr s => inr s end)
    (λ x, match x with inl n => PInt n | inr s => PStr s end) _).
  by intros [].
Defined.

Global Instance PStr_inj : Inj (=) (=) PStr.
Proof. by intros ?? [= ->]. Qed.

Global Instance pyval_eq_dec : EqDecision pyval.
Proof. solve_decision. Defined.

(** The exceptions the code can meet; all derive from [Exception]. *)
Inductive exn : Type :=
  | APIError
  | ValueError
  | TypeError
  | KeyError
  | ImportError
  | AttributeError
  | OtherException (name : string).

Global Instance exn_eq_dec : EqDecision exn.
Proof. solve_decision. Defined.

Inductive res (A : Type) : Type :=
  | Ok (v : A)
  | Raise (e : exn).
Global Arguments Ok {A} v.
Global Arguments Raise {A} e.

Global Instance res_ret : MRet res := λ A v, Ok v.
Global Instance res_bind : MBind res := λ A B f r,
  match r with
  | Ok v => f v
  | Raise e => Raise e
  end.
Global Instance res_fmap : FMap res := λ A B f r,
  match r with
  | Ok v => Ok (f v)
  | Raise e => Raise e
  end.

Definition is_Ok {A} (r : res A) : Prop := ∃ v, r = Ok v.

(** A course record and the user's filter bag. *)
Abbreviation course := (gmap string pyval).
Abbreviation filter_bag := (gmap string (list scalar)).
Abbreviation api_params := (gmap string scalar).

(** ** settings.py: the lookup tables *)

(** A dict literal: later items replace earlier ones with the same key. *)
Definition py_dict {K V} `{Countable K} (items : list (K * V)) : gmap K V :=
  foldl (λ m kv, <[kv.1 := kv.2]> m) ∅ items.

Definition SUBJECT_TO_CATEGORY_items : list (scalar * scalar) :=
  [ (PStr "Искусственный интеллект", PInt 1);
    (PStr "Программирование", PInt 2);
    (PStr "Информационная безопасность", PInt 3);
    (PStr "Робототехника", PInt 4);
    (PStr "Предпринимательство", PInt 5);
    (PStr "Финансовая грамотность", PInt 6);
    (PStr "Наука", PInt 7) ].

Definition DIFFICULTY_TO_LEVEL_items : list (scalar * scalar) :=
  [ (PStr "Начальный", PStr "BEGINNER");
    (PStr "Средний", PStr "INTERMEDIATE");
    (PStr "Продвинутый", PStr "ADVANCED") ].

Definition GRADE_TO_ID_items : list (scalar * scalar) :=
  [ (PInt 7, PInt 1);
    (PInt 8, PInt 2);
    (PInt 9, PInt 3);
    (PInt 10, PInt 4);
    (PInt 11, PInt 5) ].

Definition SUBJECT_TO_CATEGORY : gmap scalar scalar :=
  py_dict SUBJECT_TO_CATEGORY_items.
Definition DIFFICULTY_TO_LEVEL : gmap scalar scalar :=
  py_dict DIFFICULTY_TO_LEVEL_items.
Definition GRADE_TO_ID : gmap scalar scalar :=
  py_dict GRADE_TO_ID_items.

(** ** Built-ins *)

(** [t in s] for two strings. *)
Fixpoint is_substring (t s : string) : bool :=
  String.prefix t s ||
  match s with
  | EmptyString => false
  | String _ s' => is_substring t s'
  end.

(** [x in v]: membership in a list by [==]; a substring test when both
    are strings; a [TypeError] when [v] is no container or when an
    integer is looked for in a string. *)
Definition py_in (x : scalar) (v : pyval) : res bool :=
  match v with
  | PList l => Ok (bool_decide (x ∈ l))
  | PAtom (PStr s) =>
    match x with
    | PStr t => Ok (is_substring t s)
    | PInt _ => Raise TypeError
    end
  | PAtom (PInt _) => Raise TypeError
  | PNone => Raise TypeError
  end.

(** [any(p(x) for x in l)]: the generator is consumed up to the first
    true value, so a later element that would raise is never reached. *)
Fixpoint py_any {A} (p : A → res bool) (l : list A) : res bool :=
  match l with
  | [] => Ok false
  | x :: l' => b ← p x; if b : bool then Ok true else py_any p l'
  end.

(** [s.isdigit()]: at least one character and every character a digit. *)
Definition py_isdigit (s : string) : bool :=
  match Unicode.utf8_decode s with
  | Some (c :: cs) => forallb Unicode.is_digit (c :: cs)
  | _ => false
  end.

(** [d.get(k)] is true in a condition: the set is there and not empty. *)
Definition truthy (o : option (list scalar)) : bool :=
  match o with
  | Some (_ :: _) => true
  | _ => false
  end.

(** [{v: k for k, v in d.items()}] *)
Definition dict_inverse (items : list (scalar * scalar)) : gmap scalar scalar :=
  foldl (λ m kv, <[kv.2 := kv.1]> m) ∅ items.

(** [user_grades.add(n)] on a set kept in insertion order. *)
Definition set_add (n : Z) (s : list Z) : list Z :=
  if bool_decide (n ∈ s) then s else s ++ [n].

Section Interpreter.

(** [sys.get_int_max_str_digits()]: 4300 by default since CPython 3.11,
    0 when the limit is disabled or the interpreter has none. *)
Variable int_max_str_digits : N.

(** [int(s)] for a string [s] of digit characters, the only strings the
    code converts: the number the decimal digits write, a [ValueError]
    when a character is a digit that is not decimal or when the string
    is longer than the interpreter allows. *)
Definition py_int (s : string) : res Z :=
  match Unicode.utf8_decode s with
  | Some cs =>
    let digits := N.of_nat (length cs) in
    if (640 <? digits)%N && (0 <? int_max_str_digits)%N
       && (int_max_str_digits <? digits)%N
    then Raise ValueError
    else
      match Unicode.decimal_number 0 cs with
      | Some n => Ok (Z.of_N n)
      | None => Raise ValueError
      end
  | None => Raise ValueError
  end.

(** [if isinstance(grade, str) and grade.isdigit(): grade = int(grade)] *)
Definition normalize_grade (grade : scalar) : res scalar :=
  match grade with
  | PStr s => if py_isdigit s then PInt <$> py_int s else Ok grade
  | PInt _ => Ok grade
  end.

(** *** CourseService._convert_filters_to_api_params *)

(** [for x in xs: if x in table: ... = table[x]; break] *)
Fixpoint first_in_table (table : gmap scalar scalar) (xs : list scalar)
  : option scalar :=
  match xs with
  | [] => None
  | x :: xs' =>
    match table !! x with
    | Some v => Some v
    | None => first_in_table table xs'
    end
  end.

(** The loop over the grades, which converts before it looks up. *)
Fixpoint first_grade_in_table (grades : list scalar) : res (option scalar) :=
  match grades with
  | [] => Ok None
  | grade :: grades' =>
    g ← normalize_grade grade;
    match GRADE_TO_ID !! g with
    | Some v => Ok (Some v)
    | None => first_grade_in_table grades'
    end
  end.

(** [api_params[key] = v] when the loop found a value. *)
Definition set_param (key : string) (found : option scalar)
    (params : api_params) : api_params :=
  match found with
  | Some v => <[key := v]> params
  | None => params
  end.

Definition _convert_filters_to_api_params (filters : filter_bag)
  : res api_params :=
  let api_params0 : api_params := ∅ in
  let api_params1 :=
    if truthy (filters !! "subjects")
    then set_param "category_id"
           (first_in_table SUBJECT_TO_CATEGORY (default [] (filters !! "subjects")))
           api_params0
    else api_params0 in
  let api_params2 :=
    if truthy (filters !! "difficulty")
    then set_param "level"
           (first_in_table DIFFICULTY_TO_LEVEL (default [] (filters !! "difficulty")))
           api_params1
    else api_params1 in
  if truthy (filters !! "grade")
  then
    found ← first_grade_in_table (default [] (filters !! "grade"));
    Ok (set_param "grade_id" found api_params2)
  else Ok api_params2.

(** *** CourseService._filter_courses_locally *)

Definition subjects_match (filters : filter_bag) (c : course) : res bool :=
  if truthy (filters !! "subjects")
  then
    let course_subjects := default (PList []) (c !! "subjects") in
    py_any (λ subject, py_in subject course_subjects)
           (default [] (filters !! "subjects"))
  else Ok true.

(** [api_to_bot_difficulty.get(course_difficulty, course_difficulty)];
    a list is not hashable and cannot be looked up. *)
Definition bot_difficulty (course_difficulty : pyval) : res pyval :=
  match course_difficulty with
  | PAtom a =>
    Ok (PAtom (default a (dict_inverse DIFFICULTY_TO_LEVEL_items !! a)))
  | PNone => Ok PNone
  | PList _ => Raise TypeError
  end.

(** [v in s] for a set [s] of strings and integers. *)
Definition in_set (v : pyval) (s : list scalar) : res bool :=
  match v with
  | PAtom a => Ok (bool_decide (a ∈ s))
  | PNone => Ok false
  | PList _ => Raise TypeError
  end.

Definition difficulty_match (filters : filter_bag) (c : course) : res bool :=
  if truthy (filters !! "difficulty")
  then
    let course_difficulty := default (PAtom (PStr "")) (c !! "difficulty") in
    bot ← bot_difficulty course_difficulty;
    in_set bot (default [] (filters !! "difficulty"))
  else Ok true.

(** The loop that fills [user_grades]. *)
Fixpoint collect_user_grades (grades : list scalar) (user_grades : list Z)
  : res (list Z) :=
  match grades with
  | [] => Ok user_grades
  | PStr s :: grades' =>
    if py_isdigit s
    then n ← py_int s; collect_user_grades grades' (set_add n user_grades)
    else collect_user_grades grades' user_grades
  | PInt n :: grades' =>
    collect_user_grades grades' (set_add n user_grades)
  end.

Definition grade_match (filters : filter_bag) (c : course) : res bool :=
  if truthy (filters !! "grade")
  then
    let course_grades := default (PList []) (c !! "grade") in
    user_grades ← collect_user_grades (default [] (filters !! "grade")) [];
    py_any (λ grade, py_in (PInt grade) course_grades) user_grades
  else Ok true.

(** The body of the loop up to the test that decides on a course. *)
Definition course_matches (filters : filter_bag) (c : course) : res bool :=
  sm ← subjects_match filters c;
  dm ← difficulty_match filters c;
  gm ← grade_match filters c;
  Ok (sm && dm && gm).

Fixpoint filter_loop (filters : filter_bag) (courses results : list course)
  : res (list course) :=
  match courses with
  | [] => Ok results
  | c :: courses' =>
    keep ← course_matches filters c;
    filter_loop filters courses' (if keep : bool then results ++ [c] else results)
  end.

Definition _filter_courses_locally (courses : list course)
    (filters : filter_bag) : res (list course) :=
  match courses with
  | [] => Ok []
  | _ => filter_loop filters courses []
  end.

(** *** The service and its collaborators *)

(** [data.mock_courses.COURSES], [None] when the import fails. *)
Variable COURSES : option (list course).

(** [try: from data.mock_courses import COURSES; return
    self._filter_courses_locally(COURSES, filters)
    except ImportError: return []] *)
Definition _get_fallback_courses (filters : filter_bag) : res (list course) :=
  match COURSES with
  | None => Ok []
  | Some courses =>
    match _filter_courses_locally courses filters with
    | Raise ImportError => Ok []
    | r => r
    end
  end.

(** The API client of [api/client.py]: what each of its two requests
    answers, a value or an exception. *)
Record CourseAPIClient : Type := {
  get_courses : api_params → res (gmap string (list course));
  get_all_courses : res (list course)
}.

(** [self.api_client] is [None] when the constructor failed. *)
Record CourseService : Type := {
  api_client : option CourseAPIClient
}.

Definition _is_api_available (self : CourseService) : bool :=
  match api_client self with
  | Some _ => true
  | None => false
  end.

(** The requests an operation sends, in order. *)
Inductive api_call : Type :=
  | GetCourses (params : api_params)
  | GetAllCourses.

(** An operation's outcome: the requests it sent and what it returns
    or raises. *)
Definition outcome (A : Type) : Type := list api_call * res A.

(** [result['courses']] *)
Definition getitem_courses (result : gmap string (list course))
  : res (list course) :=
  match result !! "courses" with
  | Some courses => Ok courses
  | None => Raise KeyError
  end.

(** The body of the [try] of [filter_courses]. *)
Definition filter_courses_try (client : CourseAPIClient)
    (filters : filter_bag) : outcome (list course) :=
  match _convert_filters_to_api_params filters with
  | Raise e => ([], Raise e)
  | Ok params =>
    if bool_decide (params = ∅)
    then
      ([GetAllCourses],
       courses ← get_all_courses client;
       _filter_courses_locally courses filters)
    else
      ([GetCourses params],
       result ← get_courses client params;
       courses ← getitem_courses result;
       _filter_courses_locally courses filters)
  end.

Definition filter_courses (self : CourseService) (filters : filter_bag)
  : outcome (list course) :=
  match api_client self with
  | None => ([], _get_fallback_courses filters)
  | Some client =>
    let '(calls, r) := filter_courses_try client filters in
    match r with
    | Ok filtered_courses => (calls, Ok filtered_courses)
    | Raise APIError => (calls, _get_fallback_courses filters)
    | Raise _ => (calls, _get_fallback_courses filters)
    end
  end.

(** [for course in all_courses: if course.get('id') == course_id:
    return course] and [return None] after the loop. *)
Fixpoint scan_for_id (course_id : Z) (all_courses : list course)
  : option course :=
  match all_courses with
  | [] => None
  | c :: rest =>
    if bool_decide (default PNone (c !! "id") = PAtom (PInt course_id))
    then Some c
    else scan_for_id course_id rest
  end.

Definition get_course_by_id (self : CourseService) (course_id : Z)
  : outcome (option course) :=
  match api_client self with
  | None => ([], Ok None)
  | Some client =>
    ([GetAllCourses],
     match get_all_courses client with
     | Ok all_courses => Ok (scan_for_id course_id all_courses)
     | Raise _ => Ok None
     end)
  end.

End Interpreter.

(** ** The same two methods over a store of objects

    Sets, lists and dicts are objects that a method can change in place
    ([append], [add], item assignment).  To see which objects the two
    methods change, they are written a second time over an explicit
    store: a value is an immutable scalar or a reference, and every
    list, set and dict lives in the store under its reference. *)

Module Store.

Definition loc : Type := positive.

Inductive val : Type :=
  | VNone
  | VAtom (a : scalar)
  | VRef (l : loc).

Inductive obj : Type :=
  | OList (items : list val)
  | OSet (members : list scalar)
  | ODict (entries : gmap scalar val).

Global Instance val_eq_dec : EqDecision val.
Proof. solve_decision. Defined.

Abbreviation heap := (gmap loc obj).

(** A computation reads and updates the store; an exception leaves
    the store as it is at the point where it is raised. *)
Definition M (A : Type) : Type := heap → res A * heap.

Global Instance M_ret : MRet M := λ A v h, (Ok v, h).
Global Instance M_bind : MBind M := λ A B f m h,
  match m h with
  | (Ok v, h') => f v h'
  | (Raise e, h') => (Raise e, h')
  end.

Definition raise {A} (e : exn) : M A := λ h, (Raise e, h).

(** A new object, under a reference that is not in use. *)
Definition alloc (o : obj) : M val := λ h,
  let l := fresh (dom h) in (Ok (VRef l), <[l := o]> h).

(** The object a value refers to; a scalar or [None] is no object
    with items, which the callers turn into the error Python raises. *)
Definition deref (v : val) : M (option obj) := λ h,
  match v with
  | VRef l => (Ok (h !! l), h)
  | _ => (Ok None, h)
  end.

Definition store (v : val) (o : obj) : M unit := λ h,
  match v with
  | VRef l => (Ok (), <[l := o]> h)
  | _ => (Raise TypeError, h)
  end.

(** [hash(k)]: the key a value is looked up under.  [None] hashes but
    is no key of a dict or member of a set of this program; a list, a
    set or a dict does not hash. *)
Definition hashed (k : val) : M (option scalar) :=
  match k with
  | VAtom a => mret (Some a)
  | VNone => mret None
  | VRef _ => raise TypeError
  end.

(** [d.get(k, default)] *)
Definition dict_get (d k dflt : val) : M val :=
  o ← deref d;
  match o with
  | Some (ODict entries) =>
    key ← hashed k;
    mret (default dflt (key ≫= λ a, entries !! a))
  | _ => raise AttributeError
  end.

(** [d[k]] for a string [k]. *)
Definition dict_getitem (d : val) (k : string) : M val :=
  o ← deref d;
  match o with
  | Some (ODict entries) =>
    match entries !! PStr k with
    | Some v => mret v
    | None => raise KeyError
    end
  | _ => raise TypeError
  end.

(** [k in table] and [table[k]] for one of the tables of settings.py. *)
Definition table_lookup (table : gmap scalar scalar) (k : val)
  : M (option scalar) :=
  key ← hashed k;
  mret (key ≫= λ a, table !! a).

(** [d[k] = v] for a string [k]. *)
Definition dict_setitem (d : val) (k : string) (v : val) : M unit :=
  o ← deref d;
  match o with
  | Some (ODict entries) => store d (ODict (<[PStr k := v]> entries))
  | _ => raise TypeError
  end.

(** [l.append(v)] *)
Definition list_append (l : val) (v : val) : M unit :=
  o ← deref l;
  match o with
  | Some (OList items) => store l (OList (items ++ [v]))
  | _ => raise AttributeError
  end.

(** [s.add(a)] *)
Definition set_add_member (s : val) (a : scalar) : M unit :=
  o ← deref s;
  match o with
  | Some (OSet members) =>
    store s (OSet (if bool_decide (a ∈ members) then members
                   else members ++ [a]))
  | _ => raise AttributeError
  end.

(** The truth value of [v] in a condition. *)
Definition truth (v : val) : M bool :=
  match v with
  | VNone => mret false
  | VAtom (PInt n) => mret (bool_decide (n ≠ 0%Z))
  | VAtom (PStr s) => mret (bool_decide (s ≠ ""))
  | VRef _ =>
    o ← deref v;
    match o with
    | Some (OList items) => mret (bool_decide (items ≠ []))
    | Some (OSet members) => mret (bool_decide (members ≠ []))
    | Some (ODict entries) => mret (bool_decide (entries ≠ ∅))
    | None => raise TypeError
    end
  end.

(** The values [for x in v] goes through, for a list or a set, the
    containers this program iterates. *)
Definition iterate (v : val) : M (list val) :=
  o ← deref v;
  match o with
  | Some (OList items) => mret items
  | Some (OSet members) => mret (VAtom <$> members)
  | _ => raise TypeError
  end.

(** [x in v]: a comparison with the items of a list, a lookup of the
    hash of [x] in a set or a dict, a substring test in a string. *)
Definition contains (v x : val) : M bool :=
  match v with
  | VNone => raise TypeError
  | VAtom (PInt _) => raise TypeError
  | VAtom (PStr s) =>
    match x with
    | VAtom (PStr t) => mret (is_substring t s)
    | _ => raise TypeError
    end
  | VRef _ =>
    o ← deref v;
    match o with
    | Some (OList items) => mret (bool_decide (x ∈ items))
    | Some (OSet members) =>
      key ← hashed x;
      mret (match key with
            | Some a => bool_decide (a ∈ members)
            | None => false
            end)
    | Some (ODict entries) =>
      key ← hashed x;
      mret (bool_decide (is_Some (key ≫= λ a, entries !! a)))
    | None => raise TypeError
    end
  end.

(** [any(p(x) for x in xs)] *)
Fixpoint any {A} (p : A → M bool) (xs : list A) : M bool :=
  match xs with
  | [] => mret false
  | x :: xs' => b ← p x; if b : bool then mret true else any p xs'
  end.

(** [for x in xs: body(x)] *)
Fixpoint for_each {A} (body : A → M unit) (xs : list A) : M unit :=
  match xs with
  | [] => mret ()
  | x :: xs' => body x;; for_each body xs'
  end.

(** [for x in xs: if x in table: d[key] = table[x]; break] *)
Fixpoint assign_first (table : gmap scalar scalar) (d : val) (key : string)
    (xs : list val) : M unit :=
  match xs with
  | [] => mret ()
  | x :: xs' =>
    found ← table_lookup table x;
    match found with
    | Some v => dict_setitem d key (VAtom v)
    | None => assign_first table d key xs'
    end
  end.

(** A call that does not touch the store. *)
Definition lift {A} (r : res A) : M A := λ h, (r, h).

(** The methods of [CourseService]. *)
Module Methods.
Section Interpreter.

Variable int_max_str_digits : N.

(** [if isinstance(grade, str) and grade.isdigit(): grade = int(grade)] *)
Definition normalize (grade : val) : M val :=
  match grade with
  | VAtom a => lift (VAtom <$> normalize_grade int_max_str_digits a)
  | _ => mret grade
  end.

(** The loop over the grades of the translator. *)
Fixpoint assign_first_grade (d : val) (xs : list val) : M unit :=
  match xs with
  | [] => mret ()
  | grade :: xs' =>
    g ← normalize grade;
    found ← table_lookup GRADE_TO_ID g;
    match found with
    | Some v => dict_setitem d "grade_id" (VAtom v)
    | None => assign_first_grade d xs'
    end
  end.

Definition _convert_filters_to_api_params (filters : val) : M val :=
  api_params ← alloc (ODict ∅);
  s ← dict_get filters (VAtom (PStr "subjects")) VNone;
  b ← truth s;
  (if b : bool then
     subjects ← dict_getitem filters "subjects";
     xs ← iterate subjects;
     assign_first SUBJECT_TO_CATEGORY api_params "category_id" xs
   else mret ());;
  d ← dict_get filters (VAtom (PStr "difficulty")) VNone;
  b ← truth d;
  (if b : bool then
     difficulties ← dict_getitem filters "difficulty";
     xs ← iterate difficulties;
     assign_first DIFFICULTY_TO_LEVEL api_params "level" xs
   else mret ());;
  g ← dict_get filters (VAtom (PStr "grade")) VNone;
  b ← truth g;
  (if b : bool then
     grades ← dict_getitem filters "grade";
     xs ← iterate grades;
     assign_first_grade api_params xs
   else mret ());;
  mret api_params.

Definition subjects_match (filters course : val) : M bool :=
  s ← dict_get filters (VAtom (PStr "subjects")) VNone;
  b ← truth s;
  if b : bool then
    dflt ← alloc (OList []);
    course_subjects ← dict_get course (VAtom (PStr "subjects")) dflt;
    subjects ← dict_getitem filters "subjects";
    xs ← iterate subjects;
    any (λ subject, contains course_subjects subject) xs
  else mret true.

Definition difficulty_match (filters course : val) : M bool :=
  d ← dict_get filters (VAtom (PStr "difficulty")) VNone;
  b ← truth d;
  if b : bool then
    course_difficulty ←
      dict_get course (VAtom (PStr "difficulty")) (VAtom (PStr ""));
    api_to_bot_difficulty ←
      alloc (ODict (VAtom <$> dict_inverse DIFFICULTY_TO_LEVEL_items));
    bot_difficulty ←
      dict_get api_to_bot_difficulty course_difficulty course_difficulty;
    difficulties ← dict_getitem filters "difficulty";
    contains difficulties bot_difficulty
  else mret true.

(** The body of the loop that fills [user_grades]. *)
Definition add_user_grade (user_grades grade : val) : M unit :=
  match grade with
  | VAtom (PStr s) =>
    if py_isdigit s
    then n ← lift (py_int int_max_str_digits s);
         set_add_member user_grades (PInt n)
    else mret ()
  | VAtom (PInt n) => set_add_member user_grades (PInt n)
  | _ => mret ()
  end.

Definition grade_match (filters course : val) : M bool :=
  g ← dict_get filters (VAtom (PStr "grade")) VNone;
  b ← truth g;
  if b : bool then
    dflt ← alloc (OList []);
    course_grades ← dict_get course (VAtom (PStr "grade")) dflt;
    user_grades ← alloc (OSet []);
    grades ← dict_getitem filters "grade";
    xs ← iterate grades;
    for_each (add_user_grade user_grades) xs;;
    ys ← iterate user_grades;
    any (λ grade, contains course_grades grade) ys
  else mret true.

(** The body of the loop over the courses. *)
Definition visit_course (filters results course : val) : M unit :=
  sm ← subjects_match filters course;
  dm ← difficulty_match filters course;
  gm ← grade_match filters course;
  if sm && dm && gm then list_append results course else mret ().

Definition _filter_courses_locally (courses filters : val) : M val :=
  b ← truth courses;
  if negb b then alloc (OList [])
  else
    results ← alloc (OList []);
    cs ← iterate courses;
    for_each (visit_course filters results) cs;;
    mret results.

End Interpreter.
End Methods.

(** *** What a computation leaves unchanged *)

(** [m] preserves every object of [pre], and [Q] holds of what it
    returns. *)
Definition keeps {A} (pre : heap) (m : M A) (Q : A → Prop) : Prop :=
  ∀ h, pre ⊆ h → pre ⊆ (m h).2 ∧ ∀ x, (m h).1 = Ok x → Q x.

(** A reference to an object that [pre] does not hold. *)
Definition local (pre : heap) (v : val) : Prop :=
  ∃ l, v = VRef l ∧ pre !! l = None.

Definition any_result {A} : A → Prop := λ _, True.

(** *** How the values of the functional model lie in a store *)

Definition is_set (h : heap) (v : val) (s : list scalar) : Prop :=
  ∃ l, v = VRef l ∧ h !! l = Some (OSet s).

Definition is_field (h : heap) (v : val) (p : pyval) : Prop :=
  match p with
  | PNone => v = VNone
  | PAtom a => v = VAtom a
  | PList items => ∃ l, v = VRef l ∧ h !! l = Some (OList (VAtom <$> items))
  end.

Definition is_bag (h : heap) (v : val) (f : filter_bag) : Prop :=
  ∃ l entries, v = VRef l ∧ h !! l = Some (ODict entries) ∧
    ∀ k : string,
      match f !! k with
      | Some s => ∃ sv, entries !! PStr k = Some sv ∧ is_set h sv s
      | None => entries !! PStr k = None
      end.

Definition is_course (h : heap) (v : val) (c : course) : Prop :=
  ∃ l entries, v = VRef l ∧ h !! l = Some (ODict entries) ∧
    ∀ k : string,
      match c !! k with
      | Some p => ∃ fv, entries !! PStr k = Some fv ∧ is_field h fv p
      | None => entries !! PStr k = None
      end.

Definition is_course_list (h : heap) (v : val) (cs : list course) : Prop :=
  ∃ l vs, v = VRef l ∧ h !! l = Some (OList vs) ∧ Forall2 (is_course h) vs cs.

(** The dict that holds the parameters [p]. *)
Definition params_dict (p : api_params) : obj :=
  ODict (kmap PStr (VAtom <$> p)).

Definition is_params (h : heap) (v : val) (p : api_params) : Prop :=
  ∃ l, v = VRef l ∧ h !! l = Some (params_dict p).

(** What the loop over the courses maintains: the objects of [pre] are
    unchanged and [results] holds references to the records kept. *)
Definition loop_inv (pre : heap) (lr : loc) (h : heap) (kept : list course)
  : Prop :=
  pre ⊆ h ∧ pre !! lr = None ∧
  ∃ rs, h !! lr = Some (OList rs) ∧ Forall2 (is_course pre) rs kept.

End Store.

(** ** The vocabulary of the specification *)

(** A course record of the data model: [subjects] and [grade], where
    present, are lists, and [difficulty] is not a list. *)
Definition is_list_field (c : course) (k : string) : bool :=
  match c !! k with
  | Some (PList _) | None => true
  | Some _ => false
  end.

Definition course_typed (c : course) : bool :=
  is_list_field c "subjects"
  && match c !! "difficulty" with Some (PList _) => false | _ => true end
  && is_list_field c "grade".

(** The members of a dimension of the filter bag; none when the
    dimension is absent. *)
Definition members (filters : filter_bag) (dim : string) : list scalar :=
  default [] (filters !! dim).

(** The items of a list field of a record; none when the field is absent. *)
Definition items (c : course) (k : string) : list scalar :=
  match c !! k with
  | Some (PList l) => l
  | _ => []
  end.

(** The label that the difficulty table maps to an API code: the inverse
    of the table, read off its items. *)
Definition label_of_level (level : scalar) : option scalar :=
  fst <$> List.find (λ kv, bool_decide (kv.2 = level)) DIFFICULTY_TO_LEVEL_items.

Section Specification.

Variable int_max_str_digits : N.

(** What a member of the user's grade set contributes: an integer
    contributes itself, a digit-string the integer it converts to (or
    the error of the conversion), anything else nothing. *)
Definition grade_value (x : scalar) : option (res Z) :=
  match x with
  | PInt n => Some (Ok n)
  | PStr s => if py_isdigit s then Some (py_int int_max_str_digits s) else None
  end.

(** Every digit-string of the set converts. *)
Definition grades_convert (grades : list scalar) : Prop :=
  ∀ x e, x ∈ grades → grade_value x ≠ Some (Raise e).

(** The user's grades normalized to integers. *)
Definition normalized_grades (grades : list scalar) : list Z :=
  omap (λ x, match grade_value x with
             | Some (Ok n) => Some n
             | _ => None
             end) grades.

(** Subject match: some user-selected subject is a member of the
    candidate's subjects list. *)
Definition spec_subject_match (filters : filter_bag) (c : course) : bool :=
  match members filters "subjects" with
  | [] => true
  | selected =>
    existsb (λ s, bool_decide (s ∈ items c "subjects")) selected
  end.

(** Difficulty match: the candidate's difficulty, mapped through the
    inverse of the table and left as it is when the inverse has no
    entry, is a member of the user's difficulty set. *)
Definition spec_difficulty_match (filters : filter_bag) (c : course) : bool :=
  match members filters "difficulty" with
  | [] => true
  | selected =>
    match default (PAtom (PStr "")) (c !! "difficulty") with
    | PAtom raw => bool_decide (default raw (label_of_level raw) ∈ selected)
    | _ => false
    end
  end.

(** Grade match: some candidate grade is in the user's grade set after
    normalization. *)
Definition spec_grade_match (filters : filter_bag) (c : course) : bool :=
  match members filters "grade" with
  | [] => true
  | selected =>
    existsb (λ g, match g with
                  | PInt n => bool_decide (n ∈ normalized_grades selected)
                  | PStr _ => false
                  end)
            (items c "grade")
  end.

Definition spec_keep (filters : filter_bag) (c : course) : bool :=
  spec_subject_match filters c
  && spec_difficulty_match filters c
  && spec_grade_match filters c.

(** Two grade sets whose members contribute the same values. *)
Definition same_grade_values (g g' : list scalar) : Prop :=
  ∀ v, (∃ x, x ∈ g ∧ grade_value x = Some v) ↔
       (∃ x, x ∈ g' ∧ grade_value x = Some v).


End Specification.

Global Arguments normalized_grades : simpl never.
Global Arguments grade_value : simpl never.

(** ** More of settings.py and of the service *)

(** [FILTER_MAPPING]: the API parameter of each dimension. *)
Definition FILTER_MAPPING_items : list (string * string) :=
  [ ("subjects", "category_id");
    ("difficulty", "level");
    ("grade", "grade_id") ].

Definition FILTER_MAPPING : gmap string string := py_dict FILTER_MAPPING_items.

(** Whether the test of the loop of the evaluator holds for a record:
    the three predicates are computed and true. *)
Definition kept (int_max_str_digits : N) (filters : filter_bag) (c : course)
  : bool :=
  match course_matches int_max_str_digits filters c with
  | Ok true => true
  | _ => false
  end.

(** [f'] constrains no dimension more than [f]: in every dimension [f']
    is unconstrained or holds every member of a constrained [f]. *)
Definition widens (f f' : filter_bag) : Prop :=
  ∀ dim, members f' dim = [] ∨
         (members f dim ≠ [] ∧ ∀ x, x ∈ members f dim → x ∈ members f' dim).

(** What the request that [filter_courses] sends for the parameters
    [params] answers: the list of all courses when there are no
    parameters, the [courses] entry of the envelope otherwise. *)
Definition api_answer (client : CourseAPIClient) (params : api_params)
  : res (list course) :=
  if bool_decide (params = ∅)
  then get_all_courses client
  else result ← get_courses client params; getitem_courses result.

Definition api_request (params : api_params) : api_call :=
  if bool_decide (params = ∅) then GetAllCourses else GetCourses params.

(** ** settings.py: text and the environment *)

(** [Py_UNICODE_ISSPACE]: the characters that [str.strip] removes and
    that [int] reads as a space when they are not ASCII. *)
Definition space_points : list N :=
  [ 9; 10; 11; 12; 13; 28; 29; 30; 31; 32; 133; 160; 5760;
    8192; 8193; 8194; 8195; 8196; 8197; 8198; 8199; 8200; 8201; 8202;
    8232; 8233; 8239; 8287; 12288 ]%N.

Definition is_space (c : N) : bool := bool_decide (c ∈ space_points).

(** [Py_ISSPACE]: the ASCII white space that [int] skips. *)
Definition is_ascii_space (c : N) : bool :=
  ((9 <=? c) && (c <=? 13) || (c =? 32))%N.

(** [_PyUnicode_TransformDecimalAndSpaceToASCII], character by character:
    ASCII stays, another space becomes a blank, a decimal digit its ASCII
    digit and anything else a question mark. *)
Definition to_ascii (c : N) : N :=
  if (c <? 127)%N then c
  else if is_space c then 32%N
  else match Unicode.decimal_value c with
       | Some d => (48 + d)%N
       | None => 63%N
       end.

Fixpoint skip_spaces (cs : list N) : list N :=
  match cs with
  | c :: cs' => if is_ascii_space c then skip_spaces cs' else cs
  | [] => []
  end.

(** The scan of [long_from_string_base] over digits and underscores:
    the value and the number of the digits and the rest of the text;
    [None] for two underscores in a row or an underscore at the end. *)
Fixpoint scan_digits (prev : N) (acc digits : N) (cs : list N)
  : option (N * N * list N) :=
  match cs with
  | c :: cs' =>
    if (c =? 95)%N then
      if (prev =? 95)%N then None else scan_digits c acc digits cs'
    else if (48 <=? c)%N && (c <=? 57)%N then
      scan_digits c (10 * acc + (c - 48))%N (digits + 1)%N cs'
    else if (prev =? 95)%N then None else Some (acc, digits, cs)
  | [] => if (prev =? 95)%N then None else Some (acc, digits, [])
  end.

Section Text.

Variable int_max_str_digits : N.

(** [int(x)] for any text [x], given by its code points: surrounding
    white space, a sign, decimal digits of any script with single
    underscores between them. *)
Definition int_of_text (cs : list N) : res Z :=
  let ascii := skip_spaces (to_ascii <$> cs) in
  let negative := match ascii with c :: _ => (c =? 45)%N | [] => false end in
  let body :=
    match ascii with
    | c :: rest => if (c =? 43)%N || (c =? 45)%N then rest else ascii
    | [] => []
    end in
  let leading_underscore :=
    match body with c :: _ => (c =? 95)%N | [] => false end in
  if leading_underscore then Raise ValueError
  else
    match scan_digits 0 0 0 body with
    | Some (n, digits, rest) =>
      if (digits =? 0)%N then Raise ValueError
      else if (640 <? digits)%N && (0 <? int_max_str_digits)%N
              && (int_max_str_digits <? digits)%N
      then Raise ValueError
      else
        match skip_spaces rest with
        | [] => Ok (if negative then - Z.of_N n else Z.of_N n)%Z
        | _ => Raise ValueError
        end
    | None => Raise ValueError
    end.

Definition py_int_text (x : string) : res Z :=
  match Unicode.utf8_decode x with
  | Some cs => int_of_text cs
  | None => Raise ValueError
  end.

(** [x.strip()] is true in a condition: some character is no space. *)
Definition strip_truthy (x : string) : bool :=
  match Unicode.utf8_decode x with
  | Some cs => existsb (λ c, negb (is_space c)) cs
  | None => true
  end.

(** [s.split(",")] *)
Fixpoint split_commas (s : string) : list string :=
  match s with
  | EmptyString => [""]
  | String a s' =>
    match split_commas s' with
    | x :: xs => if Ascii.eqb a "," then "" :: x :: xs else String a x :: xs
    | [] => [String a ""]
    end
  end.

(** [[int(x) for x in items if x.strip()]] *)
Fixpoint int_items (items : list string) : res (list Z) :=
  match items with
  | [] => Ok []
  | x :: items' =>
    if strip_truthy x
    then n ← py_int_text x; ns ← int_items items'; Ok (n :: ns)
    else int_items items'
  end.

(** The environment after [load_dotenv]. *)
Definition getenv (env : gmap string string) (key : string) : option string :=
  env !! key.

(** [a or b] for a string or [None] and a string. *)
Definition or_else (a : option string) (b : string) : string :=
  match a with
  | Some s => if bool_decide (s = "") then b else s
  | None => b
  end.

(** The attributes of the class [Settings]. *)
Record Settings : Type := {
  BOT_TOKEN : option string;
  WEBHOOK_URL : option string;
  MINI_APP_URL : string;
  USER_DATA_API_ENDPOINT : string;
  API_TOKEN : option string;
  ADMIN_USER_IDS : list Z
}.

(** The body of the class, run when the module is loaded. *)
Definition Settings_class (env : gmap string string) : res Settings :=
  ids ← int_items (split_commas (default "" (getenv env "ADMIN_USER_IDS")));
  Ok {| BOT_TOKEN := getenv env "BOT_TOKEN";
        WEBHOOK_URL := getenv env "WEBHOOK_URL";
        MINI_APP_URL := "https://daha-git.vercel.app/";
        USER_DATA_API_ENDPOINT :=
          or_else (getenv env "USER_DATA_API_ENDPOINT")
                  "http://82.202.138.172:8000/api/users";
        API_TOKEN := getenv env "API_TOKEN";
        ADMIN_USER_IDS := ids |}.

(** [not v] for a string or [None]. *)
Definition unset (v : option string) : bool :=
  match v with
  | Some s => bool_decide (s = "")
  | None => true
  end.

Definition Settings_validate (cls : Settings) : res unit :=
  if unset (BOT_TOKEN cls) then Raise ValueError
  else if unset (WEBHOOK_URL cls) then Raise ValueError
  else if bool_decide (MINI_APP_URL cls = "") then Raise ValueError
  else Ok ().

Record APIConfig : Type := {
  BASE_URL : string;
  API_KEY : string;
  TIMEOUT : Z;
  DEFAULT_LIMIT : Z;
  MAX_LIMIT : Z
}.

(** [APIConfig.__init__] *)
Definition APIConfig_init (env : gmap string string) : res APIConfig :=
  timeout ← py_int_text (default "30" (getenv env "API_TIMEOUT"));
  default_limit ← py_int_text (default "100" (getenv env "API_DEFAULT_LIMIT"));
  max_limit ← py_int_text (default "100" (getenv env "API_MAX_LIMIT"));
  Ok {| BASE_URL := "http://82.202.138.172:8000";
        API_KEY := "key";
        TIMEOUT := timeout;
        DEFAULT_LIMIT := default_limit;
        MAX_LIMIT := max_limit |}.

Definition APIConfig_validate (self : APIConfig) : res bool :=
  if bool_decide (BASE_URL self = "") then Raise ValueError else Ok true.

(** What runs when [settings.py] is loaded, once [load_dotenv] has
    filled the environment: the body of the class [Settings], then
    [settings = Settings()], which has no constructor to fail, then
    [config = APIConfig()]; the table literals that follow cannot raise. *)
Definition settings_module (env : gmap string string)
  : res (Settings * APIConfig) :=
  cls ← Settings_class env;
  config ← APIConfig_init env;
  Ok (cls, config).

(** [CourseService.__init__], for the module's [config] and the
    constructor of the client, which answers with a client or raises. *)
Definition CourseService_init (config : APIConfig)
    (new_client : string → string → res CourseAPIClient) : CourseService :=
  match
    (_ ← APIConfig_validate config;
     new_client (BASE_URL config) (API_KEY config))
  with
  | Ok client => {| api_client := Some client |}
  | Raise _ => {| api_client := None |}
  end.

End Text.

(** [str(z)] for an integer: its decimal digits after a minus sign. *)
Definition py_str (z : Z) : string := NilZero.string_of_int (Z.to_int z).

(** [",".join(xs)] *)
Fixpoint join_commas (xs : list string) : string :=
  match xs with
  | [] => ""
  | [x] => x
  | x :: xs' => x ++ String "," (join_commas xs')
  end.

(** The code points of a decimal numeral and the number it writes after
    the digits already read, for the proofs about [py_str]. *)
Fixpoint uint_codes (d : Decimal.uint) : list N :=
  match d with
  | Decimal.Nil => []
  | Decimal.D0 d => 48 :: uint_codes d
  | Decimal.D1 d => 49 :: uint_codes d
  | Decimal.D2 d => 50 :: uint_codes d
  | Decimal.D3 d => 51 :: uint_codes d
  | Decimal.D4 d => 52 :: uint_codes d
  | Decimal.D5 d => 53 :: uint_codes d
  | Decimal.D6 d => 54 :: uint_codes d
  | Decimal.D7 d => 55 :: uint_codes d
  | Decimal.D8 d => 56 :: uint_codes d
  | Decimal.D9 d => 57 :: uint_codes d
  end%N.

Fixpoint uint_value (acc : N) (d : Decimal.uint) : N :=
  match d with
  | Decimal.Nil => acc
  | Decimal.D0 d => uint_value (10 * acc) d
  | Decimal.D1 d => uint_value (10 * acc + 1) d
  | Decimal.D2 d => uint_value (10 * acc + 2) d
  | Decimal.D3 d => uint_value (10 * acc + 3) d
  | Decimal.D4 d => uint_value (10 * acc + 4) d
  | Decimal.D5 d => uint_value (10 * acc + 5) d
  | Decimal.D6 d => uint_value (10 * acc + 6) d
  | Decimal.D7 d => uint_value (10 * acc + 7) d
  | Decimal.D8 d => uint_value (10 * acc + 8) d
  | Decimal.D9 d => uint_value (10 * acc + 9) d
  end%N.

Fixpoint comma_free (s : string) : bool :=
  match s with
  | EmptyString => true
  | String a s' => negb (Ascii.eqb a ",") && comma_free s'
  end.

(** ** Sample data *)

(** A record and a filter bag written as dict literals. *)
Definition record (fields : list (string * pyval)) : course := py_dict fields.
Definition bag (dims : list (string * list scalar)) : filter_bag := py_dict dims.

Definition course_robotics : course :=
  record [ ("id", PAtom (PInt 1));
           ("subjects", PList [PStr "Робототехника"; PStr "Программирование"]);
           ("difficulty", PAtom (PStr "BEGINNER"));
           ("grade", PList [PInt 7; PInt 8; PInt 9]) ].

Definition course_science : course :=
  record [ ("id", PAtom (PInt 2));
           ("subjects", PList [PStr "Наука"]);
           ("difficulty", PAtom (PStr "INTERMEDIATE"));
           ("grade", PList [PInt 9; PInt 10; PInt 11]) ].

(** A record that has an id and nothing else. *)
Definition course_bare : course := record [ ("id", PAtom (PInt 3)) ].

(** The grade set [{"²"}]: the superscript two is a digit for
    [str.isdigit] and no decimal digit for [int]. *)
Definition superscript_two_bag : filter_bag := bag [ ("grade", [PStr "²"]) ].

(** A store that holds the filter bag [{"grade": {"9"}}] at 1 and a list
    with one record [{"id": 1, "grade": [9, 10]}] at 3. *)
Definition sample_store : gmap Store.loc Store.obj :=
  py_dict
    [ (1%positive, Store.ODict (py_dict [ (PStr "grade", Store.VRef 2%positive) ]));
      (2%positive, Store.OSet [PStr "9"]);
      (3%positive, Store.OList [Store.VRef 4%positive]);
      (4%positive, Store.ODict (py_dict [ (PStr "id", Store.VAtom (PInt 1));
                                          (PStr "grade", Store.VRef 5%positive) ]));
      (5%positive, Store.OList [Store.VAtom (PInt 9); Store.VAtom (PInt 10)]) ].

(** A filter bag that constrains the three dimensions. *)
Definition full_bag : filter_bag :=
  bag [ ("subjects", [PStr "Наука"]);
        ("difficulty", [PStr "Средний"]);
        ("grade", [PStr "9"]) ].

(** The default limit of CPython 3.11 on the digits of a converted string. *)
Definition cpython_default_limit : N := 4300.

(** A service whose client failed to initialize. *)
Definition degraded_service : CourseService := {| api_client := None |}.

(** A client whose requests fail with an API error. *)
Definition failing_client : CourseAPIClient :=
  {| get_courses := λ _, Raise APIError; get_all_courses := Raise APIError |}.

(** A client that answers every request with the two sample records. *)
Definition sample_client : CourseAPIClient :=
  {| get_courses := λ _, Ok {["courses" := [course_robotics; course_science]]};
     get_all_courses := Ok [course_robotics; course_science] |}.

(** ** More sample data *)

(** An environment with the two mandatory settings and three admins. *)
Definition sample_env : gmap string string :=
  py_dict [ ("BOT_TOKEN", "123:abc");
            ("WEBHOOK_URL", "https://example.org/hook");
            ("ADMIN_USER_IDS", "12,-7,0") ].

(** The configuration [APIConfig()] builds in an empty environment. *)
Definition sample_config : APIConfig :=
  {| BASE_URL := "http://82.202.138.172:8000";
     API_KEY := "key";
     TIMEOUT := 30;
     DEFAULT_LIMIT := 100;
     MAX_LIMIT := 100 |}.

(** A constructor of the client that answers with the sample client, and
    one that raises. *)
Definition reachable_client (base_url api_key : string) : res CourseAPIClient :=
  Ok sample_client.
Definition unreachable_client (base_url api_key : string)
  : res CourseAPIClient :=
  Raise (OtherException "ConnectionError").

(** Filter bags over the sample records. *)
Definition science_bag : filter_bag := bag [ ("subjects", [PStr "Наука"]) ].
Definition science_or_robotics_bag : filter_bag :=
  bag [ ("subjects", [PStr "Наука"; PStr "Робототехника"]) ].
Definition grade_seven_bag : filter_bag := bag [ ("grade", [PStr "7"]) ].
Definition chess_bag : filter_bag := bag [ ("subjects", [PStr "Шахматы"]) ].

(** * Properties *)

#[local] Set Warnings "-clear-no-such-hyp".

(** ** The model at work *)

Example isdigit_samples :
  py_isdigit "9" = true ∧ py_isdigit "10" = true ∧ py_isdigit "٩" = true ∧
  py_isdigit "²" = true ∧ py_isdigit "" = false ∧ py_isdigit "-5" = false ∧
  py_isdigit "abc" = false ∧ py_isdigit "9 " = false.
Proof. repeat split; reflexivity. Qed.

Example int_samples :
  py_int cpython_default_limit "9" = Ok 9%Z ∧
  py_int cpython_default_limit "007" = Ok 7%Z ∧
  py_int cpython_default_limit "٩" = Ok 9%Z ∧
  py_int cpython_default_limit "²" = Raise ValueError.
Proof. repeat split; reflexivity. Qed.

(** The translator keeps the first member each table knows. *)
Example translate_sample :
  _convert_filters_to_api_params cpython_default_limit
    (bag [ ("subjects", [PStr "Шахматы"; PStr "Наука"; PStr "Робототехника"]);
           ("difficulty", [PStr "Средний"]);
           ("grade", [PStr "6"; PStr "9"; PInt 10]) ]) =
  Ok (py_dict [ ("category_id", PInt 7); ("level", PStr "INTERMEDIATE");
                ("grade_id", PInt 3) ]).
Proof. reflexivity. Qed.

(** A record whose difficulty is the code [INTERMEDIATE] matches the
    label the table maps to that code. *)
Example difficulty_round_trip :
  _filter_courses_locally cpython_default_limit
    [course_robotics; course_science] (bag [("difficulty", [PStr "Средний"])]) =
  Ok [course_science].
Proof. reflexivity. Qed.

Example evaluate_sample :
  _filter_courses_locally cpython_default_limit
    [course_robotics; course_bare; course_science]
    (bag [ ("subjects", [PStr "Программирование"; PStr "Наука"]);
           ("grade", [PStr "7"; PInt 11]) ]) =
  Ok [course_robotics; course_science].
Proof. reflexivity. Qed.

Example online_fallback_scenario :
  filter_courses cpython_default_limit (Some [course_science])
    {| api_client := Some failing_client |} ∅ =
  ([GetAllCourses], Ok [course_science]).
Proof. reflexivity. Qed.

Example online_scenario :
  filter_courses cpython_default_limit None
    {| api_client := Some sample_client |} (bag [("grade", [PStr "7"])]) =
  ([GetCourses {["grade_id" := PInt 1]}], Ok [course_robotics]).
Proof. reflexivity. Qed.

Example get_course_by_id_scenario :
  get_course_by_id {| api_client := Some sample_client |} 2 =
    ([GetAllCourses], Ok (Some course_science)) ∧
  get_course_by_id {| api_client := Some sample_client |} 99 =
    ([GetAllCourses], Ok None).
Proof. split; reflexivity. Qed.

(** Over the store the evaluator returns a new list that holds the
    reference to the record it keeps, and the translator a new dict. *)
Example store_evaluate_sample :
  ∃ l h,
    Store.Methods._filter_courses_locally cpython_default_limit
      (Store.VRef 3%positive) (Store.VRef 1%positive) sample_store =
      (Ok (Store.VRef l), h) ∧
    sample_store !! l = None ∧
    h !! l = Some (Store.OList [Store.VRef 4%positive]).
Proof. eexists _, _. split; [reflexivity|]. split; reflexivity. Qed.

Example store_translate_sample :
  ∃ l h,
    Store.Methods._convert_filters_to_api_params cpython_default_limit
      (Store.VRef 1%positive) sample_store = (Ok (Store.VRef l), h) ∧
    sample_store !! l = None ∧
    h !! l = Some (Store.ODict {[PStr "grade_id" := Store.VAtom (PInt 3)]}).
Proof. eexists _, _. split; [reflexivity|]. split; reflexivity. Qed.

(** Loading [settings.py]: a malformed admin id or API setting stops it. *)
Example settings_module_samples :
  is_Ok (settings_module cpython_default_limit sample_env) ∧
  settings_module cpython_default_limit (<["API_TIMEOUT" := "abc"]> sample_env)
    = Raise ValueError ∧
  settings_module cpython_default_limit (<["ADMIN_USER_IDS" := "12,x"]> sample_env)
    = Raise ValueError.
Proof. split; [by eexists|]. split; reflexivity. Qed.

(** ** Auxiliary facts *)

Lemma bind_Ok {A B} (r : res A) (k : A → res B) v :
  r = Ok v → r ≫= k = k v.
Proof. by intros ->. Qed.

Lemma bind_Raise {A B} (r : res A) (k : A → res B) e :
  r = Raise e → r ≫= k = Raise e.
Proof. by intros ->. Qed.

Lemma py_any_pure {A} (p : A → res bool) (q : A → bool) (l : list A) :
  (∀ x, x ∈ l → p x = Ok (q x)) → py_any p l = Ok (existsb q l).
Proof.
  induction l as [|x l IH]; intros Hp; simpl; [done|].
  rewrite (Hp x) by left. simpl.
  destruct (q x); [done|]. apply IH. intros y Hy. apply Hp. by right.
Qed.

Lemma py_any_nil_or_raise {A} (p : A → res bool) e (l : list A) :
  (∀ x, p x = Raise e) → py_any p l = match l with [] => Ok false | _ => Raise e end.
Proof. intros Hp. destruct l as [|x l]; simpl; [done|]. by rewrite Hp. Qed.

Lemma existsb_elem_of {A} (q : A → bool) (l : list A) :
  existsb q l = true ↔ ∃ x, x ∈ l ∧ q x = true.
Proof.
  rewrite existsb_exists. split; intros (x & H1 & H2); exists x; split; try done;
    by apply list_elem_of_In.
Qed.

Lemma existsb_false {A} (q : A → bool) (l : list A) :
  (∀ x, x ∈ l → q x = false) → existsb q l = false.
Proof.
  intros Hq. apply not_true_is_false. rewrite existsb_elem_of.
  intros (x & Hx & Hqx). by rewrite (Hq x Hx) in Hqx.
Qed.

Lemma existsb_same_members {A} (q : A → bool) (l l' : list A) :
  (∀ x, x ∈ l ↔ x ∈ l') → existsb q l = existsb q l'.
Proof.
  intros Hm. apply eq_true_iff_eq. rewrite !existsb_elem_of.
  split; intros (x & Hx & Hq); exists x; split; try done; by apply Hm.
Qed.

Section EvaluatorFacts.
Variable lim : N.
Implicit Types (f : gmap string (list scalar)) (c : gmap string pyval).

Lemma py_int_raise s e : py_int lim s = Raise e → e = ValueError.
Proof.
  unfold py_int. repeat case_match; congruence.
Qed.

Lemma grade_value_raise x e : grade_value lim x = Some (Raise e) → e = ValueError.
Proof.
  destruct x as [n|s]; unfold grade_value; [done|].
  destruct (py_isdigit s); [|done]. intros [= Hi]. by apply py_int_raise in Hi.
Qed.

Lemma elem_of_set_add n m s : n ∈ set_add m s ↔ n = m ∨ n ∈ s.
Proof.
  unfold set_add. case_bool_decide; [naive_solver|].
  rewrite elem_of_app, list_elem_of_singleton. naive_solver.
Qed.

Lemma elem_of_normalized_grades n grades :
  n ∈ normalized_grades lim grades ↔ ∃ x, x ∈ grades ∧ grade_value lim x = Some (Ok n).
Proof.
  unfold normalized_grades. rewrite list_elem_of_omap.
  split; intros (x & Hx & H); exists x; split; try done.
  - repeat case_match; congruence.
  - by rewrite H.
Qed.

Lemma elem_of_normalized_grades_cons n x grades :
  n ∈ normalized_grades lim (x :: grades) ↔
  grade_value lim x = Some (Ok n) ∨ n ∈ normalized_grades lim grades.
Proof.
  rewrite !elem_of_normalized_grades. setoid_rewrite elem_of_cons.
  split.
  - intros (y & [->|Hy] & Hv); [by left|]. right. by exists y.
  - intros [Hv|(y & Hy & Hv)]; [exists x|exists y]; auto.
Qed.

Lemma collect_ok grades acc :
  grades_convert lim grades →
  ∃ ug, collect_user_grades lim grades acc = Ok ug ∧
        ∀ n, n ∈ ug ↔ n ∈ acc ∨ n ∈ normalized_grades lim grades.
Proof.
  revert acc. induction grades as [|x grades IH]; intros acc Hc; simpl.
  - exists acc. split; [done|]. intros n. unfold normalized_grades. simpl.
    rewrite elem_of_nil. tauto.
  - assert (grades_convert lim grades) as Hc'.
    { intros y e Hy. apply Hc. by right. }
    assert (∀ e, grade_value lim x ≠ Some (Raise e)) as Hx.
    { intros e. apply Hc. by left. }
    destruct x as [m|s]; unfold grade_value in Hx.
    + destruct (IH (set_add m acc) Hc') as (ug & -> & Hug).
      exists ug. split; [done|]. intros n.
      rewrite Hug, elem_of_set_add, elem_of_normalized_grades_cons.
      unfold grade_value.
      split; [intros [[->|?]|?]|intros [?|[[= ->]|?]]]; auto.
    + destruct (py_isdigit s) eqn:Hd.
      * destruct (py_int lim s) as [m|e] eqn:Hi; [|by destruct (Hx e)].
        simpl. destruct (IH (set_add m acc) Hc') as (ug & -> & Hug).
        exists ug. split; [done|]. intros n.
        rewrite Hug, elem_of_set_add, elem_of_normalized_grades_cons.
        unfold grade_value. rewrite Hd, Hi.
        split; [intros [[->|?]|?]|intros [?|[[= ->]|?]]]; auto.
      * destruct (IH acc Hc') as (ug & -> & Hug).
        exists ug. split; [done|]. intros n.
        rewrite Hug, elem_of_normalized_grades_cons.
        unfold grade_value. rewrite Hd.
        split; [intros [?|?]|intros [?|[?|?]]]; auto. done.
Qed.

Lemma collect_raise grades acc x e :
  x ∈ grades → grade_value lim x = Some (Raise e) →
  collect_user_grades lim grades acc = Raise ValueError.
Proof.
  revert acc. induction grades as [|y grades IH]; intros acc Hx Hv.
  - by apply elem_of_nil in Hx.
  - apply elem_of_cons in Hx. simpl.
    destruct y as [m|s].
    + destruct Hx as [->|Hx]; [done|]. by apply IH.
    + destruct (py_isdigit s) eqn:Hd.
      * destruct (py_int lim s) as [m|e'] eqn:Hi; simpl.
        -- destruct Hx as [->|Hx]; [|by apply IH].
           unfold grade_value in Hv. rewrite Hd, Hi in Hv. done.
        -- by apply py_int_raise in Hi as ->.
      * destruct Hx as [->|Hx]; [|by apply IH].
        unfold grade_value in Hv. by rewrite Hd in Hv.
Qed.

Lemma grades_convert_dec grades :
  grades_convert lim grades ∨ ∃ x e, x ∈ grades ∧ grade_value lim x = Some (Raise e).
Proof.
  induction grades as [|y grades [IH|(x & e & Hx & Hv)]].
  - left. intros x e Hx. by apply elem_of_nil in Hx.
  - destruct (grade_value lim y) as [[n|e]|] eqn:Hy.
    + left. intros x e' [->|Hx]%elem_of_cons; [congruence|by apply IH].
    + right. exists y, e. split; [by left|done].
    + left. intros x e' [->|Hx]%elem_of_cons; [congruence|by apply IH].
  - right. exists x, e. split; [by right|done].
Qed.

Lemma truthy_members f dim :
  truthy (f !! dim) = match members f dim with [] => false | _ => true end.
Proof. unfold members. by destruct (f !! dim) as [[|??]|]. Qed.

Lemma truthy_false_members f dim : truthy (f !! dim) = false ↔ members f dim = [].
Proof. rewrite truthy_members. by destruct (members f dim). Qed.

Lemma list_field_default c k :
  is_list_field c k = true → default (PList []) (c !! k) = PList (items c k).
Proof. unfold is_list_field, items. by destruct (c !! k) as [[| |]|]. Qed.

Lemma dict_inverse_difficulty a :
  dict_inverse DIFFICULTY_TO_LEVEL_items !! a = label_of_level a.
Proof.
  unfold dict_inverse, label_of_level, DIFFICULTY_TO_LEVEL_items. simpl.
  rewrite !lookup_insert, lookup_empty.
  repeat case_decide; repeat case_bool_decide; simplify_eq; done.
Qed.

Lemma subjects_match_typed f c :
  is_list_field c "subjects" = true →
  subjects_match f c = Ok (spec_subject_match f c).
Proof.
  intros Hc. unfold subjects_match, spec_subject_match.
  rewrite truthy_members. fold (members f "subjects").
  rewrite (list_field_default _ _ Hc).
  destruct (members f "subjects") as [|x l]; [done|].
  by apply py_any_pure.
Qed.

Lemma difficulty_match_typed f c :
  (∀ l, c !! "difficulty" ≠ Some (PList l)) →
  difficulty_match f c = Ok (spec_difficulty_match f c).
Proof.
  intros Hc. unfold difficulty_match, spec_difficulty_match.
  rewrite truthy_members. fold (members f "difficulty").
  destruct (members f "difficulty") as [|x l]; [done|].
  destruct (c !! "difficulty") as [[|a|l']|] eqn:Hd; simpl;
    rewrite ?dict_inverse_difficulty; try done.
  by destruct (Hc l').
Qed.

(** The test of the user's grades against the field of a record looks
    at the members of [user_grades] only, not at their order. *)
Lemma any_grade_in course_grades (ug : list Z) :
  py_any (λ grade, py_in (PInt grade) course_grades) ug =
  match course_grades with
  | PList l => Ok (existsb (λ grade, bool_decide (PInt grade ∈ l)) ug)
  | _ => match ug with [] => Ok false | _ => Raise TypeError end
  end.
Proof.
  destruct course_grades as [|[n|s]|l].
  - by apply py_any_nil_or_raise.
  - by apply py_any_nil_or_raise.
  - by apply py_any_nil_or_raise.
  - by apply py_any_pure.
Qed.

Lemma any_grade_in_same_members course_grades (ug ug' : list Z) :
  (∀ n, n ∈ ug ↔ n ∈ ug') →
  py_any (λ grade, py_in (PInt grade) course_grades) ug =
  py_any (λ grade, py_in (PInt grade) course_grades) ug'.
Proof.
  intros Hm. rewrite !any_grade_in.
  destruct course_grades as [|[n|s]|l].
  4: by rewrite (existsb_same_members _ _ _ Hm).
  all: destruct ug as [|x ug], ug' as [|y ug']; try done.
  all: exfalso.
  all: try (by apply (elem_of_nil y), Hm; left).
  all: by apply (elem_of_nil x), Hm; left.
Qed.

Lemma grade_match_typed f c :
  is_list_field c "grade" = true →
  grades_convert lim (members f "grade") →
  grade_match lim f c = Ok (spec_grade_match lim f c).
Proof.
  intros Hc Hg. unfold grade_match, spec_grade_match.
  rewrite truthy_members. fold (members f "grade").
  rewrite (list_field_default _ _ Hc).
  destruct (members f "grade") as [|x l] eqn:Hm; [done|].
  destruct (collect_ok (x :: l) [] Hg) as (ug & -> & Hug).
  cbn [mbind res_bind]. rewrite any_grade_in. f_equal.
  apply eq_true_iff_eq. rewrite !existsb_elem_of. split.
  - intros (n & Hn & Hin). exists (PInt n). split.
    + by apply bool_decide_eq_true in Hin.
    + apply Hug in Hn as [Hn|Hn]; [by apply elem_of_nil in Hn|].
      by apply bool_decide_eq_true.
  - intros ([n|s] & Hn & Hin); [|done]. exists n. split.
    + apply Hug. right. by apply bool_decide_eq_true in Hin.
    + by apply bool_decide_eq_true.
Qed.

Lemma grade_match_raise f c x e :
  x ∈ members f "grade" → grade_value lim x = Some (Raise e) →
  grade_match lim f c = Raise ValueError.
Proof.
  intros Hx Hv. unfold grade_match. rewrite truthy_members.
  fold (members f "grade").
  destruct (members f "grade") as [|y l] eqn:Hm; [by apply elem_of_nil in Hx|].
  by rewrite (collect_raise _ _ _ _ Hx Hv).
Qed.

Lemma same_grade_values_convert g g' :
  same_grade_values lim g g' → grades_convert lim g → grades_convert lim g'.
Proof.
  intros Hs Hg x e Hx Hv.
  destruct (proj2 (Hs (Raise e))) as (y & Hy & Hvy); [by exists x|].
  by apply (Hg y e).
Qed.


Lemma collect_same_values g g' course_grades :
  same_grade_values lim g g' →
  collect_user_grades lim g [] ≫=
    py_any (λ grade, py_in (PInt grade) course_grades) =
  collect_user_grades lim g' [] ≫=
    py_any (λ grade, py_in (PInt grade) course_grades).
Proof.
  intros Hs. destruct (grades_convert_dec g) as [Hg|(x & e & Hx & Hv)].
  - pose proof (same_grade_values_convert _ _ Hs Hg) as Hg'.
    destruct (collect_ok g [] Hg) as (ug & -> & Hug).
    destruct (collect_ok g' [] Hg') as (ug' & -> & Hug'). simpl.
    apply any_grade_in_same_members. intros n.
    rewrite Hug, Hug', !elem_of_normalized_grades.
    specialize (Hs (Ok n)). tauto.
  - destruct (proj1 (Hs (Raise e))) as (y & Hy & Hvy); [by exists x|].
    by rewrite (collect_raise _ _ _ _ Hx Hv), (collect_raise _ _ _ _ Hy Hvy).
Qed.

Lemma course_matches_typed f c :
  course_typed c = true →
  grades_convert lim (members f "grade") →
  course_matches lim f c = Ok (spec_keep lim f c).
Proof.
  unfold course_typed. intros [[Hs Hd]%andb_true_iff Hg]%andb_true_iff Hconv.
  unfold course_matches, spec_keep.
  rewrite (subjects_match_typed _ _ Hs), difficulty_match_typed,
    (grade_match_typed _ _ Hg Hconv); [done|].
  intros l Hl. by rewrite Hl in Hd.
Qed.

Lemma filter_loop_pure f keep cs acc :
  (∀ c, c ∈ cs → course_matches lim f c = Ok (keep c)) →
  filter_loop lim f cs acc = Ok (acc ++ List.filter keep cs).
Proof.
  revert acc. induction cs as [|c cs IH]; intros acc Hk; simpl.
  - by rewrite app_nil_r.
  - rewrite (Hk c) by left. simpl.
    rewrite IH by (intros c' Hc'; apply Hk; by right).
    destruct (keep c); [|done]. by rewrite <-app_assoc.
Qed.

Lemma filter_loop_ext f f' cs acc :
  (∀ c, course_matches lim f c = course_matches lim f' c) →
  filter_loop lim f cs acc = filter_loop lim f' cs acc.
Proof.
  intros Hm. revert acc. induction cs as [|c cs IH]; intros acc; simpl; [done|].
  rewrite Hm. destruct (course_matches lim f' c) as [b|e]; simpl; [|done].
  apply IH.
Qed.

Lemma filter_loop_elem f cs acc out :
  filter_loop lim f cs acc = Ok out →
  ∀ c, c ∈ out → c ∈ acc ∨ (c ∈ cs ∧ course_matches lim f c = Ok true).
Proof.
  revert acc. induction cs as [|c cs IH]; intros acc; simpl.
  - intros [= ->] c' Hc'. by left.
  - destruct (course_matches lim f c) as [b|e] eqn:Hm; simpl; [|done].
    intros Hl c' Hc'. destruct (IH _ Hl c' Hc') as [Hacc|[Hcs Hc]].
    + destruct b.
      * apply elem_of_app in Hacc as [?|Hs%list_elem_of_singleton]; [by left|].
        subst c'. right. split; [by left|done].
      * by left.
    + right. split; [by right|done].
Qed.

Lemma filter_loop_raise f c cs acc e :
  course_matches lim f c = Raise e →
  filter_loop lim f (c :: cs) acc = Raise e.
Proof. intros Hm. simpl. by rewrite Hm. Qed.

(** The evaluator on the records of the data model, when every
    digit-string of the grade set converts: the records that the three
    predicates of the specification keep, in the order of the input. *)
Theorem filter_courses_locally_spec courses f :
  Forall (λ c, course_typed c = true) courses →
  grades_convert lim (members f "grade") →
  _filter_courses_locally lim courses f = Ok (List.filter (spec_keep lim f) courses).
Proof.
  intros Ht Hg. destruct courses as [|c cs]; [done|].
  unfold _filter_courses_locally. rewrite (filter_loop_pure f (spec_keep lim f)); [done|].
  intros c' Hc'. apply course_matches_typed; [|done].
  by apply (proj1 (Forall_forall _ _) Ht).
Qed.

End EvaluatorFacts.

(** ** The claims *)

Section EvaluatorClaims.
Variable lim : N.
Implicit Types (f : filter_bag) (c : course).

Lemma course_matches_unconstrained f c :
  members f "subjects" = [] → members f "difficulty" = [] →
  members f "grade" = [] →
  course_matches lim f c = Ok true.
Proof.
  intros Hs%truthy_false_members Hd%truthy_false_members
         Hg%truthy_false_members.
  unfold course_matches, subjects_match, difficulty_match, grade_match.
  by rewrite Hs, Hd, Hg.
Qed.

Lemma filter_true {A} (l : list A) : List.filter (λ _, true) l = l.
Proof. induction l as [|x l IH]; simpl; [done|]. by rewrite IH. Qed.

(** C7. When the subjects, difficulty and grade sets of the filter bag
    are all empty or absent, the translator returns the empty mapping
    and the evaluator returns its input list unchanged. *)
Theorem C7_empty_filters_identity f (courses : list course) :
  members f "subjects" = [] → members f "difficulty" = [] →
  members f "grade" = [] →
  _convert_filters_to_api_params lim f = Ok ∅ ∧
  _filter_courses_locally lim courses f = Ok courses.
Proof.
  intros Hs Hd Hg. split.
  - unfold _convert_filters_to_api_params.
    apply truthy_false_members in Hs, Hd, Hg. by rewrite Hs, Hd, Hg.
  - destruct courses as [|c cs]; [done|]. unfold _filter_courses_locally.
    rewrite (filter_loop_pure lim f (λ _, true)).
    + by rewrite filter_true.
    + intros c' _. by apply course_matches_unconstrained.
Qed.

Lemma filter_false {A} (q : A → bool) (l : list A) :
  (∀ x, x ∈ l → q x = false) → List.filter q l = [].
Proof.
  induction l as [|x l IH]; intros Hq; simpl; [done|].
  rewrite (Hq x) by left. apply IH. intros y Hy. apply Hq. by right.
Qed.

Lemma course_matches_true f c :
  course_matches lim f c = Ok true →
  subjects_match f c = Ok true ∧ difficulty_match f c = Ok true ∧
  grade_match lim f c = Ok true.
Proof.
  unfold course_matches.
  destruct (subjects_match f c) as [[]|]; simpl; try done;
  destruct (difficulty_match f c) as [[]|]; simpl; try done;
  destruct (grade_match lim f c) as [[]|]; simpl; done.
Qed.

Lemma filter_courses_locally_elem (courses out : list course) f c :
  _filter_courses_locally lim courses f = Ok out → c ∈ out →
  c ∈ courses ∧ course_matches lim f c = Ok true.
Proof.
  destruct courses as [|c0 cs]; unfold _filter_courses_locally.
  - intros [= <-] Hc. by apply elem_of_nil in Hc.
  - intros Hl Hc.
    destruct (filter_loop_elem lim _ _ _ _ Hl c Hc) as [Hn|?]; [|done].
    by apply elem_of_nil in Hn.
Qed.

Lemma grade_match_no_usable_grade f c :
  members f "grade" ≠ [] →
  (∀ x, x ∈ members f "grade" → grade_value lim x = None) →
  grade_match lim f c = Ok false.
Proof.
  intros Hne Hv. unfold grade_match. rewrite truthy_members.
  fold (members f "grade").
  destruct (members f "grade") as [|x l] eqn:Hm; [done|].
  destruct (collect_ok lim (x :: l) []) as (ug & -> & Hug).
  { intros y e Hy. by rewrite (Hv y Hy). }
  assert (ug = []) as ->.
  { apply elem_of_nil_inv. intros n [Hn|Hn]%Hug; [by apply elem_of_nil in Hn|].
    apply elem_of_normalized_grades in Hn as (y & Hy & Hvy).
    by rewrite (Hv y Hy) in Hvy. }
  cbn [mbind res_bind]. rewrite any_grade_in.
  by destruct (default (PList []) (c !! "grade")).
Qed.

(** C9. When the grade set is not empty and none of its members is an
    integer or a string of digits, the normalized set of user grades is
    empty and the grade predicate is false for every record, so that the
    evaluator never returns a record and, on the records of the data
    model, returns the empty list. *)
Theorem C9_no_usable_grade_rejects_all f (courses : list course) :
  members f "grade" ≠ [] →
  (∀ x, x ∈ members f "grade" → ∃ s, x = PStr s ∧ py_isdigit s = false) →
  normalized_grades lim (members f "grade") = [] ∧
  (∀ c, grade_match lim f c = Ok false) ∧
  (∀ out, _filter_courses_locally lim courses f = Ok out → out = []) ∧
  (Forall (λ c, course_typed c = true) courses →
   _filter_courses_locally lim courses f = Ok []).
Proof.
  intros Hne Hg.
  assert (∀ x, x ∈ members f "grade" → grade_value lim x = None) as Hv.
  { intros x (s & -> & Hd)%Hg. unfold grade_value. by rewrite Hd. }
  assert (normalized_grades lim (members f "grade") = []) as Hnorm.
  { apply elem_of_nil_inv. intros n (y & Hy & Hvy)%elem_of_normalized_grades.
    by rewrite (Hv y Hy) in Hvy. }
  assert (∀ c, grade_match lim f c = Ok false) as Hgm.
  { intros c. by apply grade_match_no_usable_grade. }
  split; [done|]. split; [done|]. split.
  - intros out Hout. apply elem_of_nil_inv. intros c Hc.
    destruct (filter_courses_locally_elem _ _ _ _ Hout Hc)
      as [_ (_ & _ & Hgc)%course_matches_true].
    by rewrite Hgm in Hgc.
  - intros Ht. rewrite filter_courses_locally_spec; [|done|].
    + f_equal. apply filter_false. intros c _.
      unfold spec_keep, spec_grade_match.
      destruct (members f "grade") as [|x l] eqn:Hm; [done|]. rewrite Hnorm.
      rewrite existsb_false; [by rewrite andb_false_r|].
      intros [n|s] _; [|done]. apply bool_decide_eq_false, not_elem_of_nil.
    + intros x e Hx. by rewrite (Hv x Hx).
Qed.





End EvaluatorClaims.

Section ServiceClaims.
Variable lim : N.
Implicit Types (f : filter_bag) (c : course).







(** *** The errors the evaluator can raise *)

Lemma py_any_raise {A} (p : A → res bool) (P : exn → Prop) (l : list A) e :
  (∀ x e', p x = Raise e' → P e') → py_any p l = Raise e → P e.
Proof.
  intros Hp. induction l as [|x l IH]; simpl; [done|].
  destruct (p x) as [[]|e'] eqn:Hx; simpl; [done|done|].
  intros [= <-]. by apply (Hp x).
Qed.

Lemma py_in_raise x v e : py_in x v = Raise e → e = TypeError.
Proof. destruct v as [|[]|], x; simpl; congruence. Qed.

Lemma collect_raise_kind grades acc e :
  collect_user_grades lim grades acc = Raise e → e = ValueError.
Proof.
  revert acc. induction grades as [|[n|s] grades IH]; intros acc; simpl.
  - done.
  - apply IH.
  - destruct (py_isdigit s); [|apply IH].
    destruct (py_int lim s) as [n|e'] eqn:Hi; simpl; [apply IH|].
    intros [= <-]. by apply py_int_raise in Hi.
Qed.

Lemma course_matches_raise_kind f c e :
  course_matches lim f c = Raise e → e = ValueError ∨ e = TypeError.
Proof.
  unfold course_matches.
  destruct (subjects_match f c) as [sm|e1] eqn:Hs; simpl.
  2:{ intros [= <-]. right. revert Hs. unfold subjects_match.
      destruct (truthy _); [|done].
      apply (py_any_raise _ (λ e, e = TypeError)).
      intros x e'. apply py_in_raise. }
  destruct (difficulty_match f c) as [dm|e2] eqn:Hd; simpl.
  2:{ intros [= <-]. right. revert Hd. unfold difficulty_match.
      destruct (truthy _); [|done].
      destruct (default (PAtom _) _) as [|a|l]; simpl; congruence. }
  destruct (grade_match lim f c) as [gm|e3] eqn:Hg; simpl; [done|].
  intros [= <-]. revert Hg. unfold grade_match.
  destruct (truthy _); [|done].
  destruct (collect_user_grades _ _ _) as [ug|e'] eqn:Hc; simpl.
  - intros Ha. right. revert Ha. apply (py_any_raise _ (λ e, e = TypeError)).
    intros x e'. apply py_in_raise.
  - intros [= <-]. left. by apply collect_raise_kind in Hc.
Qed.

Lemma filter_courses_locally_raise_kind (courses : list course) f e :
  _filter_courses_locally lim courses f = Raise e →
  e = ValueError ∨ e = TypeError.
Proof.
  destruct courses as [|c0 cs]; [done|]. unfold _filter_courses_locally.
  generalize (c0 :: cs) ([] : list course). intros l.
  induction l as [|c l IH]; intros acc; simpl; [done|].
  destruct (course_matches lim f c) as [b|e'] eqn:Hm; simpl; [apply IH|].
  intros [= <-]. by apply course_matches_raise_kind in Hm.
Qed.

Lemma get_fallback_courses_eq COURSES f :
  _get_fallback_courses lim COURSES f =
  match COURSES with
  | Some courses => _filter_courses_locally lim courses f
  | None => Ok []
  end.
Proof.
  unfold _get_fallback_courses. destruct COURSES as [courses|]; [|done].
  destruct (_filter_courses_locally lim courses f) as [out|e] eqn:Hl; [done|].
  by destruct (filter_courses_locally_raise_kind _ _ _ Hl) as [-> | ->].
Qed.

(** A service whose client failed to initialize sends no request and
    answers [filter_courses] with the outcome of the evaluator on the
    fallback dataset under the same filter bag, a list or an error, or
    with the empty list when the dataset is unavailable; under
    [{"grade": {"9"}}] and on records of the data model that is the
    records of the dataset whose grade list contains 9. *)
Theorem degraded_mode_fallback COURSES (self : CourseService) f :
  api_client self = None →
  filter_courses lim COURSES self f =
    ([], match COURSES with
         | Some dataset => _filter_courses_locally lim dataset f
         | None => Ok []
         end) ∧
  (∀ dataset, COURSES = Some dataset →
     Forall (λ c, course_typed c = true) dataset →
     filter_courses lim COURSES self {["grade" := [PStr "9"]]} =
       ([], Ok (List.filter (λ c, bool_decide (PInt 9 ∈ items c "grade"))
                            dataset))).
Proof.
  intros Hnone. split.
  - unfold filter_courses. by rewrite Hnone, get_fallback_courses_eq.
  - intros dataset -> Ht. unfold filter_courses.
    rewrite Hnone, get_fallback_courses_eq. f_equal.
    rewrite filter_courses_locally_spec; [|done|].
    + f_equal. apply filter_ext. intros c.
      unfold spec_keep, spec_subject_match, spec_difficulty_match,
        spec_grade_match, members.
      rewrite !lookup_singleton_ne by done. rewrite lookup_singleton_eq.
      cbn [from_option id andb].
      assert (normalized_grades lim [PStr "9"] = [9%Z]) as -> by reflexivity.
      apply eq_true_iff_eq. rewrite existsb_elem_of, bool_decide_eq_true.
      split.
      * intros ([n|s] & Hin & Hn); [|done].
        by apply bool_decide_eq_true, list_elem_of_singleton in Hn as ->.
      * intros Hin. exists (PInt 9). split; [done|].
        by apply bool_decide_eq_true, list_elem_of_singleton.
    + intros x e ->%list_elem_of_singleton. by vm_compute.
Qed.

(** The scan for an id: the first record with that id, if any. *)
Lemma scan_for_id_spec (course_id : Z) (all_courses : list course) :
  match scan_for_id course_id all_courses with
  | Some c =>
    ∃ l1 l2, all_courses = l1 ++ c :: l2 ∧
      c !! "id" = Some (PAtom (PInt course_id)) ∧
      ∀ c', c' ∈ l1 → c' !! "id" ≠ Some (PAtom (PInt course_id))
  | None =>
    ∀ c', c' ∈ all_courses → c' !! "id" ≠ Some (PAtom (PInt course_id))
  end.
Proof.
  induction all_courses as [|c cs IH]; simpl.
  - intros c' Hc'. by apply elem_of_nil in Hc'.
  - case_bool_decide as Hid.
    + exists [], cs. split; [done|]. split.
      * destruct (c !! "id") as [v|]; simpl in Hid; by subst.
      * intros c' Hc'. by apply elem_of_nil in Hc'.
    + assert (c !! "id" ≠ Some (PAtom (PInt course_id))) as Hne.
      { intros Heq. apply Hid. by rewrite Heq. }
      destruct (scan_for_id course_id cs) as [c1|].
      * destruct IH as (l1 & l2 & -> & Hc1 & Hl1).
        exists (c :: l1), l2. split; [done|]. split; [done|].
        intros c' [->|Hc']%elem_of_cons; [done|by apply Hl1].
      * intros c' [->|Hc']%elem_of_cons; [done|by apply IH].
Qed.

(** C5. [get_course_by_id] returns nothing, and looks nothing up, when
    the client is unavailable; otherwise it fetches the whole list once
    and returns the first record whose [id] equals [course_id], or
    nothing if there is none; an exception of the fetch results in
    nothing as well.  It never raises. *)
Theorem C5_get_course_by_id (self : CourseService) (course_id : Z) :
  match api_client self with
  | None => get_course_by_id self course_id = ([], Ok None)
  | Some client =>
    ∃ r, get_course_by_id self course_id = ([GetAllCourses], Ok r) ∧
      match get_all_courses client with
      | Raise _ => r = None
      | Ok all_courses =>
        match r with
        | Some c =>
          ∃ l1 l2, all_courses = l1 ++ c :: l2 ∧
            c !! "id" = Some (PAtom (PInt course_id)) ∧
            ∀ c', c' ∈ l1 → c' !! "id" ≠ Some (PAtom (PInt course_id))
        | None =>
          ∀ c', c' ∈ all_courses →
            c' !! "id" ≠ Some (PAtom (PInt course_id))
        end
      end
  end.
Proof.
  unfold get_course_by_id. destruct (api_client self) as [client|]; [|done].
  destruct (get_all_courses client) as [all_courses|e].
  - exists (scan_for_id course_id all_courses). split; [done|].
    apply scan_for_id_spec.
  - by exists None.
Qed.

(** *** The defect: a digit that [int] does not accept

    [str.isdigit] accepts every character with the Unicode property
    Numeric_Type=Digit, [int] only the decimal digits.  A grade such as
    the superscript two passes the test of the code and fails the
    conversion the test guards. *)

Lemma superscript_two_value :
  grade_value lim (PStr "²") = Some (Raise ValueError).
Proof. reflexivity. Qed.

(** On the records of the data model every grade set with a member
    that passes [isdigit] and that [int] rejects makes the evaluator
    raise, whatever else the filter bag holds. *)
Lemma filter_courses_locally_raises f c (courses : list course) x e :
  course_typed c = true →
  x ∈ members f "grade" → grade_value lim x = Some (Raise e) →
  _filter_courses_locally lim (c :: courses) f = Raise ValueError.
Proof.
  unfold course_typed. intros [[Hs Hd]%andb_true_iff _]%andb_true_iff Hx Hv.
  unfold _filter_courses_locally. apply filter_loop_raise.
  unfold course_matches.
  rewrite (subjects_match_typed _ _ Hs), difficulty_match_typed.
  - cbn [mbind res_bind]. by rewrite (grade_match_raise lim f c x e).
  - intros l Hl. by rewrite Hl in Hd.
Qed.

Lemma filter_courses_locally_superscript_two c (courses : list course) :
  _filter_courses_locally lim (c :: courses) superscript_two_bag =
  Raise ValueError.
Proof.
  unfold _filter_courses_locally. apply filter_loop_raise.
  unfold course_matches.
  assert (subjects_match superscript_two_bag c = Ok true) as -> by done.
  assert (difficulty_match superscript_two_bag c = Ok true) as -> by done.
  cbn [mbind res_bind].
  apply (grade_match_raise lim superscript_two_bag c (PStr "²") ValueError).
  - change (members superscript_two_bag "grade") with [PStr "²"]. by left.
  - reflexivity.
Qed.

Lemma convert_filters_superscript_two :
  _convert_filters_to_api_params lim superscript_two_bag = Raise ValueError.
Proof. reflexivity. Qed.

(** C1 (fails). With the grade set [{"²"}] the evaluator raises
    [ValueError] on every non-empty candidate list instead of returning
    the records that satisfy the three predicates. *)
Theorem C1_evaluator_raises_on_superscript_digit c (courses : list course) :
  _filter_courses_locally lim (c :: courses) superscript_two_bag =
  Raise ValueError.
Proof. apply filter_courses_locally_superscript_two. Qed.

(** C4 (fails). With the grade set [{"²"}] the translator raises
    [ValueError] instead of skipping the member. *)
Theorem C4_translator_raises_on_superscript_digit :
  _convert_filters_to_api_params lim superscript_two_bag = Raise ValueError.
Proof. apply convert_filters_superscript_two. Qed.

(** C2 (fails). With the grade set [{"²"}] and a fallback dataset that
    is not empty, [filter_courses] raises [ValueError] to its caller,
    whether the client is available or not and whatever it answers: the
    translator raises, the handler calls the fallback, and the fallback
    raises again outside any handler. *)
Theorem C2_filter_courses_raises_on_superscript_digit
    (self : CourseService) c (dataset : list course) :
  filter_courses lim (Some (c :: dataset)) self superscript_two_bag =
  ([], Raise ValueError).
Proof.
  unfold filter_courses, filter_courses_try.
  rewrite convert_filters_superscript_two.
  rewrite get_fallback_courses_eq, filter_courses_locally_superscript_two.
  by destruct (api_client self).
Qed.

(** C3 (fails). A service whose client failed to initialize does not
    return the filtered fallback dataset for every filter bag: with the
    grade set [{"²"}] and a dataset that is not empty, the fallback the
    claim names raises [ValueError], and so does [filter_courses], which
    sends no request. *)
Theorem C3_degraded_mode_raises_on_superscript_digit c (dataset : list course) :
  api_client degraded_service = None ∧
  _get_fallback_courses lim (Some (c :: dataset)) superscript_two_bag =
    Raise ValueError ∧
  filter_courses lim (Some (c :: dataset)) degraded_service superscript_two_bag =
    ([], Raise ValueError).
Proof.
  split; [done|].
  assert (_get_fallback_courses lim (Some (c :: dataset)) superscript_two_bag
          = Raise ValueError) as Hfb.
  { by rewrite get_fallback_courses_eq, filter_courses_locally_superscript_two. }
  split; [done|]. unfold filter_courses. cbn [degraded_service api_client].
  by rewrite Hfb.
Qed.

(** *** Away from such digits *)

Lemma first_in_table_spec (table : gmap scalar scalar) (xs : list scalar) :
  match first_in_table table xs with
  | Some v =>
    ∃ l1 x l2, xs = l1 ++ x :: l2 ∧ table !! x = Some v ∧
               ∀ y, y ∈ l1 → table !! y = None
  | None => ∀ y, y ∈ xs → table !! y = None
  end.
Proof.
  induction xs as [|x xs IH]; simpl.
  - intros y Hy. by apply elem_of_nil in Hy.
  - destruct (table !! x) as [v|] eqn:Hx.
    + exists [], x, xs. split; [done|]. split; [done|].
      intros y Hy. by apply elem_of_nil in Hy.
    + destruct (first_in_table table xs) as [v|].
      * destruct IH as (l1 & x' & l2 & -> & Hx' & Hl1).
        exists (x :: l1), x', l2. split; [done|]. split; [done|].
        intros y [->|Hy]%elem_of_cons; [done|by apply Hl1].
      * intros y [->|Hy]%elem_of_cons; [done|by apply IH].
Qed.

Lemma first_grade_in_table_ok (grades : list scalar) :
  grades_convert lim grades → ∃ found, first_grade_in_table lim grades = Ok found.
Proof.
  induction grades as [|x grades IH]; intros Hc; simpl; [by eexists|].
  assert (∃ g, normalize_grade lim x = Ok g) as (g & ->).
  { assert (∀ e, grade_value lim x ≠ Some (Raise e)) as Hx
      by (intros e; apply Hc; by left).
    destruct x as [n|s]; simpl; [by eexists|]. unfold grade_value in Hx.
    destruct (py_isdigit s); [|by eexists].
    destruct (py_int lim s) as [n|e]; [by eexists|by destruct (Hx e)]. }
  simpl. destruct (GRADE_TO_ID !! g); [by eexists|].
  apply IH. intros y e Hy. apply Hc. by right.
Qed.

Lemma translate_block f (k key : string) table (p : api_params) :
  (if truthy (f !! k)
   then set_param key (first_in_table table (default [] (f !! k))) p
   else p) = set_param key (first_in_table table (members f k)) p.
Proof. unfold members. by destruct (f !! k) as [[|x l]|]. Qed.

(** The translator, when every digit-string of the grade set converts:
    for each dimension the value of the first member that the table
    of the dimension knows, and nothing else. *)
Theorem convert_filters_spec f :
  grades_convert lim (members f "grade") →
  ∃ found params,
    first_grade_in_table lim (members f "grade") = Ok found ∧
    _convert_filters_to_api_params lim f = Ok params ∧
    params !! "category_id" =
      first_in_table SUBJECT_TO_CATEGORY (members f "subjects") ∧
    params !! "level" =
      first_in_table DIFFICULTY_TO_LEVEL (members f "difficulty") ∧
    params !! "grade_id" = found ∧
    ∀ k, is_Some (params !! k) →
         k = "category_id" ∨ k = "level" ∨ k = "grade_id".
Proof.
  intros Hc. destruct (first_grade_in_table_ok _ Hc) as (found & Hfound).
  exists found,
    (set_param "grade_id" found
       (set_param "level"
          (first_in_table DIFFICULTY_TO_LEVEL (members f "difficulty"))
          (set_param "category_id"
             (first_in_table SUBJECT_TO_CATEGORY (members f "subjects")) ∅))).
  split; [done|]. split.
  - unfold _convert_filters_to_api_params. cbv zeta.
    rewrite !translate_block.
    destruct (truthy (f !! "grade")) eqn:Ht.
    + fold (members f "grade"). by rewrite Hfound.
    + apply truthy_false_members in Ht. rewrite Ht in Hfound.
      by injection Hfound as <-.
  - destruct found as [vg|],
      (first_in_table DIFFICULTY_TO_LEVEL (members f "difficulty")) as [vd|],
      (first_in_table SUBJECT_TO_CATEGORY (members f "subjects")) as [vs|];
      simpl; repeat split;
      try (intros k [v Hk]; revert Hk);
      rewrite ?lookup_insert, ?lookup_empty;
      repeat case_decide; simplify_eq; auto; try done.
Qed.

(** [filter_courses] returns a list, after at most one request, when
    every digit-string of the grade set converts and the fallback
    dataset holds records of the data model. *)
Theorem filter_courses_returns COURSES (self : CourseService) f :
  (∀ dataset, COURSES = Some dataset →
              Forall (λ c, course_typed c = true) dataset) →
  grades_convert lim (members f "grade") →
  ∃ calls out, filter_courses lim COURSES self f = (calls, Ok out) ∧
               (length calls ≤ 1)%nat.
Proof.
  intros Hd Hc.
  assert (∃ out, _get_fallback_courses lim COURSES f = Ok out) as (fb & Hfb).
  { rewrite get_fallback_courses_eq. destruct COURSES as [dataset|]; [|by eexists].
    rewrite filter_courses_locally_spec; [by eexists|by apply Hd|done]. }
  unfold filter_courses. rewrite Hfb.
  destruct (api_client self) as [client|]; [|exists [], fb; split; [done|simpl; lia]].
  unfold filter_courses_try.
  destruct (_convert_filters_to_api_params lim f) as [params|e].
  - case_bool_decide.
    + destruct (get_all_courses client ≫= _) as [out|[]];
        eexists _, _; (split; [done|simpl; lia]).
    + destruct (get_courses client params ≫= _) as [out|[]];
        eexists _, _; (split; [done|simpl; lia]).
  - destruct e; exists [], fb; (split; [done|simpl; lia]).
Qed.

End ServiceClaims.

(** ** The store: what the two methods leave unchanged *)

Section StoreFrame.
Import Store.
Implicit Types (h pre : gmap loc obj) (v : val).

Lemma keeps_weaken {A} pre (m : M A) (Q R : A → Prop) :
  keeps pre m Q → (∀ x, Q x → R x) → keeps pre m R.
Proof.
  intros Hm HQR h Hh. destruct (Hm h Hh) as [H1 H2]. split; [done|].
  intros x Hx. by apply HQR, H2.
Qed.

Lemma keeps_ret {A} pre (x : A) (Q : A → Prop) : Q x → keeps pre (mret x) Q.
Proof. intros HQ h Hh. split; [done|]. by intros ? [= <-]. Qed.

Lemma keeps_raise {A} pre e (Q : A → Prop) : keeps pre (raise e) Q.
Proof. intros h Hh. by split. Qed.

Lemma keeps_lift {A} pre (r : res A) : keeps pre (lift r) any_result.
Proof. intros h Hh. by split. Qed.

Lemma keeps_bind {A B} pre (m : M A) (k : A → M B) (Q : A → Prop) (R : B → Prop) :
  keeps pre m Q → (∀ x, Q x → keeps pre (k x) R) → keeps pre (m ≫= k) R.
Proof.
  intros Hm Hk h Hh. destruct (Hm h Hh) as [H1 H2].
  unfold mbind, M_bind. destruct (m h) as [[x|e] h1]; simpl in *.
  - by apply Hk; [apply H2|].
  - by split.
Qed.

Lemma keeps_alloc pre o : keeps pre (alloc o) (local pre).
Proof.
  intros h Hh. unfold alloc. simpl.
  assert (h !! fresh (dom h) = None) as Hfresh.
  { apply not_elem_of_dom, is_fresh. }
  assert (pre !! fresh (dom h) = None) as Hfresh0.
  { by eapply lookup_weaken_None. }
  split.
  - by apply insert_subseteq_r.
  - intros x [= <-]. by eexists.
Qed.

Lemma keeps_deref pre v : keeps pre (deref v) any_result.
Proof. intros h Hh. by destruct v. Qed.

Lemma keeps_store pre v o : local pre v → keeps pre (store v o) any_result.
Proof.
  intros (l & -> & Hl) h Hh. simpl. split; [|done].
  by apply insert_subseteq_r.
Qed.

Lemma keeps_hashed pre k : keeps pre (hashed k) any_result.
Proof. destruct k; [by apply keeps_ret..|apply keeps_raise]. Qed.

Ltac keeps_step :=
  lazymatch goal with
  | |- keeps _ (mret _) _ => by apply keeps_ret
  | |- keeps _ (raise _) _ => apply keeps_raise
  | |- keeps ?pre (alloc _ ≫= _) _ =>
    apply (keeps_bind _ _ _ (local pre)); [apply keeps_alloc|intros ? ?]
  | |- keeps _ (_ ≫= _) _ =>
    apply (keeps_bind _ _ _ any_result); [|intros ? _]
  | |- keeps _ (deref _) _ => apply keeps_deref
  | |- keeps _ (hashed _) _ => apply keeps_hashed
  | |- keeps _ (lift _) _ => apply keeps_lift
  | |- keeps _ (alloc _) _ =>
    eapply keeps_weaken; [apply keeps_alloc|intros ? _; exact I]
  | |- keeps _ (store _ _) _ => by apply keeps_store
  | |- keeps _ (match ?x with _ => _ end) _ => destruct x
  | |- keeps _ (if ?x then _ else _) _ => destruct x
  end.

Lemma keeps_dict_get pre d k dflt : keeps pre (dict_get d k dflt) any_result.
Proof. unfold dict_get. repeat keeps_step. Qed.

Lemma keeps_dict_getitem pre d k : keeps pre (dict_getitem d k) any_result.
Proof. unfold dict_getitem. repeat keeps_step. Qed.

Lemma keeps_table_lookup pre table k : keeps pre (table_lookup table k) any_result.
Proof. unfold table_lookup. repeat keeps_step. Qed.

Lemma keeps_truth pre v : keeps pre (truth v) any_result.
Proof. unfold truth. repeat keeps_step. Qed.

Lemma keeps_iterate pre v : keeps pre (iterate v) any_result.
Proof. unfold iterate. repeat keeps_step. Qed.

Lemma keeps_contains pre v x : keeps pre (contains v x) any_result.
Proof. unfold contains. repeat keeps_step. Qed.

Lemma keeps_dict_setitem pre d k v :
  local pre d → keeps pre (dict_setitem d k v) any_result.
Proof. intros Hd. unfold dict_setitem. repeat keeps_step. Qed.

Lemma keeps_list_append pre l v :
  local pre l → keeps pre (list_append l v) any_result.
Proof. intros Hl. unfold list_append. repeat keeps_step. Qed.

Lemma keeps_set_add_member pre s a :
  local pre s → keeps pre (set_add_member s a) any_result.
Proof. intros Hs. unfold set_add_member. repeat keeps_step. Qed.

Lemma keeps_any {A} pre (p : A → M bool) (xs : list A) :
  (∀ x, keeps pre (p x) any_result) → keeps pre (any p xs) any_result.
Proof.
  intros Hp. induction xs as [|x xs IH]; simpl; [by apply keeps_ret|].
  apply (keeps_bind _ _ _ any_result); [apply Hp|].
  intros [] _; [by apply keeps_ret|done].
Qed.

Lemma keeps_for_each {A} pre (body : A → M unit) (xs : list A) :
  (∀ x, keeps pre (body x) any_result) → keeps pre (for_each body xs) any_result.
Proof.
  intros Hb. induction xs as [|x xs IH]; simpl; [by apply keeps_ret|].
  apply (keeps_bind _ _ _ any_result); [apply Hb|]. by intros [] _.
Qed.

Lemma keeps_assign_first pre table d key xs :
  local pre d → keeps pre (assign_first table d key xs) any_result.
Proof.
  intros Hd. induction xs as [|x xs IH]; simpl; [by apply keeps_ret|].
  apply (keeps_bind _ _ _ any_result); [apply keeps_table_lookup|].
  intros [w|] _; [by apply keeps_dict_setitem|done].
Qed.

Variable lim : N.

Lemma keeps_assign_first_grade pre d xs :
  local pre d → keeps pre (Methods.assign_first_grade lim d xs) any_result.
Proof.
  intros Hd. induction xs as [|x xs IH]; simpl; [by apply keeps_ret|].
  apply (keeps_bind _ _ _ any_result).
  { unfold Methods.normalize. destruct x; [by apply keeps_ret|apply keeps_lift|by apply keeps_ret]. }
  intros g _. apply (keeps_bind _ _ _ any_result); [apply keeps_table_lookup|].
  intros [w|] _; [by apply keeps_dict_setitem|done].
Qed.

Ltac keeps_auto :=
  repeat first
    [ apply keeps_dict_get | apply keeps_dict_getitem | apply keeps_truth
    | apply keeps_iterate | apply keeps_contains
    | by apply keeps_assign_first | by apply keeps_assign_first_grade
    | by apply keeps_list_append | by apply keeps_set_add_member
    | by apply keeps_dict_setitem
    | apply keeps_any; intros ?
    | apply keeps_for_each; intros ?
    | keeps_step ].

Lemma keeps_convert pre filters :
  keeps pre (Methods._convert_filters_to_api_params lim filters) any_result.
Proof. unfold Methods._convert_filters_to_api_params. keeps_auto. Qed.

Lemma keeps_subjects_match pre filters course :
  keeps pre (Methods.subjects_match filters course) any_result.
Proof. unfold Methods.subjects_match. keeps_auto. Qed.

Lemma keeps_difficulty_match pre filters course :
  keeps pre (Methods.difficulty_match filters course) any_result.
Proof. unfold Methods.difficulty_match. keeps_auto. Qed.

Lemma keeps_add_user_grade pre user_grades grade :
  local pre user_grades →
  keeps pre (Methods.add_user_grade lim user_grades grade) any_result.
Proof. intros Hl. unfold Methods.add_user_grade. keeps_auto. Qed.

Lemma keeps_grade_match pre filters course :
  keeps pre (Methods.grade_match lim filters course) any_result.
Proof.
  unfold Methods.grade_match. keeps_auto.
  all: by apply keeps_add_user_grade.
Qed.

Lemma keeps_visit_course pre filters results course :
  local pre results →
  keeps pre (Methods.visit_course lim filters results course) any_result.
Proof.
  intros Hl. unfold Methods.visit_course.
  apply (keeps_bind _ _ _ any_result); [apply keeps_subjects_match|intros sm _].
  apply (keeps_bind _ _ _ any_result); [apply keeps_difficulty_match|intros dm _].
  apply (keeps_bind _ _ _ any_result); [apply keeps_grade_match|intros gm _].
  destruct (sm && dm && gm); [by apply keeps_list_append|by apply keeps_ret].
Qed.

Lemma keeps_filter_locally pre courses filters :
  keeps pre (Methods._filter_courses_locally lim courses filters) any_result.
Proof.
  unfold Methods._filter_courses_locally. keeps_auto.
  all: by apply keeps_visit_course.
Qed.

Lemma keeps_unchanged {A} (m : M A) h :
  keeps h m any_result → ∀ l o, h !! l = Some o → (m h).2 !! l = Some o.
Proof.
  intros Hm l o Hl. destruct (Hm h) as [Hsub _]; [done|].
  by eapply lookup_weaken.
Qed.

(** C8. Neither the translator nor the evaluator changes an object that
    exists when it is called: whatever the store holds before the call
    (the filter bag, each of its sets, the list of candidates, every
    record and the lists in it) it holds unchanged after the call,
    whether the call returns or raises.  The objects the two methods
    write to ([api_params], [results], [user_grades]) are their own. *)
Theorem C8_filter_bag_and_records_unchanged
    (filters courses : val) (h : gmap loc obj) (l : loc) (o : obj) :
  h !! l = Some o →
  (Methods._convert_filters_to_api_params lim filters h).2 !! l = Some o ∧
  (Methods._filter_courses_locally lim courses filters h).2 !! l = Some o.
Proof.
  intros Hl. split.
  - by apply keeps_unchanged; [apply keeps_convert|].
  - by apply keeps_unchanged; [apply keeps_filter_locally|].
Qed.

End StoreFrame.

(** ** The store: the two methods compute what the functional model computes *)

Section StoreRefinement.
Import Store.
Implicit Types (h : gmap loc obj) (v : val) (f : filter_bag) (c : course).

Lemma is_set_mono h h' v s : h ⊆ h' → is_set h v s → is_set h' v s.
Proof. intros Hh (l & -> & Hl). exists l. eauto using lookup_weaken. Qed.

Lemma is_field_mono h h' v p : h ⊆ h' → is_field h v p → is_field h' v p.
Proof.
  intros Hh. destruct p; simpl; try done.
  intros (l' & -> & Hl). exists l'. eauto using lookup_weaken.
Qed.

Lemma is_bag_mono h h' v f : h ⊆ h' → is_bag h v f → is_bag h' v f.
Proof.
  intros Hh (l & entries & -> & Hl & He). exists l, entries.
  split; [done|]. split; [by eapply lookup_weaken|].
  intros k. specialize (He k). destruct (f !! k); [|done].
  destruct He as (sv & ? & ?). exists sv. eauto using is_set_mono.
Qed.

Lemma is_course_mono h h' v c : h ⊆ h' → is_course h v c → is_course h' v c.
Proof.
  intros Hh (l & entries & -> & Hl & He). exists l, entries.
  split; [done|]. split; [by eapply lookup_weaken|].
  intros k. specialize (He k). destruct (c !! k); [|done].
  destruct He as (fv & ? & ?). exists fv. eauto using is_field_mono.
Qed.

Ltac run := unfold mbind, M_bind, mret, M_ret, raise, hashed; simpl.

Lemma bind_run {A B} (m : M A) (k : A → M B) h :
  (m ≫= k) h =
  match m h with
  | (Ok x, h') => k x h'
  | (Raise e, h') => (Raise e, h')
  end.
Proof. done. Qed.

Lemma alloc_run o h :
  ∃ l, alloc o h = (Ok (VRef l), <[l := o]> h) ∧ h !! l = None ∧
       h ⊆ <[l := o]> h.
Proof.
  exists (fresh (dom h)).
  assert (h !! fresh (dom h) = None) as Hf by apply not_elem_of_dom, is_fresh.
  split; [done|]. split; [done|]. by apply insert_subseteq.
Qed.

(** [filters.get(k)], its truth value and [filters[k]]. *)
Lemma bag_get h fv f (k : string) :
  is_bag h fv f →
  ∃ sv, dict_get fv (VAtom (PStr k)) VNone h = (Ok sv, h) ∧
        truth sv h = (Ok (truthy (f !! k)), h) ∧
        ∀ s, f !! k = Some s →
             dict_getitem fv k h = (Ok sv, h) ∧
             iterate sv h = (Ok (VAtom <$> s), h) ∧ is_set h sv s.
Proof.
  intros (l & entries & -> & Hl & He). specialize (He k).
  unfold dict_get, dict_getitem. run. rewrite Hl.
  destruct (f !! k) as [s|].
  - destruct He as (sv & -> & (ls & -> & Hls)). exists (VRef ls). simpl.
    split; [done|]. split.
    + unfold truth. run. rewrite Hls. by destruct s.
    + intros ? [= <-]. split; [done|]. split; [|by exists ls].
      unfold iterate. run. by rewrite Hls.
  - rewrite He. exists VNone. by repeat split.
Qed.

(** [course.get(k, default)] for a default that represents [d]. *)
Lemma course_get h v c (k : string) dv d :
  is_course h v c → is_field h dv d →
  ∃ fv, dict_get v (VAtom (PStr k)) dv h = (Ok fv, h) ∧
        is_field h fv (default d (c !! k)).
Proof.
  intros (l & entries & -> & Hl & He) Hd. specialize (He k).
  unfold dict_get. run. rewrite Hl.
  destruct (c !! k) as [p|].
  - destruct He as (fv & -> & Hfv). by exists fv.
  - rewrite He. by exists dv.
Qed.

Lemma contains_field h v p (x : scalar) :
  is_field h v p → contains v (VAtom x) h = (py_in x p, h).
Proof.
  destruct p as [|[n|s]|items]; simpl.
  - by intros ->.
  - by intros ->.
  - intros ->. by destruct x.
  - intros (l & -> & Hl). unfold contains. run.
    rewrite Hl. do 2 f_equal.
    apply bool_decide_ext. rewrite list_elem_of_fmap. split.
    + by intros (y & [= ->] & Hy).
    + intros Hx. by exists x.
Qed.

Lemma contains_set h v s (x : val) :
  is_set h v s →
  contains v x h =
  (match x with
   | VAtom a => Ok (bool_decide (a ∈ s))
   | VNone => Ok false
   | VRef _ => Raise TypeError
   end, h).
Proof.
  intros (l & -> & Hl). unfold contains. run.
  rewrite Hl. by destruct x.
Qed.

Lemma any_run {A B} (p : A → M bool) (q : B → res bool) (g : B → A)
    (xs : list B) h :
  (∀ x, p (g x) h = (q x, h)) → any p (g <$> xs) h = (py_any q xs, h).
Proof.
  intros Hp. induction xs as [|x xs IH]; simpl; [done|].
  rewrite bind_run, Hp. destruct (q x) as [[]|e]; simpl; done.
Qed.

Variable lim : N.

Lemma subjects_match_run h fv f v c :
  is_bag h fv f → is_course h v c →
  ∃ h', Methods.subjects_match fv v h = (subjects_match f c, h') ∧ h ⊆ h'.
Proof.
  intros Hbag Hc.
  destruct (bag_get h fv f "subjects" Hbag) as (sv & Hget & Htruth & _).
  unfold Methods.subjects_match, subjects_match.
  rewrite bind_run, Hget, bind_run, Htruth.
  destruct (truthy (f !! "subjects")) eqn:Ht; [|by exists h].
  destruct (f !! "subjects") as [s|] eqn:Hf; [|done].
  rewrite bind_run. destruct (alloc_run (OList []) h) as (l & -> & Hl & Hsub).
  set (h1 := <[l := OList []]> h) in *.
  assert (is_field h1 (VRef l) (PList [])) as Hdflt.
  { exists l. split; [done|]. apply lookup_insert_eq. }
  destruct (course_get h1 v c "subjects" _ _ (is_course_mono _ _ _ _ Hsub Hc) Hdflt)
    as (cv & Hcg & Hfield).
  destruct (bag_get h1 fv f "subjects" (is_bag_mono _ _ _ _ Hsub Hbag))
    as (sv1 & _ & _ & Hitem).
  destruct (Hitem s Hf) as (Hgi & Hit & _).
  rewrite bind_run, Hcg, bind_run, Hgi, bind_run, Hit. cbn [default from_option id].
  exists h1. split; [|done].
  apply (any_run _ (λ x, py_in x (default (PList []) (c !! "subjects"))) VAtom).
  intros x. by apply contains_field.
Qed.

Lemma difficulty_match_run h fv f v c :
  is_bag h fv f → is_course h v c →
  ∃ h', Methods.difficulty_match fv v h = (difficulty_match f c, h') ∧ h ⊆ h'.
Proof.
  intros Hbag Hc.
  destruct (bag_get h fv f "difficulty" Hbag) as (sv & Hget & Htruth & _).
  unfold Methods.difficulty_match, difficulty_match.
  rewrite bind_run, Hget, bind_run, Htruth.
  destruct (truthy (f !! "difficulty")) eqn:Ht; [|by exists h].
  destruct (f !! "difficulty") as [s|] eqn:Hf; [|done].
  destruct (course_get h v c "difficulty" (VAtom (PStr "")) (PAtom (PStr "")) Hc)
    as (cd & Hcg & Hfield); [done|].
  rewrite bind_run, Hcg, bind_run.
  destruct (alloc_run (ODict (VAtom <$> dict_inverse DIFFICULTY_TO_LEVEL_items)) h)
    as (l & -> & Hl & Hsub).
  set (h1 := <[l := _]> h) in *.
  destruct (bag_get h1 fv f "difficulty" (is_bag_mono _ _ _ _ Hsub Hbag))
    as (sv1 & _ & _ & Hitem).
  destruct (Hitem s Hf) as (Hgi & _ & Hset).
  exists h1. split; [|done]. rewrite bind_run.
  assert (h1 !! l = Some (ODict (VAtom <$> dict_inverse DIFFICULTY_TO_LEVEL_items)))
    as Hl1 by apply lookup_insert_eq.
  cbn [default from_option id].
  destruct (default (PAtom (PStr "")) (c !! "difficulty")) as [|a|items];
    simpl in Hfield.
  - subst cd. unfold dict_get. run. rewrite Hl1. simpl.
    change (match dict_getitem fv "difficulty" h1 with
            | (Ok x, h') => contains x VNone h'
            | (Raise e, h') => (Raise e, h')
            end = (Ok false, h1)).
    by rewrite Hgi, (contains_set _ _ _ _ Hset).
  - subst cd. unfold dict_get. run. rewrite Hl1. simpl.
    rewrite lookup_fmap.
    change (match dict_getitem fv "difficulty" h1 with
            | (Ok x, h') =>
              contains x (default (VAtom a)
                (VAtom <$> dict_inverse DIFFICULTY_TO_LEVEL_items !! a)) h'
            | (Raise e, h') => (Raise e, h')
            end =
            (Ok (bool_decide
               (default a (dict_inverse DIFFICULTY_TO_LEVEL_items !! a) ∈ s)), h1)).
    rewrite Hgi.
    by destruct (dict_inverse DIFFICULTY_TO_LEVEL_items !! a);
      rewrite (contains_set _ _ _ _ Hset).
  - destruct Hfield as (l' & -> & _). unfold dict_get. run. by rewrite Hl1.
Qed.

Lemma elem_of_PInt_fmap (n : Z) (acc : list Z) : PInt n ∈ PInt <$> acc ↔ n ∈ acc.
Proof.
  rewrite list_elem_of_fmap. split.
  - by intros (y & [= ->] & Hy).
  - intros Hn. by exists n.
Qed.

Lemma set_add_member_run h l (n : Z) (acc : list Z) :
  h !! l = Some (OSet (PInt <$> acc)) →
  set_add_member (VRef l) (PInt n) h =
  (Ok (), <[l := OSet (PInt <$> set_add n acc)]> h).
Proof.
  intros Hl. unfold set_add_member. run. rewrite Hl. do 3 f_equal.
  unfold set_add. rewrite (bool_decide_ext _ _ (elem_of_PInt_fmap n acc)).
  case_bool_decide; [done|]. by rewrite fmap_app.
Qed.

Lemma for_each_cons {A} (body : A → M unit) x (xs : list A) h :
  for_each body (x :: xs) h =
  match body x h with
  | (Ok _, h') => for_each body xs h'
  | (Raise e, h') => (Raise e, h')
  end.
Proof. done. Qed.

(** The loop that fills [user_grades] writes to that set only. *)
Lemma add_user_grades_run h l (grades : list scalar) (acc : list Z) :
  h !! l = Some (OSet (PInt <$> acc)) →
  ∃ o, for_each (Methods.add_user_grade lim (VRef l)) (VAtom <$> grades) h =
         (_ ← collect_user_grades lim grades acc; Ok (), <[l := o]> h) ∧
       ∀ ug, collect_user_grades lim grades acc = Ok ug → o = OSet (PInt <$> ug).
Proof.
  revert h acc. induction grades as [|[n|s] grades IH]; intros h acc Hl;
    cbn [collect_user_grades].
  - exists (OSet (PInt <$> acc)). rewrite insert_id by done.
    split; [done|]. by intros ? [= <-].
  - rewrite fmap_cons, for_each_cons.
    change (Methods.add_user_grade lim (VRef l) (VAtom (PInt n)))
      with (set_add_member (VRef l) (PInt n)).
    rewrite (set_add_member_run _ _ _ _ Hl).
    destruct (IH (<[l := OSet (PInt <$> set_add n acc)]> h) (set_add n acc))
      as (o & Heq & Ho); [apply lookup_insert_eq|].
    exists o. by rewrite Heq, insert_insert_eq.
  - rewrite fmap_cons, for_each_cons.
    change (Methods.add_user_grade lim (VRef l) (VAtom (PStr s)))
      with (if py_isdigit s
            then n ← lift (py_int lim s); set_add_member (VRef l) (PInt n)
            else mret ()).
    destruct (py_isdigit s).
    + rewrite bind_run. unfold lift.
      destruct (py_int lim s) as [n|e]; cbn [mbind res_bind].
      * rewrite (set_add_member_run _ _ _ _ Hl).
        destruct (IH (<[l := OSet (PInt <$> set_add n acc)]> h) (set_add n acc))
          as (o & Heq & Ho); [apply lookup_insert_eq|].
        exists o. by rewrite Heq, insert_insert_eq.
      * exists (OSet (PInt <$> acc)). rewrite insert_id by done. by split.
    + by apply IH.
Qed.

Lemma grade_match_run h fv f v c :
  is_bag h fv f → is_course h v c →
  ∃ h', Methods.grade_match lim fv v h = (grade_match lim f c, h') ∧ h ⊆ h'.
Proof.
  intros Hbag Hc.
  destruct (bag_get h fv f "grade" Hbag) as (sv & Hget & Htruth & _).
  unfold Methods.grade_match, grade_match.
  rewrite bind_run, Hget, bind_run, Htruth.
  destruct (truthy (f !! "grade")) eqn:Ht; [|by exists h].
  destruct (f !! "grade") as [s|] eqn:Hf; [|done].
  rewrite bind_run. destruct (alloc_run (OList []) h) as (l1 & -> & Hl1 & Hsub1).
  set (h1 := <[l1 := OList []]> h) in *.
  assert (is_field h1 (VRef l1) (PList [])) as Hdflt.
  { exists l1. split; [done|]. apply lookup_insert_eq. }
  destruct (course_get h1 v c "grade" _ _ (is_course_mono _ _ _ _ Hsub1 Hc) Hdflt)
    as (cg & Hcg & Hfield).
  rewrite bind_run, Hcg, bind_run.
  destruct (alloc_run (OSet []) h1) as (l2 & -> & Hl2 & Hsub2).
  set (h2 := <[l2 := OSet []]> h1) in *.
  assert (h ⊆ h2) as Hsub by (by transitivity h1).
  destruct (bag_get h2 fv f "grade" (is_bag_mono _ _ _ _ Hsub Hbag))
    as (sv2 & _ & _ & Hitem).
  destruct (Hitem s Hf) as (Hgi & Hit & _).
  rewrite bind_run, Hgi, bind_run, Hit, bind_run.
  destruct (add_user_grades_run h2 l2 s []) as (o & -> & Ho);
    [apply lookup_insert_eq|].
  cbn [default from_option id].
  assert (h1 ⊆ <[l2 := o]> h2) as Hsub3.
  { unfold h2. rewrite insert_insert_eq. by apply insert_subseteq. }
  exists (<[l2 := o]> h2). split; [|by transitivity h1].
  destruct (collect_user_grades lim s []) as [ug|e]; simpl; [|done].
  pose proof (Ho ug eq_refl) as ->. rewrite bind_run. unfold iterate. run.
  rewrite lookup_insert_eq. simpl. rewrite <-list_fmap_compose.
  apply (any_run _ (λ g, py_in (PInt g) (default (PList []) (c !! "grade")))
                 (VAtom ∘ PInt)).
  intros x. apply contains_field. by apply (is_field_mono h1).
Qed.

Lemma list_append_run h l (items : list val) v :
  h !! l = Some (OList items) →
  list_append (VRef l) v h = (Ok (), <[l := OList (items ++ [v])]> h).
Proof. intros Hl. unfold list_append. run. by rewrite Hl. Qed.

Lemma visit_course_run pre lr h fv f v c kept :
  is_bag pre fv f → is_course pre v c → loop_inv pre lr h kept →
  ∃ h',
    match course_matches lim f c with
    | Ok keep =>
      Methods.visit_course lim fv (VRef lr) v h = (Ok (), h') ∧
      loop_inv pre lr h' (if keep then kept ++ [c] else kept)
    | Raise e =>
      Methods.visit_course lim fv (VRef lr) v h = (Raise e, h') ∧ pre ⊆ h'
    end.
Proof.
  intros Hbag Hc (Hpre & Hlr & rs & Hrs & Hkept).
  unfold Methods.visit_course, course_matches.
  destruct (subjects_match_run h fv f v c) as (h1 & Hs & Hsub1);
    [by eapply is_bag_mono|by eapply is_course_mono|].
  rewrite bind_run, Hs.
  destruct (subjects_match f c) as [sm|e]; simpl; [|exists h1; split; [done|by etrans]].
  destruct (difficulty_match_run h1 fv f v c) as (h2 & Hd & Hsub2);
    [eapply is_bag_mono; [|done]; by etrans
    |eapply is_course_mono; [|done]; by etrans|].
  rewrite bind_run, Hd.
  destruct (difficulty_match f c) as [dm|e]; simpl;
    [|exists h2; split; [done|by repeat (etrans; [done|])]].
  destruct (grade_match_run h2 fv f v c) as (h3 & Hg & Hsub3);
    [eapply is_bag_mono; [|done]; by repeat (etrans; [done|])
    |eapply is_course_mono; [|done]; by repeat (etrans; [done|])|].
  rewrite bind_run, Hg.
  assert (pre ⊆ h3) as Hpre3 by (by repeat (etrans; [done|])).
  destruct (grade_match lim f c) as [gm|e]; simpl; [|by exists h3].
  assert (h3 !! lr = Some (OList rs)) as Hrs3.
  { eapply lookup_weaken; [done|]. by repeat (etrans; [done|]). }
  destruct (sm && dm && gm).
  - rewrite (list_append_run _ _ _ _ Hrs3). eexists. split; [done|].
    split; [by apply insert_subseteq_r|]. split; [done|].
    eexists. split; [apply lookup_insert_eq|].
    apply Forall2_app; [done|]. by apply Forall2_cons.
  - exists h3. split; [done|]. split; [done|]. split; [done|]. by exists rs.
Qed.

Lemma visit_courses_run pre lr h fv f (vs : list val) (cs kept : list course) :
  is_bag pre fv f → Forall2 (is_course pre) vs cs → loop_inv pre lr h kept →
  ∃ h',
    match filter_loop lim f cs kept with
    | Ok out =>
      for_each (Methods.visit_course lim fv (VRef lr)) vs h = (Ok (), h') ∧
      loop_inv pre lr h' out
    | Raise e =>
      for_each (Methods.visit_course lim fv (VRef lr)) vs h = (Raise e, h') ∧
      pre ⊆ h'
    end.
Proof.
  intros Hbag Hvs. revert h kept.
  induction Hvs as [|v c vs cs Hc Hvs IH]; intros h kept Hinv; simpl.
  - exists h. by split.
  - destruct (visit_course_run pre lr h fv f v c kept Hbag Hc Hinv) as (h1 & Hv).
    rewrite bind_run.
    destruct (course_matches lim f c) as [keep|e]; simpl.
    + destruct Hv as [-> Hinv1]. by apply IH.
    + destruct Hv as [-> Hsub]. by exists h1.
Qed.

(** The evaluator over the store returns, or raises, what the
    functional evaluator does on the values the store represents, and
    the list it returns holds the records kept. *)
Theorem store_filter_courses_locally_refines h fv cv f (cs : list course) :
  is_bag h fv f → is_course_list h cv cs →
  ∃ h', h ⊆ h' ∧
    match _filter_courses_locally lim cs f with
    | Ok out =>
      ∃ v, Methods._filter_courses_locally lim cv fv h = (Ok v, h') ∧
           is_course_list h' v out
    | Raise e => Methods._filter_courses_locally lim cv fv h = (Raise e, h')
    end.
Proof.
  intros Hbag (l & vs & -> & Hl & Hvs).
  unfold Methods._filter_courses_locally, _filter_courses_locally.
  rewrite bind_run. unfold truth. run. rewrite Hl. simpl.
  destruct Hvs as [|v c vs cs Hc Hvs].
  - destruct (alloc_run (OList []) h) as (lr & Hal & Hlr & Hsub).
    exists (<[lr := OList []]> h). split; [done|].
    exists (VRef lr). split; [done|].
    exists lr, []. split; [done|]. split; [apply lookup_insert_eq|constructor].
  - simpl.
    change (∃ h', h ⊆ h' ∧
      match filter_loop lim f (c :: cs) [] with
      | Ok out =>
        ∃ v0, (results ← alloc (OList []);
               xs ← iterate (VRef l);
               for_each (Methods.visit_course lim fv results) xs;;
               mret results) h = (Ok v0, h') ∧ is_course_list h' v0 out
      | Raise e =>
        (results ← alloc (OList []);
         xs ← iterate (VRef l);
         for_each (Methods.visit_course lim fv results) xs;;
         mret results) h = (Raise e, h')
      end).
    rewrite bind_run.
    destruct (alloc_run (OList []) h) as (lr & -> & Hlr & Hsub).
    set (h1 := <[lr := OList []]> h) in *.
    rewrite bind_run. unfold iterate. run.
    rewrite (lookup_weaken _ _ _ _ Hl Hsub). simpl.
    destruct (visit_courses_run h lr h1 fv f (v :: vs) (c :: cs) [] Hbag)
      as (h2 & Hloop).
    { by constructor. }
    { split; [done|]. split; [done|]. exists []. split; [apply lookup_insert_eq|constructor]. }
    change (∃ h', h ⊆ h' ∧
      match filter_loop lim f (c :: cs) [] with
      | Ok out =>
        ∃ v0,
          match for_each (Methods.visit_course lim fv (VRef lr)) (v :: vs) h1 with
          | (Ok _, h') => (Ok (VRef lr), h')
          | (Raise e, h') => (Raise e, h')
          end = (Ok v0, h') ∧ is_course_list h' v0 out
      | Raise e =>
        match for_each (Methods.visit_course lim fv (VRef lr)) (v :: vs) h1 with
        | (Ok _, h') => (Ok (VRef lr), h')
        | (Raise e, h') => (Raise e, h')
        end = (Raise e, h')
      end).
    exists h2.
    destruct (filter_loop lim f (c :: cs) []) as [out|e].
    + destruct Hloop as (-> & Hpre & _ & rs & Hrs & Hkept). split; [done|].
      exists (VRef lr). split; [done|]. exists lr, rs. split; [done|].
      split; [done|]. eapply Forall2_impl; [done|].
      intros ? ?. by apply is_course_mono.
    + destruct Hloop as (-> & Hpre). by split.
Qed.

Lemma params_dict_set_param key found p :
  match found with
  | Some w => ODict (<[PStr key := VAtom w]> (kmap PStr (VAtom <$> p)))
  | None => params_dict p
  end = params_dict (set_param key found p).
Proof.
  destruct found as [w|]; [|done]. unfold params_dict, set_param.
  rewrite fmap_insert, kmap_insert; [done|apply _].
Qed.

Lemma dict_setitem_run h l entries key v :
  h !! l = Some (ODict entries) →
  dict_setitem (VRef l) key v h =
  (Ok (), <[l := ODict (<[PStr key := v]> entries)]> h).
Proof. intros Hl. unfold dict_setitem. run. by rewrite Hl. Qed.

Lemma assign_first_run h l table key (xs : list scalar) p :
  h !! l = Some (params_dict p) →
  assign_first table (VRef l) key (VAtom <$> xs) h =
  (Ok (), <[l := params_dict (set_param key (first_in_table table xs) p)]> h).
Proof.
  intros Hl. induction xs as [|x xs IH]; simpl.
  - by rewrite insert_id.
  - rewrite bind_run. unfold table_lookup. run.
    destruct (table !! x) as [w|]; [|done].
    rewrite (dict_setitem_run _ _ _ _ _ Hl).
    by rewrite (params_dict_set_param key (Some w) p).
Qed.

Lemma assign_first_grade_run h l (xs : list scalar) p :
  h !! l = Some (params_dict p) →
  Methods.assign_first_grade lim (VRef l) (VAtom <$> xs) h =
  match first_grade_in_table lim xs with
  | Ok found => (Ok (), <[l := params_dict (set_param "grade_id" found p)]> h)
  | Raise e => (Raise e, h)
  end.
Proof.
  intros Hl. induction xs as [|x xs IH]; simpl.
  - by rewrite insert_id.
  - rewrite bind_run. unfold Methods.normalize, lift.
    destruct (normalize_grade lim x) as [g|e]; simpl; [|done].
    rewrite bind_run. unfold table_lookup. run.
    destruct (GRADE_TO_ID !! g) as [w|]; [|done].
    rewrite (dict_setitem_run _ _ _ _ _ Hl).
    by rewrite (params_dict_set_param "grade_id" (Some w) p).
Qed.

(** One of the first two blocks of the translator, followed by the
    rest [K] of the method. *)
Lemma translate_block_run pre h fv f l (k key : string) table p :
  is_bag pre fv f → pre ⊆ h → pre !! l = None →
  h !! l = Some (params_dict p) →
  ∃ h',
    (∀ B (K : unit → M B),
       (s ← dict_get fv (VAtom (PStr k)) VNone;
        b ← truth s;
        (if b : bool then
           members ← dict_getitem fv k;
           xs ← iterate members;
           assign_first table (VRef l) key xs
         else mret ()) ≫= K) h = K () h') ∧
    pre ⊆ h' ∧
    h' !! l = Some (params_dict
      (if truthy (f !! k)
       then set_param key (first_in_table table (default [] (f !! k))) p
       else p)).
Proof.
  intros Hbag Hpre Hl Hp.
  destruct (bag_get h fv f k (is_bag_mono _ _ _ _ Hpre Hbag))
    as (sv & Hget & Htruth & Hitem).
  destruct (truthy (f !! k)) eqn:Ht.
  - destruct (f !! k) as [s|] eqn:Hf; [|done].
    destruct (Hitem s eq_refl) as (Hgi & Hit & _).
    eexists. split; [|split; [|apply lookup_insert_eq]].
    + intros B K. rewrite bind_run, Hget, bind_run, Htruth.
      rewrite bind_run, bind_run, Hgi, bind_run, Hit.
      by rewrite (assign_first_run _ _ _ _ _ _ Hp).
    + by apply insert_subseteq_r.
  - exists h. split; [|done]. intros B K.
    by rewrite bind_run, Hget, bind_run, Htruth.
Qed.

(** The translator over the store returns, or raises, what the
    functional translator does, in a dict of its own. *)
Theorem store_convert_filters_refines h fv f :
  is_bag h fv f →
  ∃ h', h ⊆ h' ∧
    match _convert_filters_to_api_params lim f with
    | Ok params =>
      ∃ v, Methods._convert_filters_to_api_params lim fv h = (Ok v, h') ∧
           is_params h' v params
    | Raise e => Methods._convert_filters_to_api_params lim fv h = (Raise e, h')
    end.
Proof.
  intros Hbag.
  unfold Methods._convert_filters_to_api_params, _convert_filters_to_api_params.
  rewrite bind_run.
  destruct (alloc_run (ODict ∅) h) as (l & -> & Hl & Hsub).
  set (h1 := <[l := ODict ∅]> h) in *.
  assert (h1 !! l = Some (params_dict ∅)) as Hp0.
  { unfold h1, params_dict. by rewrite lookup_insert_eq, fmap_empty, kmap_empty. }
  destruct (translate_block_run h h1 fv f l "subjects" "category_id"
              SUBJECT_TO_CATEGORY ∅ Hbag Hsub Hl Hp0) as (h2 & Hrun1 & Hsub2 & Hp1).
  match type of Hp1 with _ = Some (params_dict ?p) => set (p1 := p) in * end.
  destruct (translate_block_run h h2 fv f l "difficulty" "level"
              DIFFICULTY_TO_LEVEL p1 Hbag Hsub2 Hl Hp1) as (h3 & Hrun2 & Hsub3 & Hp2).
  match type of Hp2 with _ = Some (params_dict ?p) => set (p2 := p) in * end.
  rewrite Hrun1, Hrun2.
  destruct (bag_get h3 fv f "grade" (is_bag_mono _ _ _ _ Hsub3 Hbag))
    as (sv & Hget & Htruth & Hitem).
  rewrite bind_run, Hget, bind_run, Htruth.
  destruct (truthy (f !! "grade")) eqn:Ht.
  - destruct (f !! "grade") as [s|] eqn:Hf; [|done].
    destruct (Hitem s eq_refl) as (Hgi & Hit & _).
    rewrite bind_run, bind_run, Hgi, bind_run, Hit.
    rewrite (assign_first_grade_run _ _ _ _ Hp2). cbn [default from_option id].
    destruct (first_grade_in_table lim s) as [found|e]; simpl.
    + eexists. split; [by apply insert_subseteq_r|].
      exists (VRef l). split; [done|]. exists l. split; [done|].
      apply lookup_insert_eq.
    + by exists h3.
  - exists h3. split; [done|]. exists (VRef l). split; [done|]. by exists l.
Qed.

End StoreRefinement.

(** ** Further properties of the evaluator, the translator, the
    service and the settings *)
(** * Further properties of the code *)

Section EvaluatorLaws.
Variable lim : N.
Implicit Types (f : filter_bag) (c : course).

Lemma filter_loop_kept f (cs acc out : list course) :
  filter_loop lim f cs acc = Ok out → out = acc ++ List.filter (kept lim f) cs.
Proof.
  revert acc. induction cs as [|c cs IH]; intros acc; simpl.
  - intros [= <-]. by rewrite app_nil_r.
  - unfold kept at 1.
    destruct (course_matches lim f c) as [[]|e]; simpl; [| |done].
    + intros ->%IH. by rewrite <-app_assoc.
    + apply IH.
Qed.

Lemma filter_loop_Ok_matches f (cs acc out : list course) c :
  filter_loop lim f cs acc = Ok out → c ∈ cs → is_Ok (course_matches lim f c).
Proof.
  revert acc. induction cs as [|c' cs IH]; intros acc Hl Hc.
  - by apply elem_of_nil in Hc.
  - simpl in Hl. destruct (course_matches lim f c') as [b|e] eqn:Hm; [|done].
    apply elem_of_cons in Hc as [->|Hc]; [by exists b|]. by eapply IH.
Qed.

Lemma filter_sublist {A} (p : A → bool) (l : list A) : sublist (List.filter p l) l.
Proof.
  induction l as [|x l IH]; simpl; [constructor|].
  destruct (p x); by constructor.
Qed.

Lemma filter_In_kept {A} (p : A → bool) (l : list A) x :
  x ∈ List.filter p l ↔ x ∈ l ∧ p x = true.
Proof. rewrite !list_elem_of_In. apply filter_In. Qed.

Lemma filter_courses_locally_kept (courses out : list course) f :
  _filter_courses_locally lim courses f = Ok out →
  out = List.filter (kept lim f) courses.
Proof.
  destruct courses as [|c cs]; [by intros [= <-]|].
  unfold _filter_courses_locally. by intros ->%filter_loop_kept.
Qed.

Lemma kept_true f c : kept lim f c = true ↔ course_matches lim f c = Ok true.
Proof. unfold kept. by destruct (course_matches lim f c) as [[]|]. Qed.

(** X1. The evaluator never invents, copies or reorders a record: what it
    returns is a sublist of its input, and every record of it passed the
    three predicates. *)
Theorem X_evaluator_returns_matching_sublist (courses out : list course) f :
  _filter_courses_locally lim courses f = Ok out →
  sublist out courses ∧ ∀ c, c ∈ out → course_matches lim f c = Ok true.
Proof.
  intros ->%filter_courses_locally_kept. split; [apply filter_sublist|].
  intros c [_ Hk]%filter_In_kept. by apply kept_true.
Qed.

Lemma filter_courses_locally_all_kept (courses : list course) f :
  (∀ c, c ∈ courses → course_matches lim f c = Ok true) →
  _filter_courses_locally lim courses f = Ok courses.
Proof.
  intros Hk. destruct courses as [|c cs]; [done|].
  unfold _filter_courses_locally.
  rewrite (filter_loop_pure lim f (λ _, true)); [|done].
  by rewrite filter_true.
Qed.

(** X2. Filtering the result again with the same filter bag changes nothing. *)
Theorem X_evaluator_idempotent (courses out : list course) f :
  _filter_courses_locally lim courses f = Ok out →
  _filter_courses_locally lim out f = Ok out.
Proof.
  intros ->%filter_courses_locally_kept. apply filter_courses_locally_all_kept.
  intros c [_ Hk]%filter_In_kept. by apply kept_true.
Qed.

Lemma filter_loop_app f (l1 l2 acc : list course) :
  filter_loop lim f (l1 ++ l2) acc =
  filter_loop lim f l1 acc ≫= filter_loop lim f l2.
Proof.
  revert acc. induction l1 as [|c l1 IH]; intros acc; simpl; [done|].
  destruct (course_matches lim f c) as [b|e]; simpl; [apply IH|done].
Qed.

Lemma filter_loop_raise_acc f (cs acc acc' : list course) e :
  filter_loop lim f cs acc = Raise e → filter_loop lim f cs acc' = Raise e.
Proof.
  revert acc acc'. induction cs as [|c cs IH]; intros acc acc'; simpl; [done|].
  destruct (course_matches lim f c) as [b|e']; simpl; [apply IH|done].
Qed.

Lemma filter_loop_acc f (cs acc : list course) :
  filter_loop lim f cs acc = (λ out, acc ++ out) <$> filter_loop lim f cs [].
Proof.
  destruct (filter_loop lim f cs []) as [out|e] eqn:Hnil.
  - assert (∀ c, c ∈ cs → course_matches lim f c = Ok (kept lim f c)) as Hk.
    { intros c Hc. destruct (filter_loop_Ok_matches _ _ _ _ _ Hnil Hc) as [b Hb].
      unfold kept. rewrite Hb. by destruct b. }
    rewrite (filter_loop_pure lim f (kept lim f)) by done. simpl.
    by rewrite (filter_loop_kept _ _ _ _ Hnil).
  - simpl. by apply (filter_loop_raise_acc f cs []).
Qed.

(** X3. The evaluator works record by record: on a concatenation it
    returns the concatenation of the results, and raises what the first
    part raises or else what the second part raises. *)
Theorem X_evaluator_concatenation (l1 l2 : list course) f :
  _filter_courses_locally lim (l1 ++ l2) f =
  (o1 ← _filter_courses_locally lim l1 f;
   o2 ← _filter_courses_locally lim l2 f;
   Ok (o1 ++ o2)).
Proof.
  assert (∀ l, _filter_courses_locally lim l f = filter_loop lim f l []) as Heq.
  { by intros [|??]. }
  rewrite !Heq, filter_loop_app.
  destruct (filter_loop lim f l1 []) as [o1|e]; simpl; [|done].
  rewrite filter_loop_acc.
  by destruct (filter_loop lim f l2 []).
Qed.

End EvaluatorLaws.

Section EvaluatorErrors.
Variable lim : N.
Implicit Types (f : filter_bag) (c : course).

(** X4. On the records of the data model ([subjects] and [grade]
    absent or lists, [difficulty] anything but a list) the evaluator
    raises in one case only: the candidate list is not empty and the
    grade set has a digit-string that [int] rejects; the error is then
    [ValueError].  It returns in every other case. *)
Theorem X_evaluator_error_condition (courses : list course) f :
  Forall (λ c, course_typed c = true) courses →
  (_filter_courses_locally lim courses f = Raise ValueError ∧
   courses ≠ [] ∧
   ∃ x e, x ∈ members f "grade" ∧ grade_value lim x = Some (Raise e)) ∨
  (_filter_courses_locally lim courses f =
     Ok (List.filter (spec_keep lim f) courses) ∧
   (courses = [] ∨ grades_convert lim (members f "grade"))).
Proof.
  intros Ht. destruct courses as [|c cs].
  { right. split; [done|by left]. }
  destruct (grades_convert_dec lim (members f "grade")) as [Hc|(x & e & Hx & Hv)].
  - right. split; [by apply filter_courses_locally_spec|by right].
  - left. split; [|split; [done|by exists x, e]].
    apply (filter_courses_locally_raises lim f c cs x e); [|done..].
    by apply Forall_cons in Ht as [? _].
Qed.

Lemma same_members_nil (l l' : list scalar) :
  (∀ x, x ∈ l ↔ x ∈ l') → l = [] ↔ l' = [].
Proof.
  intros Hm. split; intros ->; apply elem_of_nil_inv; intros x Hx;
    by apply Hm, elem_of_nil in Hx.
Qed.

Lemma predicates_same_members f f' c :
  course_typed c = true →
  (∀ dim x, x ∈ members f dim ↔ x ∈ members f' dim) →
  course_matches lim f c = course_matches lim f' c.
Proof.
  unfold course_typed. intros [[Hs Hd]%andb_true_iff Hg]%andb_true_iff Hm.
  assert (∀ l, c !! "difficulty" ≠ Some (PList l)) as Hd'.
  { intros l Hl. by rewrite Hl in Hd. }
  assert (subjects_match f c = subjects_match f' c) as Hsm.
  { rewrite !subjects_match_typed by done. f_equal. unfold spec_subject_match.
    pose proof (same_members_nil _ _ (Hm "subjects")) as Hnil.
    destruct (members f "subjects") as [|x l] eqn:E,
             (members f' "subjects") as [|x' l'] eqn:E'; try done.
    - by pose proof (proj1 Hnil eq_refl).
    - by pose proof (proj2 Hnil eq_refl).
    - apply existsb_same_members. intros y. rewrite <-E, <-E'. apply Hm. }
  assert (difficulty_match f c = difficulty_match f' c) as Hdm.
  { rewrite !difficulty_match_typed by done. f_equal. unfold spec_difficulty_match.
    pose proof (same_members_nil _ _ (Hm "difficulty")) as Hnil.
    destruct (members f "difficulty") as [|x l] eqn:E,
             (members f' "difficulty") as [|x' l'] eqn:E'; try done.
    - by pose proof (proj1 Hnil eq_refl).
    - by pose proof (proj2 Hnil eq_refl).
    - destruct (default _ _); try done. apply bool_decide_ext.
      rewrite <-E, <-E'. apply Hm. }
  assert (grade_match lim f c = grade_match lim f' c) as Hgm.
  { unfold grade_match. rewrite !truthy_members.
    pose proof (same_members_nil _ _ (Hm "grade")) as Hnil.
    fold (members f "grade") (members f' "grade").
    destruct (members f "grade") as [|x l] eqn:E,
             (members f' "grade") as [|x' l'] eqn:E'; try done.
    - by pose proof (proj1 Hnil eq_refl).
    - by pose proof (proj2 Hnil eq_refl).
    - apply collect_same_values. intros v.
      split; intros (y & Hy & Hv); exists y; (split; [|done]).
      + rewrite <-E'. apply Hm. by rewrite E.
      + rewrite <-E. apply Hm. by rewrite E'. }
  unfold course_matches. by rewrite Hsm, Hdm, Hgm.
Qed.

(** X5. On the records of the data model ([subjects] and [grade]
    absent or lists, [difficulty] anything but a list) the evaluator
    does not depend on the order in which the user's sets are iterated,
    nor on whether an unconstrained dimension is absent or an empty
    set: two filter bags with the same members in every dimension give
    the same outcome. *)
Theorem X_evaluator_order_independent (courses : list course) f f' :
  Forall (λ c, course_typed c = true) courses →
  (∀ dim x, x ∈ members f dim ↔ x ∈ members f' dim) →
  _filter_courses_locally lim courses f = _filter_courses_locally lim courses f'.
Proof.
  intros Ht Hm. destruct courses as [|c cs]; [done|].
  unfold _filter_courses_locally.
  generalize ([] : list course). revert Ht. generalize (c :: cs). clear c cs.
  intros cs Ht. induction Ht as [|c cs Hc Ht IH]; intros acc; simpl; [done|].
  rewrite (predicates_same_members f f' c Hc Hm).
  destruct (course_matches lim f' c) as [b|e]; simpl; [apply IH|done].
Qed.

Lemma py_any_true_inv {A} (p : A → res bool) (l : list A) :
  py_any p l = Ok true → ∃ x, x ∈ l ∧ p x = Ok true.
Proof.
  induction l as [|x l IH]; simpl; [done|].
  destruct (p x) as [[]|e] eqn:Hx; simpl; try done.
  - intros _. exists x. split; [by left|done].
  - intros (y & Hy & Hpy)%IH. exists y. split; [by right|done].
Qed.

Lemma py_any_Ok_true {A} (p : A → res bool) (l : list A) x b :
  py_any p l = Ok b → x ∈ l → p x = Ok true → b = true.
Proof.
  induction l as [|y l IH]; simpl; intros Ha Hx Hp.
  - by apply elem_of_nil in Hx.
  - destruct (p y) as [[]|e] eqn:Hy; simpl in Ha; try done.
    + by injection Ha.
    + apply elem_of_cons in Hx as [->|Hx]; [congruence|by apply IH].
Qed.

Lemma collect_Ok_members grades ug :
  collect_user_grades lim grades [] = Ok ug →
  ∀ n, n ∈ ug ↔ ∃ x, x ∈ grades ∧ grade_value lim x = Some (Ok n).
Proof.
  intros Hc. destruct (grades_convert_dec lim grades) as [Hg|(x & e & Hx & Hv)].
  - destruct (collect_ok lim grades [] Hg) as (ug' & Hc' & Hug).
    rewrite Hc in Hc'. injection Hc' as <-. intros n.
    rewrite Hug, elem_of_normalized_grades, elem_of_nil. naive_solver.
  - by rewrite (collect_raise lim _ _ _ _ Hx Hv) in Hc.
Qed.

Lemma widens_match f f' c b' :
  widens f f' →
  course_matches lim f c = Ok true → course_matches lim f' c = Ok b' →
  b' = true.
Proof.
  intros Hw (Hs & Hd & Hg)%course_matches_true. unfold course_matches.
  destruct (subjects_match f' c) as [sm|] eqn:Hs'; simpl; [|done].
  destruct (difficulty_match f' c) as [dm|] eqn:Hd'; simpl; [|done].
  destruct (grade_match lim f' c) as [gm|] eqn:Hg'; simpl; [|done].
  intros [= <-].
  assert (sm = true) as ->.
  { revert Hs Hs'. unfold subjects_match. rewrite !truthy_members.
    fold (members f "subjects") (members f' "subjects").
    destruct (Hw "subjects") as [->|[Hne Hsub]]; [by intros _ [= <-]|].
    destruct (members f "subjects") as [|x l] eqn:E; [done|].
    intros (y & Hy & Hpy)%py_any_true_inv.
    destruct (members f' "subjects") as [|x' l'] eqn:E'; [by intros [= <-]|].
    intros Ha. apply (py_any_Ok_true _ _ y _ Ha); [|done].
    by apply Hsub. }
  assert (dm = true) as ->.
  { revert Hd Hd'. unfold difficulty_match. rewrite !truthy_members.
    fold (members f "difficulty") (members f' "difficulty").
    destruct (Hw "difficulty") as [->|[Hne Hsub]]; [by intros _ [= <-]|].
    destruct (members f "difficulty") as [|x l] eqn:E; [done|].
    destruct (members f' "difficulty") as [|x' l'] eqn:E'; [by intros _ [= <-]|].
    destruct (bot_difficulty _) as [[|a|?]|]; simpl; try done.
    intros [= Ha%bool_decide_eq_true] [= <-].
    apply bool_decide_eq_true. by apply Hsub. }
  assert (gm = true) as ->; [|done].
  revert Hg Hg'. unfold grade_match. rewrite !truthy_members.
  fold (members f "grade") (members f' "grade").
  destruct (Hw "grade") as [->|[Hne Hsub]]; [by intros _ [= <-]|].
  destruct (members f "grade") as [|x l] eqn:E; [done|].
  destruct (members f' "grade") as [|x' l'] eqn:E'; [by intros _ [= <-]|].
  cbn [default from_option id].
  destruct (collect_user_grades lim (x :: l) []) as [ug|] eqn:Hc;
    cbn [mbind res_bind]; [|done].
  destruct (collect_user_grades lim (x' :: l') []) as [ug'|] eqn:Hc';
    cbn [mbind res_bind]; [|by intros _ ?].
  intros (n & Hn & Hpn)%py_any_true_inv Ha.
  apply (py_any_Ok_true _ _ n _ Ha); [|done].
  apply (collect_Ok_members _ _ Hc'). apply (collect_Ok_members _ _ Hc) in Hn.
  destruct Hn as (y & Hy & Hv). exists y. split; [by apply Hsub|done].
Qed.

Lemma filter_sublist_impl {A} (p q : A → bool) (l : list A) :
  (∀ x, x ∈ l → p x = true → q x = true) →
  sublist (List.filter p l) (List.filter q l).
Proof.
  induction l as [|x l IH]; intros Hpq; simpl; [constructor|].
  assert (sublist (List.filter p l) (List.filter q l)) as Hsub.
  { apply IH. intros y Hy. apply Hpq. by right. }
  destruct (p x) eqn:Hp.
  - rewrite (Hpq x) by (done || by left). by constructor.
  - destruct (q x); [by constructor|done].
Qed.

(** X6. Selecting more never loses a record: when [f'] adds members to the
    constrained dimensions of [f], or lifts a constraint, every record
    the evaluator keeps under [f] it keeps under [f'], in the same
    order. *)
Theorem X_evaluator_widening (courses out out' : list course) f f' :
  widens f f' →
  _filter_courses_locally lim courses f = Ok out →
  _filter_courses_locally lim courses f' = Ok out' →
  sublist out out'.
Proof.
  intros Hw Hf Hf'.
  rewrite (filter_courses_locally_kept lim _ _ _ Hf),
    (filter_courses_locally_kept lim _ _ _ Hf').
  apply filter_sublist_impl. intros c Hc Hk%kept_true. apply kept_true.
  assert (is_Ok (course_matches lim f' c)) as [b' Hb'].
  { destruct courses as [|c0 cs]; [by apply elem_of_nil in Hc|].
    by eapply filter_loop_Ok_matches. }
  by rewrite Hb', (widens_match f f' c b' Hw Hk Hb').
Qed.

End EvaluatorErrors.

Section TranslatorLaws.
Variable lim : N.
Implicit Types (f : filter_bag) (c : course).

Lemma first_in_table_elem (table : gmap scalar scalar) (xs : list scalar) v :
  first_in_table table xs = Some v → ∃ x, x ∈ xs ∧ table !! x = Some v.
Proof.
  intros Hf. pose proof (first_in_table_spec table xs) as Hs. rewrite Hf in Hs.
  destruct Hs as (l1 & x & l2 & -> & Hx & _). exists x. split; [|done].
  apply elem_of_app. right. by left.
Qed.

(** The loop over the grades: either it stops at the first member whose
    normal form the table knows, every member before it being converted
    and unknown to the table, or it reaches a member that does not
    convert, or it finds nothing. *)
Lemma first_grade_in_table_spec (grades : list scalar) :
  match first_grade_in_table lim grades with
  | Ok (Some v) =>
    ∃ l1 x g l2, grades = l1 ++ x :: l2 ∧ normalize_grade lim x = Ok g ∧
      GRADE_TO_ID !! g = Some v ∧
      ∀ y, y ∈ l1 → ∃ gy, normalize_grade lim y = Ok gy ∧ GRADE_TO_ID !! gy = None
  | Ok None =>
    ∀ y, y ∈ grades → ∃ gy, normalize_grade lim y = Ok gy ∧ GRADE_TO_ID !! gy = None
  | Raise e =>
    e = ValueError ∧
    ∃ l1 x l2, grades = l1 ++ x :: l2 ∧ normalize_grade lim x = Raise ValueError ∧
      ∀ y, y ∈ l1 → ∃ gy, normalize_grade lim y = Ok gy ∧ GRADE_TO_ID !! gy = None
  end.
Proof.
  induction grades as [|x grades IH]; simpl.
  - intros y Hy. by apply elem_of_nil in Hy.
  - destruct (normalize_grade lim x) as [g|e] eqn:Hx; simpl.
    + destruct (GRADE_TO_ID !! g) as [v|] eqn:Hg.
      * exists [], x, g, grades. repeat split; try done.
        intros y Hy. by apply elem_of_nil in Hy.
      * destruct (first_grade_in_table lim grades) as [[v|]|e].
        -- destruct IH as (l1 & x' & g' & l2 & -> & Hx' & Hg' & Hl1).
           exists (x :: l1), x', g', l2. repeat split; try done.
           intros y [->|Hy]%elem_of_cons; [by exists g|by apply Hl1].
        -- intros y [->|Hy]%elem_of_cons; [by exists g|by apply IH].
        -- destruct IH as (-> & l1 & x' & l2 & -> & Hx' & Hl1). split; [done|].
           exists (x :: l1), x', l2. repeat split; try done.
           intros y [->|Hy]%elem_of_cons; [by exists g|by apply Hl1].
    + assert (e = ValueError) as ->.
      { destruct x as [n|s]; simpl in Hx; [done|].
        destruct (py_isdigit s); [|done].
        destruct (py_int lim s) as [n|e'] eqn:Hi; [done|].
        injection Hx as <-. by apply py_int_raise in Hi. }
      split; [done|]. exists [], x, grades. repeat split; try done.
      intros y Hy. by apply elem_of_nil in Hy.
Qed.

(** The translator as one expression over the three loops. *)
Lemma convert_filters_eq f :
  _convert_filters_to_api_params lim f =
  (found ← first_grade_in_table lim (members f "grade");
   Ok (set_param "grade_id" found
         (set_param "level"
            (first_in_table DIFFICULTY_TO_LEVEL (members f "difficulty"))
            (set_param "category_id"
               (first_in_table SUBJECT_TO_CATEGORY (members f "subjects")) ∅)))).
Proof.
  unfold _convert_filters_to_api_params. cbv zeta. rewrite !translate_block.
  destruct (truthy (f !! "grade")) eqn:Ht; [done|].
  apply truthy_false_members in Ht. by rewrite Ht.
Qed.

Lemma set_params_lookup (fg fd fs : option scalar) (k : string) v :
  set_param "grade_id" fg (set_param "level" fd (set_param "category_id" fs ∅))
    !! k = Some v →
  (k = "category_id" ∧ fs = Some v) ∨ (k = "level" ∧ fd = Some v) ∨
  (k = "grade_id" ∧ fg = Some v).
Proof.
  destruct fg as [vg|], fd as [vd|], fs as [vs|]; simpl;
    rewrite ?lookup_insert, ?lookup_empty;
    repeat case_decide; simplify_eq; intros; simplify_eq; auto.
Qed.

(** X7. Whatever the translator returns is licensed by the tables: every
    parameter is the one [FILTER_MAPPING] names for a dimension, and its
    value is the table's value for a member of the user's set of that
    dimension (for a grade, of the member's normal form). *)
Theorem X_translator_emits_only_mapped_members f params (k : string) v :
  _convert_filters_to_api_params lim f = Ok params →
  params !! k = Some v →
  (FILTER_MAPPING !! "subjects" = Some k ∧
   ∃ x, x ∈ members f "subjects" ∧ SUBJECT_TO_CATEGORY !! x = Some v) ∨
  (FILTER_MAPPING !! "difficulty" = Some k ∧
   ∃ x, x ∈ members f "difficulty" ∧ DIFFICULTY_TO_LEVEL !! x = Some v) ∨
  (FILTER_MAPPING !! "grade" = Some k ∧
   ∃ x g, x ∈ members f "grade" ∧ normalize_grade lim x = Ok g ∧
          GRADE_TO_ID !! g = Some v).
Proof.
  rewrite convert_filters_eq.
  pose proof (first_grade_in_table_spec (members f "grade")) as Hg.
  destruct (first_grade_in_table lim (members f "grade")) as [fg|e]; simpl; [|done].
  intros [= <-] [[-> Hs]|[[-> Hd]|[-> ->]]]%set_params_lookup.
  - left. split; [done|]. by apply first_in_table_elem.
  - right; left. split; [done|]. by apply first_in_table_elem.
  - right; right. split; [done|].
    destruct Hg as (l1 & x & g & l2 & Heq & Hx & Hg & _).
    exists x, g. split; [|done]. rewrite Heq. apply elem_of_app. right. by left.
Qed.

(** X8. The translator raises in one case only, with [ValueError]: the
    iteration of the grade set reaches a digit-string that [int] rejects
    before a member that the grade table knows. *)
Theorem X_translator_error_condition f :
  match _convert_filters_to_api_params lim f with
  | Ok _ =>
    ¬ ∃ l1 x l2, members f "grade" = l1 ++ x :: l2 ∧
        normalize_grade lim x = Raise ValueError ∧
        ∀ y, y ∈ l1 → ∃ gy, normalize_grade lim y = Ok gy ∧
                            GRADE_TO_ID !! gy = None
  | Raise e =>
    e = ValueError ∧
    ∃ l1 x l2, members f "grade" = l1 ++ x :: l2 ∧
      normalize_grade lim x = Raise ValueError ∧
      ∀ y, y ∈ l1 → ∃ gy, normalize_grade lim y = Ok gy ∧
                          GRADE_TO_ID !! gy = None
  end.
Proof.
  rewrite convert_filters_eq.
  destruct (first_grade_in_table lim (members f "grade")) as [fg|e] eqn:Hf; simpl.
  - intros (l1 & x & l2 & Heq & Hx & Hl1). revert Hf. rewrite Heq. clear Heq.
    induction l1 as [|y l1 IH]; cbn [app first_grade_in_table].
    + by rewrite Hx.
    + destruct (Hl1 y) as (gy & Hy & Hgy); [by left|].
      rewrite Hy. cbn [mbind res_bind]. rewrite Hgy.
      apply IH. intros z Hz. apply Hl1. by right.
  - pose proof (first_grade_in_table_spec (members f "grade")) as Hg.
    by rewrite Hf in Hg.
Qed.

(** X9. First match wins, so the translator depends on the order in which
    a set is iterated: two subjects that the table maps to different
    categories give different parameters in the two orders. *)
Theorem X_translator_order_dependent f (x y vx vy : scalar) params params' :
  SUBJECT_TO_CATEGORY !! x = Some vx → SUBJECT_TO_CATEGORY !! y = Some vy →
  vx ≠ vy →
  _convert_filters_to_api_params lim (<["subjects" := [x; y]]> f) = Ok params →
  _convert_filters_to_api_params lim (<["subjects" := [y; x]]> f) = Ok params' →
  params !! "category_id" = Some vx ∧ params' !! "category_id" = Some vy ∧
  params ≠ params'.
Proof.
  intros Hx Hy Hne. rewrite !convert_filters_eq.
  unfold members. rewrite !lookup_insert_eq.
  rewrite !(lookup_insert_ne _ "subjects" "grade") by done.
  rewrite !(lookup_insert_ne _ "subjects" "difficulty") by done.
  cbn [from_option id first_in_table]. rewrite Hx, Hy.
  destruct (first_grade_in_table lim _) as [fg|]; cbn [mbind res_bind]; [|done].
  intros [= <-] [= <-].
  assert (∀ (v : scalar) fg fd,
    set_param "grade_id" fg (set_param "level" fd
      (<["category_id" := v]> ∅)) !! "category_id" = Some v) as Hl.
  { intros v [?|] [?|]; simpl; by simplify_map_eq. }
  rewrite !Hl. split; [done|]. split; [done|].
  intros Heq. apply (f_equal (λ p : api_params, p !! "category_id")) in Heq.
  rewrite !Hl in Heq. congruence.
Qed.

(** X10. The translator returns no parameter exactly when no member of any
    dimension is known to the table of the dimension; that is the case
    in which the list of all courses is requested. *)
Theorem X_translator_empty_iff_nothing_known f params :
  _convert_filters_to_api_params lim f = Ok params →
  params = ∅ ↔
  (∀ x, x ∈ members f "subjects" → SUBJECT_TO_CATEGORY !! x = None) ∧
  (∀ x, x ∈ members f "difficulty" → DIFFICULTY_TO_LEVEL !! x = None) ∧
  (∀ x, x ∈ members f "grade" →
        ∃ g, normalize_grade lim x = Ok g ∧ GRADE_TO_ID !! g = None).
Proof.
  rewrite convert_filters_eq.
  pose proof (first_grade_in_table_spec (members f "grade")) as Hg.
  pose proof (first_in_table_spec SUBJECT_TO_CATEGORY (members f "subjects")) as Hs.
  pose proof (first_in_table_spec DIFFICULTY_TO_LEVEL (members f "difficulty")) as Hd.
  destruct (first_grade_in_table lim (members f "grade")) as [fg|e]; simpl; [|done].
  intros [= <-]. split.
  - intros Hempty.
    destruct fg as [vg|].
    { apply (f_equal (λ p : api_params, p !! "grade_id")) in Hempty.
      simpl in Hempty. by rewrite lookup_insert_eq, lookup_empty in Hempty. }
    destruct (first_in_table DIFFICULTY_TO_LEVEL _) as [vd|].
    { apply (f_equal (λ p : api_params, p !! "level")) in Hempty.
      simpl in Hempty. by rewrite lookup_insert_eq, lookup_empty in Hempty. }
    destruct (first_in_table SUBJECT_TO_CATEGORY _) as [vs|].
    { apply (f_equal (λ p : api_params, p !! "category_id")) in Hempty.
      simpl in Hempty. by rewrite lookup_insert_eq, lookup_empty in Hempty. }
    done.
  - intros (Hs' & Hd' & Hg').
    destruct fg as [vg|].
    { destruct Hg as (l1 & x & g & l2 & Heq & Hx & Hgx & _).
      destruct (Hg' x) as (g' & Hx' & Hg'').
      { rewrite Heq. apply elem_of_app. right. by left. }
      congruence. }
    destruct (first_in_table DIFFICULTY_TO_LEVEL _) as [vd|].
    { destruct Hd as (l1 & x & l2 & Heq & Hx & _).
      rewrite Hd' in Hx; [done|]. rewrite Heq. apply elem_of_app. right. by left. }
    destruct (first_in_table SUBJECT_TO_CATEGORY _) as [vs|].
    { destruct Hs as (l1 & x & l2 & Heq & Hx & _).
      rewrite Hs' in Hx; [done|]. rewrite Heq. apply elem_of_app. right. by left. }
    done.
Qed.

End TranslatorLaws.

Section ServiceLaws.
Variable lim : N.
Variable COURSES : option (list course).
Implicit Types (f : filter_bag) (c : course) (self : CourseService).

Lemma filter_courses_try_eq client f :
  filter_courses_try lim client f =
  match _convert_filters_to_api_params lim f with
  | Raise e => ([], Raise e)
  | Ok params =>
    ([api_request params],
     courses ← api_answer client params;
     _filter_courses_locally lim courses f)
  end.
Proof.
  unfold filter_courses_try, api_request, api_answer.
  destruct (_convert_filters_to_api_params lim f) as [params|e]; [|done].
  case_bool_decide; [done|].
  by destruct (get_courses client params) as [result|e].
Qed.

Lemma filter_courses_calls self f :
  (filter_courses lim COURSES self f).1 =
  match api_client self with
  | None => []
  | Some client => (filter_courses_try lim client f).1
  end.
Proof.
  unfold filter_courses. destruct (api_client self) as [client|]; [|done].
  destruct (filter_courses_try lim client f) as [calls [out|[]]]; done.
Qed.

(** X11. [filter_courses] sends at most one request, whatever it is given
    and whatever happens: none without a client or when the translator
    raises, otherwise the request for all courses when the translated
    parameters are empty and the request with exactly the translated
    parameters when they are not. *)
Theorem X_filter_courses_requests self f :
  match api_client self, _convert_filters_to_api_params lim f with
  | Some _, Ok params =>
    (filter_courses lim COURSES self f).1 =
      [if bool_decide (params = ∅) then GetAllCourses else GetCourses params]
  | _, _ => (filter_courses lim COURSES self f).1 = []
  end.
Proof.
  rewrite filter_courses_calls.
  destruct (api_client self) as [client|].
  - rewrite filter_courses_try_eq.
    by destruct (_convert_filters_to_api_params lim f).
  - by destruct (_convert_filters_to_api_params lim f).
Qed.

Lemma filter_courses_result self f :
  ∃ courses,
    (filter_courses lim COURSES self f).2 = _filter_courses_locally lim courses f ∨
    (filter_courses lim COURSES self f).2 = Ok [].
Proof.
  assert (∃ courses,
    _get_fallback_courses lim COURSES f = _filter_courses_locally lim courses f)
    as [dataset Hfb].
  { rewrite get_fallback_courses_eq. destruct COURSES as [dataset|].
    - by exists dataset.
    - by exists []. }
  unfold filter_courses. destruct (api_client self) as [client|].
  - rewrite filter_courses_try_eq.
    destruct (_convert_filters_to_api_params lim f) as [params|e]; simpl.
    + destruct (api_answer client params) as [courses|e]; simpl.
      * destruct (_filter_courses_locally lim courses f) as [out|e] eqn:Hl.
        -- exists courses. left. by rewrite Hl.
        -- exists dataset. left. by destruct e.
      * exists dataset. left. by destruct e.
    + exists dataset. left. by destruct e.
  - exists dataset. by left.
Qed.

(** X12. Whatever [filter_courses] returns honours the filter bag: on
    every path (the API's answer or the fallback dataset) each record
    of the result passed the three predicates of the evaluator. *)
Theorem X_filter_courses_result_matches self f calls out :
  filter_courses lim COURSES self f = (calls, Ok out) →
  ∀ c, c ∈ out → course_matches lim f c = Ok true.
Proof.
  intros Hf c Hc. destruct (filter_courses_result self f) as [courses [Hr|Hr]];
    rewrite Hf in Hr; simpl in Hr.
  - symmetry in Hr. apply filter_courses_locally_kept in Hr. subst out.
    apply filter_In_kept in Hc as [_ Hk]. by apply kept_true.
  - injection Hr as ->. by apply elem_of_nil in Hc.
Qed.


(** X14. Online, when the request answers with records of the data
    model ([subjects] and [grade] absent or lists, [difficulty] anything
    but a list) and every digit-string of the grade set converts,
    [filter_courses] returns the records of the answer that the three
    predicates of the specification keep, in the order of the answer;
    the fallback dataset plays no part. *)
Theorem X_filter_courses_online self client f params (courses : list course) :
  api_client self = Some client →
  _convert_filters_to_api_params lim f = Ok params →
  api_answer client params = Ok courses →
  Forall (λ c, course_typed c = true) courses →
  grades_convert lim (members f "grade") →
  filter_courses lim COURSES self f =
    ([api_request params], Ok (List.filter (spec_keep lim f) courses)).
Proof.
  intros Hc Hp Ha Ht Hg. unfold filter_courses.
  rewrite Hc, filter_courses_try_eq, Hp, Ha. cbn [mbind res_bind].
  by rewrite filter_courses_locally_spec.
Qed.

(** X15. A record whose difficulty is the code that the table gives for a
    label passes the difficulty predicate whenever that label is among
    the selected ones: the inverse that the evaluator builds undoes the
    table the translator uses. *)
Theorem X_difficulty_round_trip f c (label level : scalar) :
  DIFFICULTY_TO_LEVEL !! label = Some level →
  c !! "difficulty" = Some (PAtom level) →
  label ∈ members f "difficulty" →
  dict_inverse DIFFICULTY_TO_LEVEL_items !! level = Some label ∧
  difficulty_match f c = Ok true.
Proof.
  intros Hl Hc Hin.
  assert (dict_inverse DIFFICULTY_TO_LEVEL_items !! level = Some label) as Hinv.
  { revert Hl. unfold DIFFICULTY_TO_LEVEL, py_dict, dict_inverse,
      DIFFICULTY_TO_LEVEL_items. simpl.
    rewrite !lookup_insert, !lookup_empty.
    repeat case_decide; simplify_eq; try done; intros; by simplify_eq. }
  split; [done|].
  rewrite difficulty_match_typed by (by rewrite Hc).
  unfold spec_difficulty_match. rewrite Hc. simpl.
  rewrite <-dict_inverse_difficulty, Hinv. simpl.
  destruct (members f "difficulty") as [|x l] eqn:E; [done|].
  f_equal. by apply bool_decide_eq_true.
Qed.

End ServiceLaws.

Section ReadSet.
Variable lim : N.
Variable COURSES : option (list course).

(** What the three predicates read of the filter bag and of a record. *)
Lemma course_matches_reads f f' (c c' : course) :
  (∀ k : string, k ∈ ["subjects"; "difficulty"; "grade"] →
                 f !! k = f' !! k ∧ c !! k = c' !! k) →
  course_matches lim f c = course_matches lim f' c'.
Proof.
  intros H.
  destruct (H "subjects") as [Hs Hs']; [set_solver|].
  destruct (H "difficulty") as [Hd Hd']; [set_solver|].
  destruct (H "grade") as [Hg Hg']; [set_solver|].
  unfold course_matches, subjects_match, difficulty_match, grade_match.
  by rewrite Hs, Hs', Hd, Hd', Hg, Hg'.
Qed.

(** X16. The service reads three dimensions of the filter bag and nothing
    else: two bags that agree on [subjects], [difficulty] and [grade]
    give the same parameters, the same selection of any list of records
    and the same outcome of [filter_courses], requests included. *)
Theorem X_other_dimensions_ignored f f' :
  (∀ k : string, k ∈ ["subjects"; "difficulty"; "grade"] → f !! k = f' !! k) →
  _convert_filters_to_api_params lim f = _convert_filters_to_api_params lim f' ∧
  (∀ courses : list course,
     _filter_courses_locally lim courses f
     = _filter_courses_locally lim courses f') ∧
  ∀ self, filter_courses lim COURSES self f = filter_courses lim COURSES self f'.
Proof.
  intros H.
  assert (_convert_filters_to_api_params lim f
          = _convert_filters_to_api_params lim f') as Ht.
  { unfold _convert_filters_to_api_params.
    rewrite (H "subjects"), (H "difficulty"), (H "grade") by set_solver. done. }
  assert (∀ courses : list course,
            _filter_courses_locally lim courses f
            = _filter_courses_locally lim courses f') as He.
  { intros [|c cs]; [done|]. unfold _filter_courses_locally.
    apply filter_loop_ext. intros c0. apply course_matches_reads.
    intros k Hk. split; [by apply H|done]. }
  split; [done|]. split; [done|].
  intros self. unfold filter_courses, filter_courses_try, _get_fallback_courses.
  rewrite Ht. destruct COURSES as [dataset|]; [rewrite (He dataset)|];
    destruct (api_client self) as [client|]; try done;
    destruct (_convert_filters_to_api_params lim f') as [params|e]; try done;
    case_bool_decide; try done.
  all: try (destruct (get_all_courses client) as [cs|e]; simpl; [by rewrite He|done]).
  all: destruct (get_courses client params) as [result|e]; simpl; [|done];
    destruct (getitem_courses result) as [cs|e]; simpl; [by rewrite He|done].
Qed.

(** X17. The evaluator reads three fields of a record and nothing else: two
    records that agree on [subjects], [difficulty] and [grade] are kept
    alike, rejected alike, or raise the same error. *)
Theorem X_other_fields_ignored f (c c' : course) :
  (∀ k : string, k ∈ ["subjects"; "difficulty"; "grade"] → c !! k = c' !! k) →
  course_matches lim f c = course_matches lim f c'.
Proof.
  intros H. apply course_matches_reads. intros k Hk. split; [done|by apply H].
Qed.

(** X18. The handler of [_get_fallback_courses] is for the import alone: an
    error of the evaluator is never an [ImportError], so the fallback
    returns what the evaluator returns on the dataset and raises what
    it raises, a [ValueError] or a [TypeError]; without a dataset it
    returns the empty list. *)
Theorem X_fallback_propagates_evaluator_errors f :
  _get_fallback_courses lim COURSES f =
    match COURSES with
    | Some dataset => _filter_courses_locally lim dataset f
    | None => Ok []
    end ∧
  ∀ e, _get_fallback_courses lim COURSES f = Raise e →
       e = ValueError ∨ e = TypeError.
Proof.
  rewrite get_fallback_courses_eq. split; [done|].
  destruct COURSES as [dataset|]; [|done].
  apply filter_courses_locally_raise_kind.
Qed.

End ReadSet.

Section SettingsLaws.
Variable lim : N.
Implicit Types (env : gmap string string).

Lemma py_int_text_raise x e : py_int_text lim x = Raise e → e = ValueError.
Proof.
  unfold py_int_text, int_of_text.
  repeat case_match; simplify_eq; try done; intros; by simplify_eq.
Qed.

Lemma int_items_raise items e : int_items lim items = Raise e → e = ValueError.
Proof.
  induction items as [|x items IH]; simpl; [done|].
  destruct (strip_truthy x); [|done].
  destruct (py_int_text lim x) as [n|e'] eqn:Hx; simpl.
  - destruct (int_items lim items) as [ns|e'']; simpl; [done|].
    intros [= <-]. by apply IH.
  - intros [= <-]. by apply py_int_text_raise in Hx.
Qed.

(** The class body of [Settings] completes exactly when every item
    between commas that is not blank is an integer literal; otherwise it
    raises [ValueError]. *)
Lemma settings_class_outcome env :
  let items := split_commas (default "" (getenv env "ADMIN_USER_IDS")) in
  match Settings_class lim env with
  | Ok cls =>
    (∀ x, x ∈ items → strip_truthy x = true → is_Ok (py_int_text lim x)) ∧
    int_items lim items = Ok (ADMIN_USER_IDS cls)
  | Raise e =>
    e = ValueError ∧
    ∃ x, x ∈ items ∧ strip_truthy x = true ∧ py_int_text lim x = Raise ValueError
  end.
Proof.
  intros items. unfold Settings_class. fold items.
  assert (match int_items lim items with
          | Ok _ => ∀ x, x ∈ items → strip_truthy x = true →
                         is_Ok (py_int_text lim x)
          | Raise _ => ∃ x, x ∈ items ∧ strip_truthy x = true ∧
                            py_int_text lim x = Raise ValueError
          end) as Hitems.
  { clear. induction items as [|x items IH]; simpl.
    - intros x Hx. by apply elem_of_nil in Hx.
    - destruct (strip_truthy x) eqn:Hs.
      + destruct (py_int_text lim x) as [n|e] eqn:Hx; simpl.
        * destruct (int_items lim items) as [ns|e]; simpl.
          -- intros y [->|Hy]%elem_of_cons Hy'; [by exists n|by apply IH].
          -- destruct IH as (y & Hy & Hy' & Hy''). exists y.
             split; [by right|done].
        * exists x. split; [by left|]. split; [done|].
          by rewrite (py_int_text_raise _ _ Hx) in Hx.
      + destruct (int_items lim items) as [ns|e].
        * intros y [->|Hy]%elem_of_cons Hy'; [congruence|by apply IH].
        * destruct IH as (y & Hy & Hy' & Hy''). exists y. split; [by right|done]. }
  destruct (int_items lim items) as [ids|e] eqn:Hi; simpl.
  - by split.
  - split; [by apply int_items_raise in Hi|done].
Qed.

Lemma api_config_outcome env :
  let texts := [ default "30" (getenv env "API_TIMEOUT");
                 default "100" (getenv env "API_DEFAULT_LIMIT");
                 default "100" (getenv env "API_MAX_LIMIT") ] in
  match APIConfig_init lim env with
  | Ok config =>
    py_int_text lim <$> texts =
      [Ok (TIMEOUT config); Ok (DEFAULT_LIMIT config); Ok (MAX_LIMIT config)]
  | Raise e =>
    e = ValueError ∧ ∃ t, t ∈ texts ∧ py_int_text lim t = Raise ValueError
  end.
Proof.
  intros texts. unfold APIConfig_init, texts. cbn [fmap list_fmap].
  destruct (py_int_text lim (default "30" _)) as [t|e] eqn:Ht;
    cbn [mbind res_bind].
  - destruct (py_int_text lim (default "100" (getenv env "API_DEFAULT_LIMIT")))
      as [d|e] eqn:Hd; cbn [mbind res_bind].
    + destruct (py_int_text lim (default "100" (getenv env "API_MAX_LIMIT")))
        as [m|e] eqn:Hm; cbn [mbind res_bind].
      * done.
      * pose proof (py_int_text_raise _ _ Hm) as ->. split; [done|].
        eexists. split; [|exact Hm]. set_solver.
    + pose proof (py_int_text_raise _ _ Hd) as ->. split; [done|].
      eexists. split; [|exact Hd]. set_solver.
  - pose proof (py_int_text_raise _ _ Ht) as ->. split; [done|].
    eexists. split; [|exact Ht]. set_solver.
Qed.

(** X19. Loading [settings.py] succeeds exactly when [int] accepts every
    item of [ADMIN_USER_IDS] between commas that is not blank and the
    value of each of [API_TIMEOUT], [API_DEFAULT_LIMIT] and
    [API_MAX_LIMIT], its default when the variable is unset; it then
    holds the integers read.  Otherwise loading raises [ValueError]. *)
Theorem X_settings_module_load env :
  let items := split_commas (default "" (getenv env "ADMIN_USER_IDS")) in
  let texts := [ default "30" (getenv env "API_TIMEOUT");
                 default "100" (getenv env "API_DEFAULT_LIMIT");
                 default "100" (getenv env "API_MAX_LIMIT") ] in
  match settings_module lim env with
  | Ok (cls, config) =>
    (∀ x, x ∈ items → strip_truthy x = true → is_Ok (py_int_text lim x)) ∧
    (∀ t, t ∈ texts → is_Ok (py_int_text lim t)) ∧
    int_items lim items = Ok (ADMIN_USER_IDS cls) ∧
    py_int_text lim <$> texts =
      [Ok (TIMEOUT config); Ok (DEFAULT_LIMIT config); Ok (MAX_LIMIT config)]
  | Raise e =>
    e = ValueError ∧
    ((∃ x, x ∈ items ∧ strip_truthy x = true ∧
           py_int_text lim x = Raise ValueError) ∨
     (∃ t, t ∈ texts ∧ py_int_text lim t = Raise ValueError))
  end.
Proof.
  intros items texts. unfold settings_module.
  pose proof (settings_class_outcome env) as Hcls.
  pose proof (api_config_outcome env) as Hcfg.
  cbv zeta in Hcls, Hcfg. fold items in Hcls. fold texts in Hcfg.
  destruct (Settings_class lim env) as [cls|e]; cbn [mbind res_bind].
  - destruct (APIConfig_init lim env) as [config|e]; cbn [mbind res_bind].
    + destruct Hcls as [Hitems Hids]. split; [done|]. split; [|done].
      intros t Ht. apply (list_elem_of_fmap_2 (py_int_text lim)) in Ht.
      rewrite Hcfg in Ht.
      repeat (apply elem_of_cons in Ht as [Ht|Ht]; [by eexists|]).
      by apply elem_of_nil in Ht.
    + destruct Hcfg as [-> Ht]. split; [done|]. by right.
  - destruct Hcls as [-> Hx]. split; [done|]. by left.
Qed.

(** X21. Once the module is loaded, [Settings.validate] passes exactly when
    the environment gives a non-empty [BOT_TOKEN] and a non-empty
    [WEBHOOK_URL], and raises [ValueError] otherwise: its third test, on
    [MINI_APP_URL], can never fail.  The endpoint of the user data API is
    never empty, whatever the environment. *)
Theorem X_settings_validate env cls :
  Settings_class lim env = Ok cls →
  (Settings_validate cls = Ok () ∧
   (∃ t, getenv env "BOT_TOKEN" = Some t ∧ t ≠ "") ∧
   (∃ w, getenv env "WEBHOOK_URL" = Some w ∧ w ≠ "") ∨
   Settings_validate cls = Raise ValueError ∧
   (unset (getenv env "BOT_TOKEN") = true ∨
    unset (getenv env "WEBHOOK_URL") = true)) ∧
  USER_DATA_API_ENDPOINT cls ≠ "".
Proof.
  unfold Settings_class.
  destruct (int_items lim _) as [ids|e]; simpl; [|done].
  intros [= <-]. unfold Settings_validate. simpl. split.
  - destruct (getenv env "BOT_TOKEN") as [t|] eqn:Ht; simpl; [|right; auto].
    case_bool_decide as Ht'; [right; auto|].
    destruct (getenv env "WEBHOOK_URL") as [w|] eqn:Hw; simpl; [|right; auto].
    case_bool_decide as Hw'; [right; auto|].
    left. split; [done|]. split; [by exists t|by exists w].
  - unfold or_else. destruct (getenv env "USER_DATA_API_ENDPOINT") as [s|]; [|done].
    by case_bool_decide.
Qed.

(** X22. The configuration that [APIConfig()] builds always passes its own
    validation, so that the service it is given to is degraded exactly
    when the constructor of the client raises. *)
Theorem X_service_init_online_iff_client env config
    (new_client : string → string → res CourseAPIClient) :
  APIConfig_init lim env = Ok config →
  APIConfig_validate config = Ok true ∧
  api_client (CourseService_init config new_client) =
    match new_client (BASE_URL config) (API_KEY config) with
    | Ok client => Some client
    | Raise _ => None
    end.
Proof.
  unfold APIConfig_init.
  destruct (py_int_text lim (default "30" _)) as [t|]; simpl; [|done].
  destruct (py_int_text lim (default "100" (getenv env "API_DEFAULT_LIMIT")))
    as [d|]; simpl; [|done].
  destruct (py_int_text lim _) as [m|]; simpl; [|done].
  intros [= <-]. split; [done|].
  unfold CourseService_init. simpl.
  by destruct (new_client _ _).
Qed.

(** X23. A service built from a configuration without a base URL, or with a
    client whose constructor raises, is degraded for good: it never
    sends a request, [filter_courses] answers with the fallback and
    [get_course_by_id] with nothing. *)
Theorem X_service_init_degraded COURSES config
    (new_client : string → string → res CourseAPIClient) f course_id :
  BASE_URL config = "" ∨
  (∃ e, new_client (BASE_URL config) (API_KEY config) = Raise e) →
  filter_courses lim COURSES (CourseService_init config new_client) f =
    ([], _get_fallback_courses lim COURSES f) ∧
  get_course_by_id (CourseService_init config new_client) course_id =
    ([], Ok None).
Proof.
  intros Hd.
  assert (api_client (CourseService_init config new_client) = None) as Hnone.
  { unfold CourseService_init, APIConfig_validate.
    destruct Hd as [->|[e He]]; [done|].
    case_bool_decide; [done|]. simpl. by rewrite He. }
  unfold filter_courses, get_course_by_id. by rewrite Hnone.
Qed.

End SettingsLaws.

Section TextLaws.

Local Open Scope N_scope.

(** *** Characters *)

Lemma decimal_value_lt c d : Unicode.decimal_value c = Some d → d < 10.
Proof.
  unfold Unicode.decimal_value.
  destruct (List.find _ _) as [z|] eqn:Hf; simpl; [|done].
  intros [= <-]. apply find_some in Hf as [_ Hz]. lia.
Qed.

Lemma decimal_value_ascii c d :
  c < 127 → Unicode.decimal_value c = Some d → c = 48 + d.
Proof.
  intros Hc. unfold Unicode.decimal_value.
  destruct (List.find _ _) as [z|] eqn:Hf; simpl; [|done].
  intros [= <-]. apply find_some in Hf as [Hin Hz].
  assert (forallb (λ z, (z =? 48) || (1632 <=? z)) Unicode.decimal_zeros = true)
    as Hall by reflexivity.
  rewrite forallb_forall in Hall. specialize (Hall z Hin). lia.
Qed.

Lemma is_digit_ascii c :
  c < 127 → Unicode.is_digit c = true → is_Some (Unicode.decimal_value c).
Proof.
  intros Hc. unfold Unicode.is_digit.
  destruct (Unicode.decimal_value c) as [d|]; [by eexists|].
  intros [r [Hin Hr]]%existsb_exists.
  assert (forallb (λ r : N * N, 178 <=? fst r) Unicode.digit_only_ranges = true)
    as Hall by reflexivity.
  rewrite forallb_forall in Hall. specialize (Hall r Hin). simpl in *. lia.
Qed.

Lemma is_digit_not_space c : Unicode.is_digit c = true → is_space c = false.
Proof.
  intros Hd. unfold is_space. case_bool_decide as Hs; [|done].
  assert (forallb (λ c, negb (Unicode.is_digit c)) space_points = true)
    as Hall by (vm_compute; reflexivity).
  rewrite forallb_forall in Hall. apply list_elem_of_In, Hall in Hs.
  by rewrite Hd in Hs.
Qed.

Lemma to_ascii_digit c :
  Unicode.is_digit c = true →
  to_ascii c = match Unicode.decimal_value c with
               | Some d => 48 + d
               | None => 63
               end.
Proof.
  intros Hd. unfold to_ascii. destruct (c <? 127) eqn:Hc.
  - apply N.ltb_lt in Hc. destruct (is_digit_ascii c Hc Hd) as [d Hv].
    rewrite Hv. by apply decimal_value_ascii.
  - by rewrite is_digit_not_space.
Qed.

Lemma scan_digits_isdigit cs prev acc n :
  forallb Unicode.is_digit cs = true → prev ≠ 95 →
  match Unicode.decimal_number acc cs with
  | Some v =>
    scan_digits prev acc n (to_ascii <$> cs)
    = Some (v, n + N.of_nat (length cs), [])
  | None =>
    ∃ v k rest, scan_digits prev acc n (to_ascii <$> cs) = Some (v, k, 63 :: rest)
  end.
Proof.
  revert prev acc n. induction cs as [|c cs IH]; intros prev acc n Hall Hprev.
  - simpl. apply N.eqb_neq in Hprev. rewrite Hprev. by rewrite N.add_0_r.
  - apply andb_prop in Hall as [Hc Hall].
    cbn [fmap list_fmap scan_digits Unicode.decimal_number length].
    rewrite (to_ascii_digit c Hc).
    destruct (Unicode.decimal_value c) as [d|] eqn:Hv; cbn [mbind option_bind].
    + pose proof (decimal_value_lt c d Hv) as Hd.
      replace (48 + d =? 95) with false by (symmetry; apply N.eqb_neq; lia).
      replace ((48 <=? 48 + d) && (48 + d <=? 57)) with true by lia.
      replace (48 + d - 48) with d by lia.
      specialize (IH (48 + d) (10 * acc + d) (n + 1) Hall).
      destruct (Unicode.decimal_number (10 * acc + d) cs) as [v|].
      * rewrite IH by lia. do 3 f_equal. lia.
      * apply IH. lia.
    + apply N.eqb_neq in Hprev. cbn. rewrite Hprev. by eexists _, _, _.
Qed.

Lemma skip_spaces_cons c cs :
  is_ascii_space c = false → skip_spaces (c :: cs) = c :: cs.
Proof. intros Hc. simpl. by rewrite Hc. Qed.

Variable lim : N.

(** On the strings that [isdigit] accepts, the only ones the service
    converts, [int] for any text is the [int] of the interpreter of the
    service. *)
Lemma py_int_text_isdigit s :
  py_isdigit s = true → py_int_text lim s = py_int lim s.
Proof.
  unfold py_isdigit, py_int_text, py_int.
  destruct (Unicode.utf8_decode s) as [[|c cs]|]; [done| |done].
  intros Hall. unfold int_of_text.
  pose proof Hall as Hall'. apply andb_prop in Hall' as [Hc _].
  assert (∃ a, to_ascii c = a ∧ (48 ≤ a ≤ 57 ∨ a = 63)) as (a & Ha & Hrange).
  { rewrite (to_ascii_digit c Hc). destruct (Unicode.decimal_value c) eqn:Hv.
    - apply decimal_value_lt in Hv. eexists. split; [done|]. lia.
    - eexists. split; [done|]. lia. }
  pose proof (scan_digits_isdigit (c :: cs) 0 0 0 Hall) as Hscan.
  cbn [fmap list_fmap] in *. rewrite Ha in *.
  rewrite skip_spaces_cons by (unfold is_ascii_space; lia).
  replace ((a =? 43) || (a =? 45)) with false by lia.
  replace (a =? 95) with false by lia.
  destruct (Unicode.decimal_number 0 (c :: cs)) as [v|].
  - rewrite Hscan by done. cbn [length].
    replace (0 + N.of_nat (S (length cs)) =? 0) with false by lia.
    rewrite N.add_0_l.
    destruct (_ && _); [done|]. simpl.
    by replace (a =? 45) with false by lia.
  - destruct Hscan as (v & k & rest & ->); [done|].
    destruct (k =? 0); [by destruct (_ && _)|].
    destruct (_ && _), (_ && _); try done.
Qed.

(** *** Printing and reading back *)

Lemma utf8_decode_uint d :
  Unicode.utf8_decode (NilEmpty.string_of_uint d) = Some (uint_codes d).
Proof. induction d; simpl; [done|by rewrite IHd..]. Qed.

Lemma to_ascii_uint d : to_ascii <$> uint_codes d = uint_codes d.
Proof.
  induction d; [done|..]; cbn [uint_codes]; rewrite fmap_cons, IHd; reflexivity.
Qed.

Lemma scan_digits_uint d prev acc n :
  prev ≠ 95 →
  scan_digits prev acc n (uint_codes d)
  = Some (uint_value acc d, n + N.of_nat (Decimal.nb_digits d), []).
Proof.
  revert prev acc n.
  induction d; intros prev acc n Hprev;
    cbn [uint_codes uint_value Decimal.nb_digits scan_digits];
    [apply N.eqb_neq in Hprev; rewrite Hprev; by rewrite N.add_0_r|..];
    (lazymatch goal with
     | |- (if ?b then _ else if ?c then _ else _) = _ =>
       change b with false; change c with true; cbv beta iota
     end;
     rewrite IHd by done;
     lazymatch goal with
     | |- Some (uint_value ?a _, ?x, _) = Some (uint_value ?b _, ?y, _) =>
       replace a with b by lia; replace x with y by lia; reflexivity
     end).
Qed.

Lemma uint_value_pos d p :
  uint_value (N.pos p) d = N.pos (Pos.of_uint_acc d p).
Proof.
  revert p. induction d; intros p; simpl; [done|..];
    (etrans; [|apply IHd]); f_equal; lia.
Qed.

Lemma uint_value_of_uint d : uint_value 0 d = N.of_uint d.
Proof.
  unfold N.of_uint.
  induction d; simpl; [done|done|..]; apply uint_value_pos.
Qed.

Lemma uint_value_ge d acc :
  acc * 10 ^ N.of_nat (Decimal.nb_digits d) ≤ uint_value acc d.
Proof.
  revert acc. induction d; intros acc; cbn [uint_value Decimal.nb_digits];
    [rewrite N.pow_0_r; lia|..];
    rewrite Nat2N.inj_succ, N.pow_succ_r by lia;
    (etrans; [|apply IHd]); nia.
Qed.

Lemma unorm_leading_zero d d' : Decimal.unorm d = Decimal.D0 d' → d' = Decimal.Nil.
Proof. induction d; simpl; try done. by intros [= <-]. Qed.

(** A number below [10 ^ 640] is printed with at most 640 digits, and
    with one at least. *)
Lemma nb_digits_to_uint n :
  n < 10 ^ 640 →
  (1 ≤ Decimal.nb_digits (N.to_uint n) ≤ 640)%nat.
Proof.
  intros Hn.
  pose proof (DecimalN.Unsigned.of_to n) as Hof.
  pose proof (DecimalN.Unsigned.to_of (N.to_uint n)) as Hnorm.
  rewrite Hof in Hnorm. rewrite <- uint_value_of_uint in Hof.
  destruct (N.to_uint n) as [|d|d|d|d|d|d|d|d|d|d] eqn:Hd;
    [by destruct n| |
     (cbn [Decimal.nb_digits]; split; [lia|];
      cbn [uint_value] in Hof;
      match type of Hof with
      | uint_value ?k d = _ => pose proof (uint_value_ge d k) as Hge
      end;
      rewrite Hof in Hge;
      destruct (decide (640 ≤ Decimal.nb_digits d)%nat) as [Hlen|]; [|lia];
      assert (10 ^ 640 ≤ 10 ^ N.of_nat (Decimal.nb_digits d))
        by (apply N.pow_le_mono_r; lia);
      lia)..].
  (* a leading zero: the number is zero *)
  symmetry in Hnorm. apply unorm_leading_zero in Hnorm as ->. simpl. lia.
Qed.

Lemma int_of_text_uint d negative :
  (1 ≤ Decimal.nb_digits d ≤ 640)%nat →
  int_of_text lim ((if negative : bool then [45] else []) ++ uint_codes d)
  = Ok (if negative then - Z.of_N (uint_value 0 d) else Z.of_N (uint_value 0 d))%Z.
Proof.
  intros Hlen. unfold int_of_text.
  assert (∃ a rest, uint_codes d = a :: rest ∧ 48 ≤ a ≤ 57) as (a & rest & Hcodes & Ha).
  { destruct d; simpl in *; [lia|eexists _, _; split; [done|lia]..]. }
  assert (∀ prev, prev ≠ 95 →
    scan_digits prev 0 0 (a :: rest)
    = Some (uint_value 0 d, N.of_nat (Decimal.nb_digits d), [])) as Hscan.
  { intros prev Hprev. rewrite <- Hcodes, scan_digits_uint by done.
    by rewrite N.add_0_l. }
  rewrite fmap_app, to_ascii_uint, Hcodes.
  destruct negative; cbn [fmap list_fmap app].
  - change (to_ascii 45) with 45.
    rewrite skip_spaces_cons by done. cbn [N.eqb Pos.eqb orb].
    replace (a =? 95) with false by lia.
    rewrite Hscan by done.
    replace (N.of_nat (Decimal.nb_digits d) =? 0) with false by lia.
    replace (640 <? N.of_nat (Decimal.nb_digits d)) with false by lia.
    done.
  - rewrite skip_spaces_cons by (unfold is_ascii_space; lia).
    replace ((a =? 43) || (a =? 45)) with false by lia.
    replace (a =? 95) with false by lia.
    rewrite Hscan by done.
    replace (N.of_nat (Decimal.nb_digits d) =? 0) with false by lia.
    replace (640 <? N.of_nat (Decimal.nb_digits d)) with false by lia.
    simpl. by replace (a =? 45) with false by lia.
Qed.

Lemma py_str_eq z :
  py_str z = ((if (z <? 0)%Z then "-" else "")
              ++ NilEmpty.string_of_uint (N.to_uint (Z.abs_N z)))%string.
Proof.
  unfold py_str. destruct z as [|p|p]; [done|..];
    cbn -[Pos.to_uint NilEmpty.string_of_uint];
    pose proof (Unsigned.to_uint_nonnil p); by destruct (Pos.to_uint p).
Qed.

Lemma utf8_decode_str z :
  Unicode.utf8_decode (py_str z)
  = Some ((if (z <? 0)%Z then [45] else [])
          ++ uint_codes (N.to_uint (Z.abs_N z))).
Proof.
  rewrite py_str_eq. destruct (z <? 0)%Z.
  - change (Unicode.utf8_decode ("-" ++ ?s))
      with (cons 45 <$> Unicode.utf8_decode s).
    by rewrite utf8_decode_uint.
  - apply utf8_decode_uint.
Qed.

(** [int(str(z)) == z] for an integer of at most 640 digits, whatever
    the limit of the interpreter. *)
Lemma py_int_text_str z :
  (Z.abs z < 10 ^ 640)%Z → py_int_text lim (py_str z) = Ok z.
Proof.
  intros Hz. unfold py_int_text. rewrite utf8_decode_str.
  rewrite int_of_text_uint.
  - rewrite uint_value_of_uint, DecimalN.Unsigned.of_to.
    destruct (Z.ltb_spec z 0); f_equal; lia.
  - apply nb_digits_to_uint.
    apply N2Z.inj_lt. rewrite N2Z.inj_abs_N.
    by rewrite N2Z.inj_pow.
Qed.

Lemma strip_truthy_str z : strip_truthy (py_str z) = true.
Proof.
  unfold strip_truthy. rewrite utf8_decode_str.
  destruct (z <? 0)%Z; [done|]. simpl.
  pose proof (DecimalN.Unsigned.to_of (N.to_uint (Z.abs_N z))) as Hnorm.
  rewrite DecimalN.Unsigned.of_to in Hnorm.
  by destruct (N.to_uint (Z.abs_N z)).
Qed.

(** *** Splitting and joining *)

Lemma split_commas_cons s : ∃ x xs, split_commas s = x :: xs.
Proof.
  induction s as [|a s (x & xs & IH)]; simpl; [by eexists _, _|].
  rewrite IH. destruct (Ascii.eqb a ","); by eexists _, _.
Qed.

Lemma split_commas_free x : comma_free x = true → split_commas x = [x].
Proof.
  induction x as [|a x IH]; simpl; [done|].
  intros [Ha Hx]%andb_prop. rewrite (IH Hx).
  by apply negb_true_iff in Ha as ->.
Qed.

Lemma split_commas_app x s :
  comma_free x = true →
  split_commas (x ++ String "," s) = x :: split_commas s.
Proof.
  induction x as [|a x IH]; simpl.
  - intros _. by destruct (split_commas_cons s) as (y & ys & ->).
  - intros [Ha Hx]%andb_prop. rewrite (IH Hx).
    by apply negb_true_iff in Ha as ->.
Qed.

Lemma comma_free_uint d : comma_free (NilEmpty.string_of_uint d) = true.
Proof. induction d; simpl; done. Qed.

Lemma comma_free_str z : comma_free (py_str z) = true.
Proof.
  rewrite py_str_eq. destruct (z <? 0)%Z; apply comma_free_uint.
Qed.

Lemma split_join_str i ids :
  split_commas (join_commas (py_str <$> i :: ids)) = py_str <$> i :: ids.
Proof.
  revert i. induction ids as [|j ids IH]; intros i.
  - apply split_commas_free, comma_free_str.
  - change (join_commas (py_str <$> i :: j :: ids))
      with (py_str i ++ String "," (join_commas (py_str <$> j :: ids)))%string.
    rewrite split_commas_app by apply comma_free_str. by rewrite IH.
Qed.

Lemma int_items_str ids :
  Forall (λ i, (Z.abs i < 10 ^ 640)%Z) ids →
  int_items lim (py_str <$> ids) = Ok ids.
Proof.
  induction 1 as [|i ids Hi _ IH]; [done|].
  cbn [fmap list_fmap int_items].
  change (list_fmap Z string py_str ids) with (py_str <$> ids).
  rewrite strip_truthy_str, py_int_text_str by done. simpl.
  fold (int_items lim). by rewrite IH.
Qed.

(** X20. The list of admin ids reads back what was written: when the
    variable holds integers of at most 640 digits, printed in decimal
    and joined by commas, [ADMIN_USER_IDS] is the list of these
    integers, in order; the empty text, or no variable at all, gives
    the empty list. *)
Theorem X_admin_ids_round_trip (env : gmap string string) ids :
  Forall (λ i, (Z.abs i < 10 ^ 640)%Z) ids →
  default "" (getenv env "ADMIN_USER_IDS") = join_commas (py_str <$> ids) →
  ∃ cls, Settings_class lim env = Ok cls ∧ ADMIN_USER_IDS cls = ids.
Proof.
  intros Hids Henv. unfold Settings_class. rewrite Henv.
  assert (int_items lim (split_commas (join_commas (py_str <$> ids))) = Ok ids)
    as ->.
  { destruct ids as [|i ids]; [done|].
    rewrite split_join_str. by apply int_items_str. }
  simpl. by eexists.
Qed.

End TextLaws.

Section StoreLaws.
Import Store.
Variable lim : N.
Implicit Types (h : gmap loc obj) (v : val).

Lemma keeps_extends {A} (m : M A) h : keeps h m any_result → h ⊆ (m h).2.
Proof. intros Hm. by destruct (Hm h). Qed.

Lemma visit_course_results fv lr x h h' rs :
  h !! lr = Some (OList rs) →
  Methods.visit_course lim fv (VRef lr) x h = (Ok (), h') →
  h' !! lr = Some (OList rs) ∨ h' !! lr = Some (OList (rs ++ [x])).
Proof.
  intros Hrs. unfold Methods.visit_course.
  rewrite bind_run.
  pose proof (keeps_extends _ h (keeps_subjects_match h fv x)) as H1.
  destruct (Methods.subjects_match fv x h) as [[sm|e] h1]; [|done].
  rewrite bind_run.
  pose proof (keeps_extends _ h1 (keeps_difficulty_match h1 fv x)) as H2.
  destruct (Methods.difficulty_match fv x h1) as [[dm|e] h2]; [|done].
  rewrite bind_run.
  pose proof (keeps_extends _ h2 (keeps_grade_match lim h2 fv x)) as H3.
  destruct (Methods.grade_match lim fv x h2) as [[gm|e] h3]; [|done].
  simpl in *.
  assert (h3 !! lr = Some (OList rs)) as Hrs3.
  { eapply lookup_weaken; [done|]. by repeat (etrans; [done|]). }
  destruct (sm && dm && gm).
  - rewrite (list_append_run _ _ _ _ Hrs3). intros [= <-].
    right. apply lookup_insert_eq.
  - intros [= <-]. by left.
Qed.

Lemma visit_courses_results fv lr (xs : list val) h h' rs :
  h !! lr = Some (OList rs) →
  for_each (Methods.visit_course lim fv (VRef lr)) xs h = (Ok (), h') →
  ∃ rs', h' !! lr = Some (OList (rs ++ rs')) ∧ sublist rs' xs.
Proof.
  revert h rs. induction xs as [|x xs IH]; intros h rs Hrs; simpl.
  - intros [= <-]. exists []. by rewrite app_nil_r.
  - rewrite bind_run.
    destruct (Methods.visit_course lim fv (VRef lr) x h) as [[[]|e] h1] eqn:Hx;
      [|done].
    intros Hxs.
    destruct (visit_course_results _ _ _ _ _ _ Hrs Hx) as [Hrs1|Hrs1];
      destruct (IH _ _ Hrs1 Hxs) as (rs' & Hrs' & Hsub).
    + exists rs'. split; [done|]. by apply sublist_cons.
    + exists (x :: rs'). rewrite <- app_assoc in Hrs'. split; [done|].
      by apply sublist_skip.
Qed.

(** X24. When the evaluator returns, it returns a list object of its own,
    one that did not exist before the call and is never the list of
    candidates itself, also when no filter is set or when there is no
    candidate; the items of this list are references taken from the
    list of candidates, in its order: the records are shared with the
    caller, not copied. *)
Theorem X_store_result_is_new_list_of_shared_records
    h h' (lc : loc) (vs : list val) (fv v : val) :
  h !! lc = Some (OList vs) →
  Methods._filter_courses_locally lim (VRef lc) fv h = (Ok v, h') →
  ∃ lr rs, v = VRef lr ∧ h !! lr = None ∧
           h' !! lr = Some (OList rs) ∧ sublist rs vs.
Proof.
  intros Hl. unfold Methods._filter_courses_locally.
  rewrite bind_run.
  assert (truth (VRef lc) h = (Ok (bool_decide (vs ≠ [])), h)) as ->.
  { unfold truth. rewrite bind_run. simpl. by rewrite Hl. }
  destruct (alloc_run (OList []) h) as (lr & Hal & Hlr & Hsub).
  case_bool_decide as Hvs; simpl.
  - rewrite bind_run, Hal, bind_run.
    assert (iterate (VRef lc) (<[lr := OList []]> h)
            = (Ok vs, <[lr := OList []]> h)) as ->.
    { unfold iterate. rewrite bind_run. simpl.
      by rewrite (lookup_weaken _ _ _ _ Hl Hsub). }
    rewrite bind_run.
    destruct (for_each _ vs _) as [[[]|e] h2] eqn:Hloop; [|done].
    intros [= <- <-].
    destruct (visit_courses_results fv lr vs _ _ [] (lookup_insert_eq _ _ _) Hloop)
      as (rs & Hrs & Hsubl).
    by exists lr, rs.
  - rewrite Hal. intros [= <- <-]. exists lr, [].
    split; [done|]. split; [done|]. split; [apply lookup_insert_eq|].
    apply sublist_nil_l.
Qed.

End StoreLaws.

(** ** The claims at concrete inputs *)

Lemma typed_samples :
  Forall (λ c, course_typed c = true) [course_robotics; course_science].
Proof. repeat constructor. Defined.

Lemma C7_witness :
  members (bag [("subjects", [])]) "subjects" = [] ∧
  members (bag [("subjects", [])]) "difficulty" = [] ∧
  members (bag [("subjects", [])]) "grade" = [] ∧
  _convert_filters_to_api_params cpython_default_limit (bag [("subjects", [])])
    = Ok ∅ ∧
  _filter_courses_locally cpython_default_limit
    [course_robotics; course_bare] (bag [("subjects", [])])
    = Ok [course_robotics; course_bare].
Proof.
  split; [reflexivity|]. split; [reflexivity|]. split; [reflexivity|].
  apply (C7_empty_filters_identity cpython_default_limit
           (bag [("subjects", [])]) [course_robotics; course_bare]);
    reflexivity.
Defined.

Lemma C9_witness :
  members (bag [("grade", [PStr "abc"; PStr "-5"])]) "grade" ≠ [] ∧
  (∀ x, x ∈ members (bag [("grade", [PStr "abc"; PStr "-5"])]) "grade" →
        ∃ s, x = PStr s ∧ py_isdigit s = false) ∧
  Forall (λ c, course_typed c = true) [course_robotics; course_science] ∧
  _filter_courses_locally cpython_default_limit
    [course_robotics; course_science] (bag [("grade", [PStr "abc"; PStr "-5"])])
    = Ok [].
Proof.
  assert (∀ x, x ∈ members (bag [("grade", [PStr "abc"; PStr "-5"])]) "grade" →
               ∃ s, x = PStr s ∧ py_isdigit s = false) as Hg.
  { change (members (bag [("grade", [PStr "abc"; PStr "-5"])]) "grade")
      with [PStr "abc"; PStr "-5"].
    intros x Hx. apply elem_of_cons in Hx as [->|Hx]; [by exists "abc"|].
    apply list_elem_of_singleton in Hx as ->. by exists "-5". }
  split; [discriminate|]. split; [exact Hg|]. split; [exact typed_samples|].
  apply (C9_no_usable_grade_rejects_all cpython_default_limit
           (bag [("grade", [PStr "abc"; PStr "-5"])])
           [course_robotics; course_science]);
    [discriminate|exact Hg|exact typed_samples].
Defined.




Lemma degraded_mode_fallback_sample :
  api_client degraded_service = None ∧
  filter_courses cpython_default_limit (Some [course_robotics; course_science])
    degraded_service (bag [("subjects", [PStr "Наука"])]) =
  ([], _filter_courses_locally cpython_default_limit
         [course_robotics; course_science] (bag [("subjects", [PStr "Наука"])])) ∧
  filter_courses cpython_default_limit (Some [course_robotics; course_bare])
    degraded_service {["grade" := [PStr "9"]]} =
  ([], Ok (List.filter (λ c, bool_decide (PInt 9 ∈ items c "grade"))
                       [course_robotics; course_bare])) ∧
  List.filter (λ c, bool_decide (PInt 9 ∈ items c "grade"))
    [course_robotics; course_bare] = [course_robotics].
Proof.
  destruct (degraded_mode_fallback cpython_default_limit
              (Some [course_robotics; course_science]) degraded_service
              (bag [("subjects", [PStr "Наука"])]) eq_refl) as [Hf _].
  destruct (degraded_mode_fallback cpython_default_limit
              (Some [course_robotics; course_bare]) degraded_service
              ∅ eq_refl) as [_ Hnine].
  split; [reflexivity|]. split; [exact Hf|].
  split; [|reflexivity].
  apply (Hnine _ eq_refl). repeat constructor.
Defined.

Lemma C8_witness :
  sample_store !! 2%positive = Some (Store.OSet [PStr "9"]) ∧
  (Store.Methods._convert_filters_to_api_params cpython_default_limit
     (Store.VRef 1%positive) sample_store).2 !! 2%positive = Some (Store.OSet [PStr "9"]) ∧
  (Store.Methods._filter_courses_locally cpython_default_limit
     (Store.VRef 3%positive) (Store.VRef 1%positive) sample_store).2 !! 2%positive =
    Some (Store.OSet [PStr "9"]).
Proof.
  split; [reflexivity|].
  exact (C8_filter_bag_and_records_unchanged cpython_default_limit
           (Store.VRef 1%positive) (Store.VRef 3%positive) sample_store 2%positive
           (Store.OSet [PStr "9"]) eq_refl).
Defined.

(** ** The properties at work on the sample data *)

Lemma X_evaluator_returns_matching_sublist_witness :
  _filter_courses_locally cpython_default_limit
    [course_robotics; course_bare; course_science] full_bag = Ok [course_science] ∧
  sublist [course_science] [course_robotics; course_bare; course_science] ∧
  ∀ c, c ∈ [course_science] →
       course_matches cpython_default_limit full_bag c = Ok true.
Proof.
  split; [reflexivity|].
  apply (X_evaluator_returns_matching_sublist cpython_default_limit
           [course_robotics; course_bare; course_science] [course_science]
           full_bag).
  reflexivity.
Defined.

Lemma X_evaluator_idempotent_witness :
  _filter_courses_locally cpython_default_limit
    [course_robotics; course_bare; course_science] full_bag = Ok [course_science] ∧
  _filter_courses_locally cpython_default_limit [course_science] full_bag
    = Ok [course_science].
Proof.
  split; [reflexivity|].
  apply (X_evaluator_idempotent cpython_default_limit
           [course_robotics; course_bare; course_science] [course_science]
           full_bag).
  reflexivity.
Defined.

Lemma X_evaluator_error_condition_witness :
  Forall (λ c, course_typed c = true) [course_robotics; course_science] ∧
  ((_filter_courses_locally cpython_default_limit
      [course_robotics; course_science] superscript_two_bag = Raise ValueError ∧
    [course_robotics; course_science] ≠ [] ∧
    ∃ x e, x ∈ members superscript_two_bag "grade" ∧
           grade_value cpython_default_limit x = Some (Raise e)) ∨
   (_filter_courses_locally cpython_default_limit
      [course_robotics; course_science] superscript_two_bag =
      Ok (List.filter (spec_keep cpython_default_limit superscript_two_bag)
            [course_robotics; course_science]) ∧
    ([course_robotics; course_science] = [] ∨
     grades_convert cpython_default_limit (members superscript_two_bag "grade")))).
Proof.
  split; [exact typed_samples|].
  exact (X_evaluator_error_condition cpython_default_limit
           [course_robotics; course_science] superscript_two_bag typed_samples).
Defined.

Lemma same_members_sample :
  ∀ (dim : string) x,
    x ∈ members (bag [("grade", [PStr "9"; PInt 10])]) dim ↔
    x ∈ members (bag [("grade", [PInt 10; PStr "9"]); ("subjects", [])]) dim.
Proof.
  intros dim x. unfold members, bag, py_dict. cbn [foldl fst snd].
  destruct (decide (dim = "grade")) as [->|Hg].
  - rewrite (lookup_insert_ne _ "subjects" "grade") by done.
    rewrite !lookup_insert_eq. cbn [default from_option id].
    rewrite !elem_of_cons, !elem_of_nil. tauto.
  - rewrite (lookup_insert_ne _ "grade" dim) by done. rewrite lookup_empty.
    destruct (decide (dim = "subjects")) as [->|Hs].
    + by rewrite lookup_insert_eq.
    + rewrite (lookup_insert_ne _ "subjects" dim) by done.
      rewrite (lookup_insert_ne _ "grade" dim) by done.
      by rewrite lookup_empty.
Defined.

Lemma X_evaluator_order_independent_witness :
  Forall (λ c, course_typed c = true) [course_robotics; course_science] ∧
  _filter_courses_locally cpython_default_limit
    [course_robotics; course_science] (bag [("grade", [PStr "9"; PInt 10])]) =
  _filter_courses_locally cpython_default_limit
    [course_robotics; course_science]
    (bag [("grade", [PInt 10; PStr "9"]); ("subjects", [])]).
Proof.
  split; [exact typed_samples|].
  exact (X_evaluator_order_independent cpython_default_limit
           [course_robotics; course_science] _ _ typed_samples
           same_members_sample).
Defined.

Lemma widens_sample : widens science_bag science_or_robotics_bag.
Proof.
  intros dim. unfold members, science_bag, science_or_robotics_bag, bag, py_dict.
  cbn [foldl fst snd].
  destruct (decide (dim = "subjects")) as [->|Hs].
  - right. rewrite !lookup_insert_eq. cbn [default from_option id].
    split; [discriminate|]. intros x Hx. apply list_elem_of_singleton in Hx as ->. by left.
  - left. rewrite (lookup_insert_ne _ "subjects" dim) by done.
    by rewrite lookup_empty.
Defined.

Lemma X_evaluator_widening_witness :
  widens science_bag science_or_robotics_bag ∧
  sublist [course_science] [course_robotics; course_science].
Proof.
  split; [exact widens_sample|].
  exact (X_evaluator_widening cpython_default_limit
           [course_robotics; course_science] [course_science]
           [course_robotics; course_science]
           science_bag science_or_robotics_bag widens_sample eq_refl eq_refl).
Defined.

Lemma X_translator_emits_only_mapped_members_witness :
  _convert_filters_to_api_params cpython_default_limit full_bag
    = Ok (py_dict [ ("category_id", PInt 7); ("level", PStr "INTERMEDIATE");
                    ("grade_id", PInt 3) ]) ∧
  ((FILTER_MAPPING !! "subjects" = Some "level" ∧
    ∃ x, x ∈ members full_bag "subjects" ∧
         SUBJECT_TO_CATEGORY !! x = Some (PStr "INTERMEDIATE")) ∨
   (FILTER_MAPPING !! "difficulty" = Some "level" ∧
    ∃ x, x ∈ members full_bag "difficulty" ∧
         DIFFICULTY_TO_LEVEL !! x = Some (PStr "INTERMEDIATE")) ∨
   (FILTER_MAPPING !! "grade" = Some "level" ∧
    ∃ x g, x ∈ members full_bag "grade" ∧
           normalize_grade cpython_default_limit x = Ok g ∧
           GRADE_TO_ID !! g = Some (PStr "INTERMEDIATE"))).
Proof.
  split; [reflexivity|].
  exact (X_translator_emits_only_mapped_members cpython_default_limit full_bag
           _ "level" (PStr "INTERMEDIATE") eq_refl eq_refl).
Defined.

Lemma X_translator_order_dependent_witness :
  SUBJECT_TO_CATEGORY !! PStr "Наука" = Some (PInt 7) ∧
  SUBJECT_TO_CATEGORY !! PStr "Робототехника" = Some (PInt 4) ∧
  ({["category_id" := PInt 7]} : api_params) !! "category_id" = Some (PInt 7) ∧
  ({["category_id" := PInt 4]} : api_params) !! "category_id" = Some (PInt 4) ∧
  ({["category_id" := PInt 7]} : api_params) ≠ {["category_id" := PInt 4]}.
Proof.
  split; [reflexivity|]. split; [reflexivity|].
  apply (X_translator_order_dependent cpython_default_limit ∅
           (PStr "Наука") (PStr "Робототехника") (PInt 7) (PInt 4));
    [reflexivity|reflexivity|discriminate|reflexivity|reflexivity].
Defined.

Lemma X_translator_empty_iff_nothing_known_witness :
  _convert_filters_to_api_params cpython_default_limit chess_bag = Ok ∅ ∧
  ((∅ : api_params) = ∅ ↔
   (∀ x, x ∈ members chess_bag "subjects" → SUBJECT_TO_CATEGORY !! x = None) ∧
   (∀ x, x ∈ members chess_bag "difficulty" → DIFFICULTY_TO_LEVEL !! x = None) ∧
   (∀ x, x ∈ members chess_bag "grade" →
         ∃ g, normalize_grade cpython_default_limit x = Ok g ∧
              GRADE_TO_ID !! g = None)).
Proof.
  split; [reflexivity|].
  apply (X_translator_empty_iff_nothing_known cpython_default_limit chess_bag).
  reflexivity.
Defined.

Lemma X_filter_courses_result_matches_witness :
  filter_courses cpython_default_limit None
    {| api_client := Some sample_client |} grade_seven_bag =
    ([GetCourses {["grade_id" := PInt 1]}], Ok [course_robotics]) ∧
  ∀ c, c ∈ [course_robotics] →
       course_matches cpython_default_limit grade_seven_bag c = Ok true.
Proof.
  split; [reflexivity|].
  apply (X_filter_courses_result_matches cpython_default_limit None
           {| api_client := Some sample_client |} grade_seven_bag
           [GetCourses {["grade_id" := PInt 1]}] [course_robotics]).
  reflexivity.
Defined.


Lemma grade_seven_converts :
  grades_convert cpython_default_limit (members grade_seven_bag "grade").
Proof.
  change (members grade_seven_bag "grade") with [PStr "7"].
  intros x e Hx. apply list_elem_of_singleton in Hx as ->. discriminate.
Defined.

Lemma X_filter_courses_online_witness :
  api_answer sample_client {["grade_id" := PInt 1]}
    = Ok [course_robotics; course_science] ∧
  grades_convert cpython_default_limit (members grade_seven_bag "grade") ∧
  filter_courses cpython_default_limit None
    {| api_client := Some sample_client |} grade_seven_bag =
    ([api_request {["grade_id" := PInt 1]}],
     Ok (List.filter (spec_keep cpython_default_limit grade_seven_bag)
           [course_robotics; course_science])).
Proof.
  split; [reflexivity|]. split; [exact grade_seven_converts|].
  exact (X_filter_courses_online cpython_default_limit None
           {| api_client := Some sample_client |} sample_client
           grade_seven_bag {["grade_id" := PInt 1]}
           [course_robotics; course_science]
           eq_refl eq_refl eq_refl typed_samples grade_seven_converts).
Defined.

Lemma X_difficulty_round_trip_witness :
  DIFFICULTY_TO_LEVEL !! PStr "Средний" = Some (PStr "INTERMEDIATE") ∧
  course_science !! "difficulty" = Some (PAtom (PStr "INTERMEDIATE")) ∧
  dict_inverse DIFFICULTY_TO_LEVEL_items !! PStr "INTERMEDIATE"
    = Some (PStr "Средний") ∧
  difficulty_match full_bag course_science = Ok true.
Proof.
  split; [reflexivity|]. split; [reflexivity|].
  apply (X_difficulty_round_trip full_bag course_science
           (PStr "Средний") (PStr "INTERMEDIATE")); [reflexivity|reflexivity|].
  change (members full_bag "difficulty") with [PStr "Средний"]. by left.
Defined.

Lemma X_admin_ids_round_trip_witness :
  default "" (getenv sample_env "ADMIN_USER_IDS")
    = join_commas (py_str <$> [12; -7; 0]%Z) ∧
  ∃ cls, Settings_class cpython_default_limit sample_env = Ok cls ∧
         ADMIN_USER_IDS cls = [12; -7; 0]%Z.
Proof.
  split; [reflexivity|].
  apply (X_admin_ids_round_trip cpython_default_limit sample_env [12; -7; 0]%Z);
    [|reflexivity].
  repeat constructor.
Defined.

Lemma X_settings_validate_witness :
  ∃ cls, Settings_class cpython_default_limit sample_env = Ok cls ∧
    (Settings_validate cls = Ok () ∧
     (∃ t, getenv sample_env "BOT_TOKEN" = Some t ∧ t ≠ "") ∧
     (∃ w, getenv sample_env "WEBHOOK_URL" = Some w ∧ w ≠ "") ∨
     Settings_validate cls = Raise ValueError ∧
     (unset (getenv sample_env "BOT_TOKEN") = true ∨
      unset (getenv sample_env "WEBHOOK_URL") = true)) ∧
    USER_DATA_API_ENDPOINT cls ≠ "".
Proof.
  eexists. split; [reflexivity|].
  apply (X_settings_validate cpython_default_limit sample_env). reflexivity.
Defined.

Lemma X_service_init_online_iff_client_witness :
  APIConfig_init cpython_default_limit ∅ = Ok sample_config ∧
  APIConfig_validate sample_config = Ok true ∧
  api_client (CourseService_init sample_config reachable_client) =
    match reachable_client (BASE_URL sample_config) (API_KEY sample_config) with
    | Ok client => Some client
    | Raise _ => None
    end.
Proof.
  split; [reflexivity|].
  apply (X_service_init_online_iff_client cpython_default_limit ∅). reflexivity.
Defined.

Lemma X_service_init_degraded_witness :
  unreachable_client (BASE_URL sample_config) (API_KEY sample_config)
    = Raise (OtherException "ConnectionError") ∧
  filter_courses cpython_default_limit (Some [course_robotics; course_science])
    (CourseService_init sample_config unreachable_client) full_bag =
    ([], _get_fallback_courses cpython_default_limit
           (Some [course_robotics; course_science]) full_bag) ∧
  get_course_by_id (CourseService_init sample_config unreachable_client) 2
    = ([], Ok None).
Proof.
  split; [reflexivity|].
  apply (X_service_init_degraded cpython_default_limit).
  right. by eexists.
Defined.

Lemma X_store_result_is_new_list_of_shared_records_witness :
  sample_store !! 3%positive = Some (Store.OList [Store.VRef 4%positive]) ∧
  ∃ v h',
    Store.Methods._filter_courses_locally cpython_default_limit
      (Store.VRef 3%positive) (Store.VRef 1%positive) sample_store = (Ok v, h') ∧
    ∃ lr rs, v = Store.VRef lr ∧ sample_store !! lr = None ∧
             h' !! lr = Some (Store.OList rs) ∧
             sublist rs [Store.VRef 4%positive].
Proof.
  split; [reflexivity|]. eexists _, _. split; [reflexivity|].
  apply (X_store_result_is_new_list_of_shared_records cpython_default_limit
           sample_store _ 3%positive [Store.VRef 4%positive]
           (Store.VRef 1%positive)); reflexivity.
Defined.

Lemma other_key_sample {V} (m : gmap string V) (other : string) (v : V) :
  other ∉ ["subjects"; "difficulty"; "grade"] →
  ∀ k : string, k ∈ ["subjects"; "difficulty"; "grade"] →
                m !! k = <[other := v]> m !! k.
Proof.
  intros Hother k Hk. rewrite lookup_insert_ne; [done|]. by intros <-.
Defined.

Lemma page_is_no_dimension : "page" ∉ ["subjects"; "difficulty"; "grade"].
Proof.
  intros H. repeat (apply elem_of_cons in H as [H|H]; [discriminate|]).
  by apply elem_of_nil in H.
Defined.

Lemma X_other_dimensions_ignored_witness :
  (∀ k : string, k ∈ ["subjects"; "difficulty"; "grade"] →
     full_bag !! k = <["page" := [PInt 2]]> full_bag !! k) ∧
  _convert_filters_to_api_params cpython_default_limit full_bag
  = _convert_filters_to_api_params cpython_default_limit
      (<["page" := [PInt 2]]> full_bag) ∧
  (∀ courses : list course,
     _filter_courses_locally cpython_default_limit courses full_bag
     = _filter_courses_locally cpython_default_limit courses
         (<["page" := [PInt 2]]> full_bag)) ∧
  ∀ self,
    filter_courses cpython_default_limit None self full_bag
    = filter_courses cpython_default_limit None self
        (<["page" := [PInt 2]]> full_bag).
Proof.
  split; [exact (other_key_sample full_bag "page" [PInt 2] page_is_no_dimension)|].
  exact (X_other_dimensions_ignored cpython_default_limit None full_bag
           (<["page" := [PInt 2]]> full_bag)
           (other_key_sample full_bag "page" [PInt 2] page_is_no_dimension)).
Defined.

Lemma X_other_fields_ignored_witness :
  (∀ k : string, k ∈ ["subjects"; "difficulty"; "grade"] →
     course_science !! k = <["page" := PAtom (PInt 2)]> course_science !! k) ∧
  course_matches cpython_default_limit full_bag course_science
  = course_matches cpython_default_limit full_bag
      (<["page" := PAtom (PInt 2)]> course_science).
Proof.
  split; [exact (other_key_sample course_science "page" _ page_is_no_dimension)|].
  exact (X_other_fields_ignored cpython_default_limit full_bag course_science
           (<["page" := PAtom (PInt 2)]> course_science)
           (other_key_sample course_science "page" _ page_is_no_dimension)).
Defined.
